(** * ForestOS: the schedule synthesizer and the frontier evolution engine

    A shallow embedding of the core of [server.js] (class [ForestServer]):
    time conversion, the daily schedule, task selection, completion and the
    opportunity detector, followed by the properties the specification
    states about them. *)

From Stdlib Require Import ZArith List String Ascii Bool Lia Sorted Permutation.
Import ListNotations.

Open Scope string_scope.
Open Scope Z_scope.

(* ================================================================== *)
(** * JavaScript values and string primitives *)
(* ================================================================== *)

Module Js.

(** A JavaScript number as the core uses it: an integer or [NaN].  Times,
    magnitudes and ratings are integers; [NaN] appears when a field is
    missing or a text is not numeric. *)
Inductive num : Type :=
  | NaN
  | Int (z : Z).

Definition isNaN (x : num) : bool :=
  match x with NaN => true | Int _ => false end.

Definition lift2 (f : Z -> Z -> Z) (x y : num) : num :=
  match x, y with
  | Int a, Int b => Int (f a b)
  | _, _ => NaN
  end.

Definition add := lift2 Z.add.
Definition sub := lift2 Z.sub.
Definition mul := lift2 Z.mul.
(** [%] keeps the sign of the dividend. *)
Definition rem := lift2 Z.rem.
(** [Math.floor(x / d)] for a positive integer [d]. *)
Definition floordiv := lift2 Z.div.

(** [Math.max] and [Math.min] answer [NaN] as soon as one argument is. *)
Definition max := lift2 Z.max.
Definition min := lift2 Z.min.

Definition cmp (f : Z -> Z -> bool) (x y : num) : bool :=
  match x, y with
  | Int a, Int b => f a b
  | _, _ => false
  end.

Definition ltb := cmp Z.ltb.
Definition leb := cmp Z.leb.
Definition gtb := cmp Z.gtb.
Definition geb := cmp Z.geb.
(** [===] on numbers: [NaN] is equal to nothing. *)
Definition eqb := cmp Z.eqb.

(** [x || d] on an optional number: [undefined], [0] and [NaN] are falsy. *)
Definition or_num (x : option num) (d : num) : num :=
  match x with
  | Some (Int z) => if z =? 0 then d else Int z
  | _ => d
  end.

(** ** Characters *)

Definition is_digit (c : ascii) : bool :=
  let n := nat_of_ascii c in (48 <=? n)%nat && (n <=? 57)%nat.

(** The ASCII white space of [trim] and of [\s]: tab, line feed, vertical
    tab, form feed, carriage return and space. *)
Definition is_space (c : ascii) : bool :=
  let n := nat_of_ascii c in
  ((9 <=? n)%nat && (n <=? 13)%nat) || (n =? 32)%nat.

Definition lower_ascii (c : ascii) : ascii :=
  let n := nat_of_ascii c in
  if (65 <=? n)%nat && (n <=? 90)%nat then ascii_of_nat (n + 32) else c.

Definition upper_ascii (c : ascii) : ascii :=
  let n := nat_of_ascii c in
  if (97 <=? n)%nat && (n <=? 122)%nat then ascii_of_nat (n - 32) else c.

(** ** Strings (ASCII letters for the case conversions) *)

Fixpoint map_string (f : ascii -> ascii) (s : string) : string :=
  match s with
  | EmptyString => EmptyString
  | String c t => String (f c) (map_string f t)
  end.

Definition toLowerCase : string -> string := map_string lower_ascii.
Definition toUpperCase : string -> string := map_string upper_ascii.

Fixpoint starts_with (p s : string) : bool :=
  match p, s with
  | EmptyString, _ => true
  | String a p', String b s' => Ascii.eqb a b && starts_with p' s'
  | String _ _, EmptyString => false
  end.

(** [s.includes(sub)] *)
Fixpoint includes (s sub : string) : bool :=
  starts_with sub s ||
  match s with
  | EmptyString => false
  | String _ t => includes t sub
  end.

Fixpoint drop_spaces (s : string) : string :=
  match s with
  | String c t => if is_space c then drop_spaces t else s
  | EmptyString => EmptyString
  end.

Fixpoint rev_string (s acc : string) : string :=
  match s with
  | EmptyString => acc
  | String c t => rev_string t (String c acc)
  end.

Definition trim (s : string) : string :=
  rev_string (drop_spaces (rev_string (drop_spaces s) "")) "".

(** [s.split(sep)] for a separator of one character: never empty. *)
Fixpoint split (sep : ascii) (s : string) : list string :=
  match s with
  | EmptyString => [""]
  | String c t =>
      if Ascii.eqb c sep then "" :: split sep t
      else match split sep t with
           | [] => [String c ""]
           | w :: ws => String c w :: ws
           end
  end.

(** [s.substring(0, n)] *)
Fixpoint take (n : nat) (s : string) : string :=
  match n, s with
  | S k, String c t => String c (take k t)
  | _, _ => EmptyString
  end.

(** [x || d] on an optional string: [undefined] and the empty string are
    falsy. *)
Definition or_str (x : option string) (d : string) : string :=
  match x with
  | Some EmptyString | None => d
  | Some s => s
  end.

(** A value inside a template literal. *)
Definition show_opt (x : option string) : string :=
  match x with Some s => s | None => "undefined" end.

(** ** Numbers and text *)

Definition digit_val (c : ascii) : Z := Z.of_nat (nat_of_ascii c) - 48.

Fixpoint all_digits (s : string) : bool :=
  match s with
  | EmptyString => true
  | String c t => is_digit c && all_digits t
  end.

Fixpoint digits_value (s : string) (acc : Z) : Z :=
  match s with
  | EmptyString => acc
  | String c t => digits_value t (10 * acc + digit_val c)
  end.

(** [parseInt] of a run of decimal digits (what the patterns of
    [parseTimeAvailable] capture). *)
Definition parseInt_digits (s : string) : Z := digits_value s 0.

Definition unsigned_number (s : string) : num :=
  match s with
  | EmptyString => NaN
  | _ => if all_digits s then Int (digits_value s 0) else NaN
  end.

(** [Number(text)] on integer literals: white space around the text is
    dropped, the empty text is [0], an optional sign may precede the
    digits.  [Number] also reads fractions, exponents, radix prefixes and
    [Infinity]; those values are not time fields and are outside this
    model, which answers [NaN] for every other text. *)
Definition Number_str (s : string) : num :=
  match trim s with
  | EmptyString => Int 0
  | String "+" t => unsigned_number t
  | String "-" t => sub (Int 0) (unsigned_number t)
  | t => unsigned_number t
  end.

(** [Number(x)] where [x] may be [undefined]. *)
Definition Number (x : option string) : num :=
  match x with Some s => Number_str s | None => NaN end.

Definition digit_char (d : Z) : ascii := ascii_of_nat (Z.to_nat d + 48).

Fixpoint show_pos_fuel (fuel : nat) (z : Z) (acc : string) : string :=
  match fuel with
  | O => acc
  | S k =>
      let acc' := String (digit_char (z mod 10)) acc in
      if z <? 10 then acc' else show_pos_fuel k (z / 10) acc'
  end.

(** [n.toString()] for an integer: at most [log2 n + 2] digits. *)
Definition show_Z (z : Z) : string :=
  if z <? 0
  then String "-" (show_pos_fuel (S (Z.to_nat (Z.log2 (- z)))) (- z) "")
  else show_pos_fuel (S (Z.to_nat (Z.log2 z))) z "".

Definition show (x : num) : string :=
  match x with NaN => "NaN" | Int z => show_Z z end.

(** [s.padStart(2, '0')] *)
Definition padStart2 (s : string) : string :=
  match s with
  | EmptyString => "00"
  | String c EmptyString => String "0" s
  | _ => s
  end.

(** [Array.prototype.sort(compare)]: stable; [x] is moved behind [y] when
    [compare(x, y) > 0].  Every stable sort gives this result when the
    comparator is a total preorder, which it is on integer keys. *)
Fixpoint insert_sorted {A : Type} (compare : A -> A -> num) (x : A)
    (l : list A) : list A :=
  match l with
  | [] => [x]
  | y :: t =>
      if gtb (compare x y) (Int 0) then y :: insert_sorted compare x t
      else x :: l
  end.

Definition sort {A : Type} (compare : A -> A -> num) (l : list A) : list A :=
  fold_right (insert_sorted compare) [] l.

(** The double quote inside a template literal. *)
Definition dq : string := String (ascii_of_nat 34) EmptyString.

(** A computation that either returns or throws. *)
Inductive outcome (A : Type) : Type :=
  | Ok (a : A)
  | Throw (msg : string).
Arguments Ok {A} a.
Arguments Throw {A} msg.

End Js.

(* ================================================================== *)
(** * TimeConversion *)
(* ================================================================== *)

Module Time.
Import Js.

(** [/[AP]M/i.test(s)] *)
Fixpoint has_meridiem (s : string) : bool :=
  match s with
  | String c ((String d _) as t) =>
      ((Ascii.eqb (upper_ascii c) "A" || Ascii.eqb (upper_ascii c) "P")
         && Ascii.eqb (upper_ascii d) "M")
      || has_meridiem t
  | _ => false
  end.

(** The [try] block of [parseTime]. *)
Definition parseTime_try (timeStr : string) : outcome num :=
  let cleaned := trim timeStr in
  if negb (has_meridiem cleaned) then
    (* 24-hour format (no AM/PM suffix) *)
    let parts := split ":" cleaned in
    let hours := Number (nth_error parts 0) in
    let minutes := Number (nth_error parts 1) in
    if isNaN hours || isNaN minutes then Throw "Invalid time"
    else
      let hours := if eqb hours (Int 24) then Int 0 else hours in
      Ok (add (mul hours (Int 60)) minutes)
  else
    (* 12-hour format with AM/PM *)
    let parts := split " " cleaned in
    match nth_error parts 1 with
    | None => Throw "Cannot read properties of undefined (reading 'toUpperCase')"
    | Some periodRaw =>
        let period := toUpperCase periodRaw in
        let fields := map Number_str (split ":" (nth 0 parts "")) in
        let hours := nth 0 fields NaN in
        let minutes := nth 1 fields NaN in
        let hours :=
          if String.eqb period "PM" && negb (eqb hours (Int 12))
          then add hours (Int 12) else hours in
        let hours :=
          if String.eqb period "AM" && eqb hours (Int 12)
          then Int 0 else hours in
        Ok (add (mul hours (Int 60)) minutes)
    end.

(** [parseTime]: the [catch] clause answers [0]. *)
Definition parseTime (timeStr : string) : num :=
  match parseTime_try timeStr with
  | Ok m => m
  | Throw _ => Int 0
  end.

(** [formatTime].  Nothing in the [try] block throws on a number, so the
    [catch] clause (which answers ["12:00 AM"]) is never entered. *)
Definition formatTime (minutes : num) : string :=
  let day := Int (24 * 60) in
  let minsMod := rem (add (rem minutes day) day) day in
  let hours := floordiv minsMod (Int 60) in
  let mins := rem minsMod (Int 60) in
  let period := if geb hours (Int 12) then "PM" else "AM" in
  let displayHours :=
    if eqb hours (Int 0) then Int 12
    else if gtb hours (Int 12) then sub hours (Int 12) else hours in
  show displayHours ++ ":" ++ padStart2 (show mins) ++ " " ++ period.

(** ** Durations in free text *)

Fixpoint span_digits (s : string) : string * string :=
  match s with
  | String c t =>
      if is_digit c then let (d, r) := span_digits t in (String c d, r)
      else (EmptyString, s)
  | EmptyString => (EmptyString, EmptyString)
  end.

(** The first position of [s] (from the left) where [f] matches. *)
Fixpoint first_match {A : Type} (f : string -> option A) (s : string)
  : option A :=
  match f s with
  | Some a => Some a
  | None =>
      match s with
      | EmptyString => None
      | String _ t => first_match f t
      end
  end.

(** [/(\d+)\s*unit/] anchored at the head of [s]: the captured digits. *)
Definition digits_then (unit : string) (s : string) : option string :=
  let (d, r) := span_digits s in
  match d with
  | EmptyString => None
  | _ => if starts_with unit (drop_spaces r) then Some d else None
  end.

(** [/(\d+)-(\d+)\s*(hour|min)/] anchored at the head of [s]: the second
    group and whether the unit is [hour]. *)
Definition range_at (s : string) : option (string * bool) :=
  let (d1, r1) := span_digits s in
  match d1, r1 with
  | String _ _, String "-" r2 =>
      let (d2, r3) := span_digits r2 in
      match d2 with
      | EmptyString => None
      | _ =>
          let r4 := drop_spaces r3 in
          if starts_with "hour" r4 then Some (d2, true)
          else if starts_with "min" r4 then Some (d2, false)
          else None
      end
  | _, _ => None
  end.

(** [parseTimeAvailable]: minutes of a free-text duration. *)
Definition parseTimeAvailable (timeStr : option string) : Z :=
  match timeStr with
  | None | Some EmptyString => 60 (* default 1 hour *)
  | Some timeStr =>
      let str := toLowerCase timeStr in
      if includes str "flexible" || includes str "needed"
         || includes str "natural" || includes str "stopping"
         || includes str "variable"
      then 120
      else
        match first_match range_at str with
        | Some (upper, is_hour) =>
            if is_hour then parseInt_digits upper * 60
            else parseInt_digits upper
        | None =>
            match first_match (digits_then "min") str,
                  first_match (digits_then "hour") str with
            | Some m, _ => parseInt_digits m
            | None, Some h => parseInt_digits h * 60
            | None, None => 60 (* default 1 hour *)
            end
        end
  end.

End Time.


(* ================================================================== *)
(** * Data model *)
(* ================================================================== *)

Module Model.
Import Js.

Inductive priority : Type := Critical | High | Medium | Low.
Inductive status : Type := Ready | Blocked | Future.
Inductive block_type : Type :=
  | Learning | Habit | Meal | Break | Transition | LifeStructure.

Definition status_eqb (a b : status) : bool :=
  match a, b with
  | Ready, Ready | Blocked, Blocked | Future, Future => true
  | _, _ => false
  end.

(** A frontier node.  The optional flags [interest_based] and
    [path_priority] are only ever tested for truth, so an absent flag is
    [false]. *)
Record node : Type := mkNode {
  id : string;
  title : string;
  description : string;
  branch_type : string;
  estimated_time : string;
  node_priority : priority;
  node_status : status;
  magnitude : num;
  prerequisites : list string;
  learning_outcomes : list string;
  interest_based : bool;
  path_priority : bool;
  path_focus : option string;
  generated_from : option string
}.

(** [{ ...node, magnitude: m }] *)
Definition with_magnitude (n : node) (m : num) : node :=
  mkNode (id n) (title n) (description n) (branch_type n) (estimated_time n)
         (node_priority n) (node_status n) m (prerequisites n)
         (learning_outcomes n) (interest_based n) (path_priority n)
         (path_focus n) (generated_from n).

(** [node.path_priority = p; node.path_focus = f] *)
Definition with_path (n : node) (p : bool) (f : option string) : node :=
  mkNode (id n) (title n) (description n) (branch_type n) (estimated_time n)
         (node_priority n) (node_status n) (magnitude n) (prerequisites n)
         (learning_outcomes n) (interest_based n) p f (generated_from n).

Record completed_node : Type := mkCompleted {
  c_node : node;
  completed_date : string;
  actual_difficulty : Z
}.

Record habit : Type := mkHabit {
  h_id : string;
  h_title : string;
  h_description : string;
  h_status : status
}.

(** What [completeBlock] writes into a block. *)
Record completion : Type := mkCompletion {
  completed_at : string;
  outcome_text : string;
  learned_text : string;
  next_questions : string;
  energy_after : Z;
  difficulty_rating : Z;
  breakthrough : bool
}.

(** A time block.  Fields that are only displayed ([energy_impact],
    [energy_type], [fixed], [tracking_metrics], ...) are left out. *)
Record block : Type := mkBlock {
  b_id : string;
  b_type : block_type;
  b_time : string;
  b_duration : string;
  b_action : string;
  b_description : string;
  strategic_purpose : option string;
  b_magnitude : option num;
  b_learning_outcomes : list string;
  b_completed : option completion
}.

Definition with_completion (b : block) (c : completion) : block :=
  mkBlock (b_id b) (b_type b) (b_time b) (b_duration b) (b_action b)
          (b_description b) (strategic_purpose b) (b_magnitude b)
          (b_learning_outcomes b) (Some c).

Record schedule : Type := mkSchedule {
  s_project_id : string;
  s_date : string;
  north_star : string;
  time_blocks : list block;
  total_blocks : Z;
  completed_count : Z;
  energy_level : Z;
  focus_type : string;
  s_created : string
}.

Record learning_path : Type := mkPath {
  path_name : string;
  created_dynamically : bool
}.

Record config : Type := mkConfig {
  goal : string;
  wake_minutes : Z;
  sleep_minutes : Z;
  meal_times : option (list string);
  focus_duration : option string;
  transition_time : option string;
  active_learning_path : option string;
  knowledge_level : Z;
  breakthroughs : Z;
  specific_interests : list string;
  learning_paths : list learning_path;
  path_focus_duration : option string;
  path_focused_at : option string
}.

Record hta : Type := mkHta {
  hta_north_star : string;
  frontier_nodes : list node;
  completed_nodes : list completed_node;
  habit_nodes : option (list habit);
  last_evolution : option string
}.

Record topic_record : Type := mkTopic {
  topic : string;
  topic_date : string;
  topic_learned : string;
  topic_difficulty : Z;
  topic_breakthrough : bool
}.

Record gap_record : Type := mkGap {
  question : string;
  discovered : string;
  from_topic : string
}.

Record history : Type := mkHistory {
  completed_topics : list topic_record;
  knowledge_gaps : list gap_record
}.

(** The default learning history of the loaders. *)
Definition empty_history : history := mkHistory [] [].

(** The files of the active project's directory, and error.log of the
    data directory. *)
Inductive file : Type :=
  | ConfigJson
  | HtaJson
  | HistoryJson
  | DayJson (date : string)
  | PathHtaJson (pathName : string)
  | PathHistoryJson (pathName : string)
  | ErrorLog.

(** A line of error.log, as [logError] writes it: the time, the operation
    that failed and the file it was writing (the [context]; the project is
    the active one).  The message and the stack of the error come from the
    runtime and are not modelled. *)
Record log_entry : Type := mkLogEntry {
  log_timestamp : string;
  log_operation : string;
  log_context : file
}.

Record store : Type := mkStore {
  active_project : option string;      (* the global config.json *)
  config_json : option config;
  hta_json : option hta;
  history_json : option history;
  day_json : string -> option schedule;
  path_hta_json : string -> option hta;
  path_history_json : string -> option history;
  error_log : list log_entry           (* error.log of the data directory *)
}.

Definition upd {A : Type} (m : string -> option A) (k : string) (v : A)
  : string -> option A :=
  fun k' => if String.eqb k k' then Some v else m k'.

(** What the operation cannot decide itself. *)
Record env : Type := mkEnv {
  ids : nat -> string;        (* the identifiers generateId draws, in order *)
  today : string;             (* getTodayDate() *)
  now_iso : string;           (* new Date().toISOString() *)
  clock_minutes : Z;          (* getHours() * 60 + getMinutes() *)
  can_write : file -> bool    (* does writing this file succeed? *)
}.

Record world : Type := mkWorld {
  disk : store;
  drawn : nat                 (* identifiers drawn so far *)
}.

(** Computations over the world that return or throw; what was written
    before a throw stays written. *)
Definition M (A : Type) : Type := world -> outcome A * world.

Definition ret {A : Type} (a : A) : M A := fun w => (Ok a, w).
Definition throw {A : Type} (msg : string) : M A := fun w => (Throw msg, w).
Definition bind {A B : Type} (m : M A) (k : A -> M B) : M B :=
  fun w =>
    match m w with
    | (Ok a, w') => k a w'
    | (Throw msg, w') => (Throw msg, w')
    end.
Definition lift {A : Type} (o : outcome A) : M A := fun w => (o, w).

(** [generateId()]: the next identifier of the environment. *)
Definition generateId (E : env) : M string :=
  fun w => (Ok (ids E (drawn w)), mkWorld (disk w) (S (drawn w))).

(** ** The persistence collaborator *)

Definition load {A : Type} (get : store -> A) : M A :=
  fun w => (Ok (get (disk w)), w).

Definition log_error (e : log_entry) (s : store) : store :=
  mkStore (active_project s) (config_json s) (hta_json s) (history_json s)
          (day_json s) (path_hta_json s) (path_history_json s)
          (error_log s ++ [e]).

(** [logError]: one more line in error.log; when the append fails the
    failure goes to the console only. *)
Definition logError (E : env) (operation : string) (context : file) : M unit :=
  fun w =>
    if can_write E ErrorLog
    then (Ok tt,
          mkWorld (log_error (mkLogEntry (now_iso E) operation context) (disk w))
                  (drawn w))
    else (Ok tt, w).

(** The saver a file goes through: [savePathData] for the files of a
    learning path, [saveProjectData] for the others. *)
Definition saver (f : file) : string :=
  match f with
  | PathHtaJson _ | PathHistoryJson _ => "savePathData"
  | _ => "saveProjectData"
  end.

(** [saveProjectData] and [savePathData]: [true] and the file replaced, or
    the error logged and [false]. *)
Definition save (E : env) (f : file) (put : store -> store) : M bool :=
  fun w =>
    if can_write E f then (Ok true, mkWorld (put (disk w)) (drawn w))
    else bind (logError E (saver f) f) (fun _ => ret false) w.

Definition put_config (c : config) (s : store) : store :=
  mkStore (active_project s) (Some c) (hta_json s) (history_json s)
          (day_json s) (path_hta_json s) (path_history_json s)
          (error_log s).
Definition put_hta (h : hta) (s : store) : store :=
  mkStore (active_project s) (config_json s) (Some h) (history_json s)
          (day_json s) (path_hta_json s) (path_history_json s)
          (error_log s).
Definition put_history (h : history) (s : store) : store :=
  mkStore (active_project s) (config_json s) (hta_json s) (Some h)
          (day_json s) (path_hta_json s) (path_history_json s)
          (error_log s).
Definition put_day (date : string) (d : schedule) (s : store) : store :=
  mkStore (active_project s) (config_json s) (hta_json s) (history_json s)
          (upd (day_json s) date d) (path_hta_json s) (path_history_json s)
          (error_log s).
Definition put_path_hta (p : string) (h : hta) (s : store) : store :=
  mkStore (active_project s) (config_json s) (hta_json s) (history_json s)
          (day_json s) (upd (path_hta_json s) p h) (path_history_json s)
          (error_log s).

(** [requireActiveProject] *)
Definition requireActiveProject : M string :=
  fun w =>
    match active_project (disk w) with
    | Some (String c p) => (Ok (String c p), w)
    | _ => (Throw "No active project. Use create_project or switch_project first.", w)
    end.

(** [a || b] on loaded files. *)
Definition orelse {A : Type} (a b : option A) : option A :=
  match a with Some _ => a | None => b end.

End Model.

Declare Scope forest_scope.
Notation "x <- m ;; k" := (Model.bind m (fun x => k))
  (at level 61, m at next level, right associativity) : forest_scope.
Notation "m ;;; k" := (Model.bind m (fun _ => k))
  (at level 61, right associativity) : forest_scope.
Open Scope forest_scope.

(* ================================================================== *)
(** * ScheduleSynthesizer *)
(* ================================================================== *)

Module Schedule.
Import Js Time Model.
Local Open Scope list_scope.

Section WithEnv.
Variable E : env.

Record slot : Type := mkSlot {
  start : Z;
  formatted_time : string;
  available : bool
}.

Record period : Type := mkPeriod { p_start : num; p_end : num }.

Definition meal_action (index : nat) : string :=
  match index with
  | O => "Lunch"
  | S O => "Dinner"
  | _ => ("Meal " ++ show_Z (Z.of_nat index + 1))%string
  end.

Definition meal_block (i : string) (mealMinutes : num) (index : nat) : block :=
  mkBlock i Meal (formatTime mealMinutes) "30 min" (meal_action index)
          "Nourishment and mental break" None None [] None.

(** The [forEach] of [scheduleFixedLifeStructure]. *)
Fixpoint fixed_loop (mealTimes : list string) (index : nat)
    (startTime endTime : Z) (fixedBlocks : list block) : M (list block) :=
  match mealTimes with
  | [] => ret fixedBlocks
  | mealTime :: rest =>
      let mealMinutes := parseTime mealTime in
      if geb mealMinutes (Int startTime) && leb mealMinutes (Int (endTime - 30))
      then
        i <- generateId E ;;
        fixed_loop rest (S index) startTime endTime
                   (fixedBlocks ++ [meal_block i mealMinutes index])
      else fixed_loop rest (S index) startTime endTime fixedBlocks
  end.

Definition scheduleFixedLifeStructure (projectConfig : config)
    (startTime endTime : Z) : M (list block) :=
  let mealTimes :=
    match meal_times projectConfig with
    | Some l => l
    | None => ["12:00 PM"; "6:00 PM"]
    end in
  fixed_loop mealTimes 0%nat startTime endTime [].

Definition hasFixedBlock (fixedBlocks : list block) (currentTime : Z) : bool :=
  existsb (fun b =>
    let blockTime := parseTime (b_time b) in
    let blockDuration := parseTimeAvailable (Some (b_duration b)) in
    geb (Int currentTime) blockTime
    && ltb (Int currentTime) (add blockTime (Int blockDuration)))
    fixedBlocks.

(** The [while (currentTime < endTime)] loop, [steps] iterations. *)
Fixpoint slots_loop (steps : nat) (currentTime : Z) (fixedBlocks : list block)
  : list slot :=
  match steps with
  | O => []
  | S k =>
      let rest := slots_loop k (currentTime + 15) fixedBlocks in
      if hasFixedBlock fixedBlocks currentTime then rest
      else mkSlot currentTime (formatTime (Int currentTime)) true :: rest
  end.

(** The loop runs while [currentTime < endTime], in steps of 15. *)
Definition slot_steps (startTime endTime : Z) : nat :=
  Z.to_nat ((endTime - startTime + 14) / 15).

Definition createTimeSlots (startTime endTime : Z) (fixedBlocks : list block)
  : list slot :=
  slots_loop (slot_steps startTime endTime) startTime fixedBlocks.

Definition identifyHighEnergyPeriods (projectConfig : config) : list period :=
  [ mkPeriod (Int (wake_minutes projectConfig + 60))
             (Int (wake_minutes projectConfig + 180));
    mkPeriod (parseTime "2:00 PM") (parseTime "4:00 PM") ].

(** Slots are shared objects: the arrays the schedulers filter out of
    [timeSlots] hold references, here positions in [timeSlots], and
    [slot.available = false] is seen through all of them. *)
Fixpoint refs_from {A : Type} (keep : A -> bool) (l : list A) (i : nat)
  : list nat :=
  match l with
  | [] => []
  | x :: t => if keep x then i :: refs_from keep t (S i) else refs_from keep t (S i)
  end.

(** [timeSlots.filter(slot => slot.available)] *)
Definition available_refs (timeSlots : list slot) : list nat :=
  refs_from available timeSlots 0%nat.

Fixpoint mark_taken (i : nat) (timeSlots : list slot) : list slot :=
  match timeSlots, i with
  | [], _ => []
  | s :: t, O => mkSlot (start s) (formatted_time s) false :: t
  | s :: t, S k => s :: mark_taken k t
  end.

Definition slot_at (timeSlots : list slot) (i : nat) : slot :=
  nth i timeSlots (mkSlot 0 "" false).

Definition learning_block (n : node) (s : slot) (focusDuration : Z) : block :=
  mkBlock (id n) Learning (formatted_time s)
          (match estimated_time n with
           | EmptyString => (show_Z focusDuration ++ " min")%string
           | t => t
           end)
          (title n) (description n) (Some (branch_type n))
          (Some (magnitude n)) (learning_outcomes n) None.

(** One [forEach] over slots that hands out [pool] in order: the state is
    the index of the next node, the slots and the blocks pushed so far. *)
Fixpoint assign_loop (pool : list node) (focusDuration : Z) (refs : list nat)
    (st : nat * list slot * list block) : nat * list slot * list block :=
  match refs with
  | [] => st
  | r :: rest =>
      let '(nodeIndex, timeSlots, blocks) := st in
      match nth_error pool nodeIndex with
      | Some n =>
          assign_loop pool focusDuration rest
            (S nodeIndex, mark_taken r timeSlots,
             blocks ++ [learning_block n (slot_at timeSlots r) focusDuration])
      | None => assign_loop pool focusDuration rest st
      end
  end.

Definition in_period (timeSlots : list slot) (p : period) (r : nat) : bool :=
  let s := slot_at timeSlots r in
  geb (Int (start s)) (p_start p) && leb (Int (start s)) (p_end p).

Fixpoint periods_loop (challengingNodes : list node) (focusDuration : Z)
    (availableSlots : list nat) (periods : list period)
    (st : nat * list slot * list block) : nat * list slot * list block :=
  match periods with
  | [] => st
  | p :: rest =>
      let periodSlots := filter (in_period (snd (fst st)) p) availableSlots in
      periods_loop challengingNodes focusDuration availableSlots rest
        (assign_loop challengingNodes focusDuration periodSlots st)
  end.

(** [scheduleLearningBlocks]: the blocks, and the slots as it leaves them. *)
Definition scheduleLearningBlocks (learningNodes : list node)
    (timeSlots : list slot) (highEnergyPeriods : list period)
    (focusDuration : Z) : list block * list slot :=
  let availableSlots := available_refs timeSlots in
  let challengingNodes := filter (fun n => geb (magnitude n) (Int 7)) learningNodes in
  let easyNodes := filter (fun n => ltb (magnitude n) (Int 7)) learningNodes in
  let st1 := periods_loop challengingNodes focusDuration availableSlots
               highEnergyPeriods (0%nat, timeSlots, []) in
  let remainingSlots :=
    filter (fun r => available (slot_at (snd (fst st1)) r)) availableSlots in
  let st2 := assign_loop easyNodes focusDuration remainingSlots
               (0%nat, snd (fst st1), snd st1) in
  (snd st2, snd (fst st2)).

Definition habit_block (h : habit) (s : slot) : block :=
  mkBlock (h_id h) Habit (formatted_time s) "15 min" (h_title h)
          (h_description h) None None [] None.

Fixpoint habits_loop (habitNodes : list habit) (habitTimes : list Z)
    (availableSlots : list nat) (st : list slot * list block)
  : list slot * list block :=
  match habitNodes, habitTimes with
  | h :: hs, targetTime :: ts =>
      let '(timeSlots, blocks) := st in
      let nearestSlot :=
        find (fun r => Z.abs (start (slot_at timeSlots r) - targetTime) <? 30)
             availableSlots in
      match nearestSlot with
      | Some r =>
          habits_loop hs ts availableSlots
            (mark_taken r timeSlots,
             blocks ++ [habit_block h (slot_at timeSlots r)])
      | None => habits_loop hs ts availableSlots st
      end
  | _, _ => st
  end.

Definition scheduleHabitBlocks (habitNodes : list habit)
    (timeSlots : list slot) (projectConfig : config) : list block * list slot :=
  let availableSlots := available_refs timeSlots in
  let morningHabitTime := wake_minutes projectConfig + 30 in
  let eveningHabitTime := sleep_minutes projectConfig - 60 in
  let st := habits_loop habitNodes [morningHabitTime; eveningHabitTime]
              availableSlots (timeSlots, []) in
  (snd st, fst st).

Definition break_block (i : string) (s : slot) : block :=
  mkBlock i Break (formatted_time s) "10 min" "Restorative Break"
          "Rest, stretch, hydrate, or light movement" None None [] None.

Definition transition_block (i : string) (s : slot) (transitionTime : Z) : block :=
  mkBlock i Transition (formatted_time s) (show_Z transitionTime ++ " min")%string
          "Transition & Preparation"
          "Prepare for next activity, organize workspace, mindful transition"
          None None [] None.

(** The first [forEach] of [scheduleLifeStructure]: [refs] is what is left
    of [availableSlots], [index] the position of its head. *)
Fixpoint breaks_loop (refs : list nat) (index : nat)
    (st : list slot * list block) : M (list slot * list block) :=
  match refs with
  | [] => ret st
  | r :: rest =>
      match rest with
      | _ :: _ =>
          if (index mod 3 =? 0)%nat then
            i <- generateId E ;;
            breaks_loop rest (S index)
              (mark_taken r (fst st),
               snd st ++ [break_block i (slot_at (fst st) r)])
          else breaks_loop rest (S index) st
      | [] => breaks_loop rest (S index) st
      end
  end.

Fixpoint transitions_loop (remainingSlots : list slot) (transitionTime : Z)
    (blocks : list block) : M (list block) :=
  match remainingSlots with
  | [] => ret blocks
  | s :: rest =>
      i <- generateId E ;;
      transitions_loop rest transitionTime
        (blocks ++ [transition_block i s transitionTime])
  end.

Definition scheduleLifeStructure (timeSlots : list slot)
    (projectConfig : config) : M (list block) :=
  let availableSlots := available_refs timeSlots in
  let transitionTime :=
    parseTimeAvailable (Some (or_str (transition_time projectConfig) "5 minutes")) in
  st <- breaks_loop availableSlots 0%nat (timeSlots, []) ;;
  transitions_loop (filter available (fst st)) transitionTime (snd st).

(** The comparator of the final sort. *)
Definition by_time (a b : block) : num :=
  sub (parseTime (b_time a)) (parseTime (b_time b)).

(** The midnight crossover of [generateComprehensiveSchedule]: a sleep
    time that is not after the wake time is the next day's. *)
Definition resolveWindow (wake sleep : Z) : Z :=
  if sleep <=? wake then sleep + 24 * 60 else sleep.

(** [generateComprehensiveSchedule] ([learningHistory] and
    [availableHours] are not read by the source); [project_id], [date] and
    [created] are filled in by [generateDailySchedule]. *)

Definition generateComprehensiveSchedule (projectConfig : config) (h : hta)
    (energyLevel : Z) (focusType : string) : M schedule :=
  let learningNodes :=
    filter (fun n => status_eqb (node_status n) Ready) (frontier_nodes h) in
  let habitNodes :=
    match habit_nodes h with
    | Some l => filter (fun n => status_eqb (h_status n) Ready) l
    | None => []
    end in
  let currentTime := wake_minutes projectConfig in
  let endTime := resolveWindow currentTime (sleep_minutes projectConfig) in
  let focusDuration :=
    parseTimeAvailable (Some (or_str (focus_duration projectConfig) "25 minutes")) in
  fixedBlocks <- scheduleFixedLifeStructure projectConfig currentTime endTime ;;
  let timeSlots := createTimeSlots currentTime endTime fixedBlocks in
  let highEnergyPeriods := identifyHighEnergyPeriods projectConfig in
  let (learningSchedule, timeSlots1) :=
    scheduleLearningBlocks learningNodes timeSlots highEnergyPeriods focusDuration in
  let (habitSchedule, timeSlots2) :=
    scheduleHabitBlocks habitNodes timeSlots1 projectConfig in
  structureSchedule <- scheduleLifeStructure timeSlots2 projectConfig ;;
  let allBlocks :=
    fixedBlocks ++ learningSchedule ++ habitSchedule ++ structureSchedule in
  let sorted := sort by_time allBlocks in
  ret (mkSchedule "" "" (hta_north_star h) sorted
                  (Z.of_nat (List.length sorted)) 0 energyLevel focusType "").

End WithEnv.
End Schedule.


(* ================================================================== *)
(** * OpportunityDetector *)
(* ================================================================== *)

Module Opportunity.
Import Js Time Model.
Local Open Scope list_scope.

(** An entry of [externalFeedback]: the object of the tool schema, or a
    plain text. *)
Inductive feedback : Type :=
  | FeedbackObject (source content sentiment : option string)
  | FeedbackText (text : string).

(** The completion context [completeBlock] hands over. *)
Record context : Type := mkContext {
  engagementLevel : Z;
  unexpectedResults : list string;
  newSkillsRevealed : list string;
  externalFeedback : list feedback;
  shorterPathDiscovered : bool;
  difficultyRating : Z
}.

(** What the detector and the invalidation read of [completedTask ||
    completedBlock]: a completed node has every field, a schedule block
    has neither [title], [estimated_time] nor [branch_type]. *)
Record task_view : Type := mkView {
  v_id : string;
  v_title : option string;
  v_estimated_time : option string;
  v_magnitude : option num;
  v_branch_type : option string
}.

Definition view_of_node (n : node) : task_view :=
  mkView (id n) (Some (title n)) (Some (estimated_time n))
         (Some (magnitude n)) (Some (branch_type n)).

Definition view_of_block (b : block) : task_view :=
  mkView (b_id b) None None (b_magnitude b) None.

(** A possibly missing number inside arithmetic. *)
Definition to_num (x : option num) : num :=
  match x with Some n => n | None => NaN end.

Definition amplification (i : string) (t : task_view) : node :=
  mkNode i
    ("Amplify Success: " ++ show_opt (v_title t))%string
    ("Your high engagement with " ++ dq ++ show_opt (v_title t) ++ dq
       ++ " suggests deeper potential. Let's explore this further.")%string
    "breakthrough_amplification"
    (or_str (v_estimated_time t) "25 minutes")
    High Ready
    (max (Int 3) (sub (to_num (v_magnitude t)) (Int 1)))
    [v_id t]
    ["Explore natural talent"; "Build on momentum"; "Discover hidden capabilities"]
    false false None (Some "high_engagement_detection").

Definition serendipity (t : task_view) (i : string) (result : string) : node :=
  mkNode i
    ("Explore Unexpected: " ++ result)%string
    ("The unexpected result " ++ dq ++ result ++ dq ++ " from " ++ dq
       ++ show_opt (v_title t) ++ dq
       ++ " may open new pathways we hadn't considered.")%string
    "serendipity_pathway" "15 minutes" Medium Ready (Int 4) [v_id t]
    ["Investigate serendipity"; "Explore new directions";
     "Follow emerging opportunities"]
    false false None (Some "unexpected_result_detection").

Definition hidden_talent (t : task_view) (i : string) (skill : string) : node :=
  mkNode i
    ("Develop Hidden Talent: " ++ skill)%string
    ("Completing " ++ dq ++ show_opt (v_title t) ++ dq
       ++ " revealed you have natural ability in " ++ skill
       ++ ". Let's build on this.")%string
    "hidden_talent_development" "30 minutes" High Ready (Int 5) [v_id t]
    [("Develop " ++ skill)%string; "Build confidence"; "Explore natural abilities"]
    false false None (Some "skill_revelation_detection").

Definition feedback_source (f : feedback) : string :=
  match f with
  | FeedbackObject source _ _ => or_str source "Unknown"
  | FeedbackText _ => "Unknown"
  end.

(** [feedback.content || feedback] inside the template. *)
Definition feedback_content (f : feedback) : string :=
  match f with
  | FeedbackObject _ content _ => or_str content "[object Object]"
  | FeedbackText s => s
  end.

Definition external_opportunity (t : task_view) (i : string) (f : feedback)
  : node :=
  mkNode i
    ("Leverage External Interest: " ++ feedback_source f)%string
    ("External feedback on " ++ dq ++ show_opt (v_title t) ++ dq ++ ": " ++ dq
       ++ feedback_content f ++ dq ++ ". This could be an opportunity.")%string
    "external_opportunity" "20 minutes" Critical Ready (Int 6) [v_id t]
    ["Capitalize on interest"; "Build external connections"; "Amplify reach"]
    false false None (Some "external_feedback_detection").

Definition opt_eqb (x : option string) (s : string) : bool :=
  match x with Some y => String.eqb y s | None => false end.

(** The condition of the feedback loop,
    [feedback.sentiment === 'positive' || feedback.includes('viral') ||
     feedback.includes('interested')]: an object has no [includes]. *)
Definition feedback_interest (f : feedback) : outcome bool :=
  match f with
  | FeedbackObject _ _ sentiment =>
      if opt_eqb sentiment "positive" then Ok true
      else Throw "feedback.includes is not a function"
  | FeedbackText s => Ok (includes s "viral" || includes s "interested")
  end.

Section WithEnv.
Variable E : env.

(** A [forEach] that pushes one node with a fresh identifier per entry. *)
Fixpoint push_each {A : Type} (mk : string -> A -> node) (l : list A)
    (opportunities : list node) : M (list node) :=
  match l with
  | [] => ret opportunities
  | a :: rest =>
      i <- generateId E ;;
      push_each mk rest (opportunities ++ [mk i a])
  end.

Fixpoint feedback_loop (t : task_view) (l : list feedback)
    (opportunities : list node) : M (list node) :=
  match l with
  | [] => ret opportunities
  | f :: rest =>
      interest <- lift (feedback_interest f) ;;
      if interest : bool then
        i <- generateId E ;;
        feedback_loop t rest (opportunities ++ [external_opportunity t i f])
      else feedback_loop t rest opportunities
  end.

Definition detectEmergentOpportunities (completedTask : task_view)
    (ctx : context) : M (list node) :=
  o1 <- (if engagementLevel ctx >=? 8
         then i <- generateId E ;; ret [amplification i completedTask]
         else ret []) ;;
  o2 <- push_each (serendipity completedTask) (unexpectedResults ctx) o1 ;;
  o3 <- push_each (hidden_talent completedTask) (newSkillsRevealed ctx) o2 ;;
  feedback_loop completedTask (externalFeedback ctx) o3.

End WithEnv.

Definition opt_neq (x : option string) (s : string) : bool :=
  match x with Some y => negb (String.eqb y s) | None => true end.

Definition nonempty (s : string) : bool :=
  match s with EmptyString => false | _ => true end.

(** [invalidateUnnecessaryTasks]: the nodes that are kept. *)
Definition invalidateUnnecessaryTasks (frontierNodes : list node)
    (completedTask : task_view) (ctx : context) : list node :=
  filter (fun n =>
    let skillBasedInvalidation :=
      existsb (fun skill =>
        includes (toLowerCase (title n)) (toLowerCase skill)
        && String.eqb (branch_type n) "fundamentals"
        && opt_neq (v_branch_type completedTask) "fundamentals")
        (newSkillsRevealed ctx) in
    let resultBasedInvalidation :=
      existsb (fun result =>
        nonempty (description n)
        && includes (toLowerCase (description n)) (toLowerCase result)
        && leb (magnitude n) (to_num (v_magnitude completedTask)))
        (unexpectedResults ctx) in
    let pathBasedInvalidation :=
      shorterPathDiscovered ctx
      && String.eqb (branch_type n) "preparation"
      && existsb (String.eqb (v_id completedTask)) (prerequisites n) in
    negb (skillBasedInvalidation || resultBasedInvalidation
          || pathBasedInvalidation))
    frontierNodes.

End Opportunity.

(* ================================================================== *)
(** * SequenceEngine *)
(* ================================================================== *)

Module Sequence.
Import Js Time Model Opportunity.
Local Open Scope list_scope.

(** [isTaskRelevantToPath] *)
Definition isTaskRelevantToPath (task : node) (pathName : string) : bool :=
  let pathLower := toLowerCase pathName in
  match path_focus task with
  | Some f => String.eqb f pathName
  | None => false
  end
  || includes (toLowerCase (title task)) pathLower
  || includes (toLowerCase (description task)) pathLower
  || String.eqb (branch_type task) pathLower
  || existsb (fun o => includes (toLowerCase o) pathLower) (learning_outcomes task)
  || (interest_based task && includes (toLowerCase (title task)) pathLower).

(** One prerequisite entry in the filter of [getNextTask]: exact id, then
    exact title, then exact topic of the learning history. *)
Definition prereq_met (completedTaskIds completedTaskTitles : list string)
    (learningHistory : history) (prereq : string) : bool :=
  if existsb (String.eqb prereq) completedTaskIds then true
  else if existsb (String.eqb prereq) completedTaskTitles then true
  else existsb (fun t => String.eqb (topic t) prereq)
               (completed_topics learningHistory).

Definition truthy (x : option string) : option string :=
  match x with Some (String c s) => Some (String c s) | _ => None end.

(** The filter that computes [readyNodes]. *)
Definition is_ready (projectConfig : config) (h : hta)
    (learningHistory : history) (n : node) : bool :=
  let completedTaskIds := map (fun c => id (c_node c)) (completed_nodes h) in
  let completedTaskTitles := map (fun c => title (c_node c)) (completed_nodes h) in
  if negb (status_eqb (node_status n) Ready) then false
  else if negb (forallb (prereq_met completedTaskIds completedTaskTitles
                                    learningHistory) (prerequisites n))
  then false
  else
    match truthy (active_learning_path projectConfig) with
    | Some activePath => isTaskRelevantToPath n activePath
    | None => true
    end.

Definition branch_score (n : node) : Z :=
  if String.eqb (branch_type n) "interest_driven" || interest_based n then 300
  else if String.eqb (branch_type n) "exploration"
          || String.eqb (branch_type n) "sampling" then 250
  else if String.eqb (branch_type n) "fundamentals" then 200
  else if String.eqb (branch_type n) "tools" then 150
  else if String.eqb (branch_type n) "practical" then 100
  else if String.eqb (branch_type n) "research" then 25
  else 0.

Definition priority_score (n : node) : Z :=
  match node_priority n with
  | Critical => 50
  | High => 35
  | Medium => 20
  | Low => 0
  end.

Definition score (contextFromMemory : string) (n : node) : Z :=
  (if path_priority n then 500 else 0)
  + branch_score n
  + priority_score n
  + (match prerequisites n with [] => -25 | _ => 0 end)
  + (if nonempty contextFromMemory
        && includes (toLowerCase (description n)) (toLowerCase contextFromMemory)
     then 15 else 0)
  + (if parseTimeAvailable (Some (estimated_time n)) <=? 30 then 5 else 0).

(** [selectOptimalTask]: the head of the nodes sorted by descending score;
    [None] is [undefined]. *)
Definition selectOptimalTask (nodes : list node) (contextFromMemory : string)
  : option node :=
  let scoredNodes := map (fun n => (n, score contextFromMemory n)) nodes in
  match sort (fun a b => Int (snd b - snd a)) scoredNodes with
  | (n, _) :: _ => Some n
  | [] => None
  end.

Definition last_n {A : Type} (k : nat) (l : list A) : list A :=
  skipn (List.length l - k) l.

(** What [getNextTask] answers. *)
Inductive next_task : Type :=
  | NextTask (task : node)
  | SequenceStuck.

Section WithEnv.
Variable E : env.

Definition micro_review (i : string) (c : config) (focusDuration : Z) : node :=
  mkNode i ("Quick Review: " ++ goal c)%string
    ("Spend " ++ show_Z focusDuration ++ " minutes reviewing recent progress")%string
    "micro-review" (show_Z focusDuration ++ " minutes")%string
    Medium Ready (Int 3) []
    ["Refresh memory"; "Maintain momentum"; "Low cognitive load"]
    false false None None.

Definition micro_concept (i : string) (focusDuration : Z) : node :=
  mkNode i "Micro-Learning: One Concept"
    ("Focus on understanding just one small concept for "
       ++ show_Z focusDuration ++ " minutes")%string
    "micro-concept" (show_Z focusDuration ++ " minutes")%string
    High Ready (Int 4) []
    ["Learn one new thing"; "Build understanding slowly"; "Prevent overwhelm"]
    false false None None.

Definition intermediate_practice (i : string) (c : config)
    (completedTopics : list string) : node :=
  mkNode i ("Intermediate Practice: " ++ goal c)%string
    "Apply what you've learned so far in a practical exercise"
    "practical" "45 minutes" High Ready (Int 6) (last_n 2 completedTopics)
    ["Apply knowledge practically"; "Identify skill gaps"; "Build confidence"]
    false false None None.

Definition reflection (i : string) : node :=
  mkNode i "Learning Reflection & Planning"
    "Reflect on progress and identify next learning priorities"
    "reflection" "20 minutes" Medium Ready (Int 4) []
    ["Assess current understanding"; "Identify knowledge gaps"; "Plan next steps"]
    false false None None.

Definition explore_gap (i : string) (g : gap_record) : node :=
  mkNode i ("Explore: " ++ take 50 (question g) ++ "...")%string
    ("Research and answer: " ++ question g)%string
    "research" "35 minutes" High Ready (Int 6) [from_topic g]
    [("Answer: " ++ question g)%string; "Fill knowledge gap"; "Advance understanding"]
    false false None None.

(** [if (cond) newTasks.push({ id: this.generateId(), ... })] *)
Definition push_if (cond : bool) (mk : string -> node) (newTasks : list node)
  : M (list node) :=
  if cond then i <- generateId E ;; ret (newTasks ++ [mk i]) else ret newTasks.

Definition with_frontier (h : hta) (frontier : list node)
    (evolved : option string) : hta :=
  mkHta (hta_north_star h) frontier (completed_nodes h) (habit_nodes h) evolved.

(** [generateAdaptiveTasks] *)
Definition generateAdaptiveTasks (learningHistory : history)
    (contextFromMemory : string) : M unit :=
  projectConfig <- load config_json ;;
  h <- load hta_json ;;
  match h with
  | None => ret tt
  | Some h =>
      match projectConfig with
      | None => throw "Cannot read properties of null (reading 'knowledge_level')"
      | Some c =>
          let completedTopics := map topic (completed_topics learningHistory) in
          let focusDuration :=
            parseTimeAvailable (Some (or_str (focus_duration c) "25 minutes")) in
          let count := Z.of_nat (List.length completedTopics) in
          t1 <- push_if (focusDuration <=? 10)
                  (fun i => micro_review i c focusDuration) [] ;;
          t2 <- push_if (focusDuration <=? 10)
                  (fun i => micro_concept i focusDuration) t1 ;;
          t3 <- push_if ((count >=? 3) && (knowledge_level c >=? 20))
                  (fun i => intermediate_practice i c completedTopics) t2 ;;
          t4 <- push_if ((count >=? 2) && (Z.rem count 3 =? 0)) reflection t3 ;;
          t5 <- match List.last (map Some (knowledge_gaps learningHistory)) None with
                | Some recentGap =>
                    push_if (nonempty contextFromMemory)
                            (fun i => explore_gap i recentGap) t4
                | None => ret t4
                end ;;
          match t5 with
          | [] => ret tt
          | _ =>
              save E HtaJson
                (put_hta (with_frontier h (frontier_nodes h ++ t5)
                                        (Some (now_iso E)))) ;;;
              ret tt
          end
      end
  end.

Definition build_on (i : string) (lastTopic : topic_record) : node :=
  mkNode i ("Build On: " ++ topic lastTopic)%string
    ("Apply and extend what you learned from: " ++ topic lastTopic)%string
    "practical" "As long as needed" High Ready (Int 6) []
    [("Apply " ++ topic lastTopic ++ " knowledge")%string;
     "Deepen understanding"; "Build confidence"]
    false false None (Some "recent_completion").

Definition progress_toward (i : string) (interest : string) : node :=
  mkNode i ("Progress Toward: " ++ interest)%string
    ("Continue working toward your goal: " ++ interest)%string
    "interest_driven" "As long as needed" Critical Ready (Int 6) []
    [("Make progress on " ++ interest)%string; "Maintain motivation";
     "Build practical skills"]
    true false None (Some "interest_continuation").

(** [generateSmartNextTasks] *)
Definition generateSmartNextTasks (projectConfig : config)
    (learningHistory : history) : M (list node) :=
  t1 <- match List.last (map Some (completed_topics learningHistory)) None with
        | Some lastTopic => i <- generateId E ;; ret [build_on i lastTopic]
        | None => ret []
        end ;;
  t2 <- push_each E progress_toward (specific_interests projectConfig) t1 ;;
  ret (firstn 3 t2).

Definition energyRequired (n : node) : Z :=
  if gtb (magnitude n) (Int 7) then 4
  else if gtb (magnitude n) (Int 5) then 3 else 2.

(** The block [getNextTask] adds to today's schedule. *)
Definition tracking_block (nextTask : node) : block :=
  mkBlock (id nextTask) Learning
          (formatTime (Int (clock_minutes E)))
          (match estimated_time nextTask with
           | EmptyString => "30 min"
           | t => t
           end)
          (title nextTask) (description nextTask)
          (Some (branch_type nextTask)) None [] None.

Definition fresh_schedule (projectId : string) (h : hta) (energyLevel : Z)
  : schedule :=
  mkSchedule projectId (today E) (hta_north_star h) [] 0 0 energyLevel
             "mixed" (now_iso E).

Definition with_blocks (s : schedule) (blocks : list block) : schedule :=
  mkSchedule (s_project_id s) (s_date s) (north_star s) blocks
             (Z.of_nat (List.length blocks)) (completed_count s)
             (energy_level s) (focus_type s) (s_created s).

(** The end of [getNextTask]: "Ensure the nextTask exists in today's
    schedule for seamless completion tracking". *)
Definition ensure_in_schedule (projectId : string) (h : hta)
    (energyLevel : Z) (nextTask : node) : M unit :=
  loaded <- load (fun s => day_json s (today E)) ;;
  let sched :=
    match loaded with
    | Some s => s
    | None => fresh_schedule projectId h energyLevel
    end in
  let existsInSchedule :=
    existsb (fun b => String.eqb (b_id b) (id nextTask)) (time_blocks sched) in
  if existsInSchedule then ret tt
  else
    save E (DayJson (today E))
      (put_day (today E)
         (with_blocks sched (time_blocks sched ++ [tracking_block nextTask]))) ;;;
    ret tt.

(** The candidates of [getNextTask]: [readyNodes], refilled by the two
    generators when it is empty; [None] is the "sequence stuck" answer. *)
Definition ready_or_generated (projectConfig : config) (h : hta)
    (learningHistory : history) (contextFromMemory : string)
  : M (option (list node)) :=
  let readyNodes := filter (is_ready projectConfig h learningHistory)
                           (frontier_nodes h) in
  match readyNodes with
  | _ :: _ => ret (Some readyNodes)
  | [] =>
      generateAdaptiveTasks learningHistory contextFromMemory ;;;
      updated <- load hta_json ;;
      match updated with
      | None => throw "Cannot read properties of null (reading 'frontier_nodes')"
      | Some updatedHTA =>
          let newReadyNodes :=
            filter (fun n => status_eqb (node_status n) Ready)
                   (frontier_nodes updatedHTA) in
          match newReadyNodes with
          | _ :: _ => ret (Some newReadyNodes)
          | [] =>
              continuationTasks <-
                generateSmartNextTasks projectConfig learningHistory ;;
              match continuationTasks with
              | [] => ret None
              | _ =>
                  save E HtaJson
                    (put_hta (with_frontier updatedHTA
                                (frontier_nodes updatedHTA ++ continuationTasks)
                                (last_evolution updatedHTA))) ;;;
                  ret (Some continuationTasks)
              end
          end
      end
  end.

(** [getNextTask] *)
Definition getNextTask (contextFromMemory : string) (energyLevel : Z)
    (timeAvailable : string) : M next_task :=
  projectId <- requireActiveProject ;;
  loadedConfig <- load config_json ;;
  match loadedConfig with
  | None => throw "Cannot read properties of null (reading 'active_learning_path')"
  | Some projectConfig =>
      let activePath := or_str (active_learning_path projectConfig) "general" in
      h <- load (fun s => orelse (path_hta_json s activePath) (hta_json s)) ;;
      learningHistory <-
        load (fun s =>
                match orelse (path_history_json s activePath) (history_json s) with
                | Some l => l
                | None => empty_history
                end) ;;
      match h with
      | None => throw "No HTA tree found for this project/path. Use build_hta_tree first."
      | Some h =>
          candidates <- ready_or_generated projectConfig h learningHistory
                                           contextFromMemory ;;
          match candidates with
          | None => ret SequenceStuck
          | Some readyNodes =>
              let timeInMinutes := parseTimeAvailable (Some timeAvailable) in
              let suitableNodes :=
                filter (fun n =>
                  (parseTimeAvailable (Some (estimated_time n)) <=? timeInMinutes)
                  && (energyRequired n <=? energyLevel)) readyNodes in
              let suitableNodes :=
                match suitableNodes with
                | [] => firstn 1 (sort (fun a b => sub (magnitude a) (magnitude b))
                                       readyNodes)
                | _ => suitableNodes
                end in
              match selectOptimalTask suitableNodes contextFromMemory with
              | None => throw "Cannot read properties of undefined (reading 'title')"
              | Some nextTask =>
                  ensure_in_schedule projectId h energyLevel nextTask ;;;
                  ret (NextTask nextTask)
              end
          end
      end
  end.

(** [getActiveHTA] *)
Definition getActiveHTA : M (option hta) :=
  projectConfig <- load config_json ;;
  match projectConfig with
  | None => ret None
  | Some c =>
      let activePath := or_str (active_learning_path c) "general" in
      load (fun s => orelse (path_hta_json s activePath) (hta_json s))
  end.

(** [findIndex] and [splice(index, 1)]: the first match and the rest. *)
Fixpoint take_first (p : node -> bool) (l : list node)
  : option (node * list node) :=
  match l with
  | [] => None
  | n :: t =>
      if p n then Some (n, t)
      else match take_first p t with
           | Some (m, t') => Some (m, n :: t')
           | None => None
           end
  end.

Definition continuation (i : string) (completedBlock : block) : node :=
  mkNode i
    ("Continue: Build on " ++ b_action completedBlock)%string
    ("Apply and extend what you learned from: " ++ b_action completedBlock)%string
    (or_str (strategic_purpose completedBlock) "practical")
    "As long as needed" High Ready
    (max (Int 4) (sub (or_num (b_magnitude completedBlock) (Int 6)) (Int 1)))
    [b_id completedBlock]
    [("Apply " ++ b_action completedBlock ++ " knowledge")%string;
     "Deepen understanding"; "Build practical skills"]
    false false None (Some "task_completion").

Definition research (i : string) (completedBlock : block)
    (nextQuestions : string) : node :=
  mkNode i
    ("Research: " ++ take 50 nextQuestions ++ "...")%string
    ("Investigate: " ++ nextQuestions)%string
    "research" "As long as needed" Medium Ready (Int 5)
    [b_id completedBlock]
    [("Answer: " ++ nextQuestions)%string; "Fill knowledge gaps";
     "Prepare for advanced topics"]
    false false None (Some "curiosity").

(** "Adjust difficulty of remaining nodes based on feedback" *)
Definition rebalance (rating : Z) (frontier : list node) : list node :=
  if rating =? 5 then
    map (fun n => with_magnitude n (max (Int 3) (sub (magnitude n) (Int 1))))
        frontier
  else if rating =? 1 then
    map (fun n => with_magnitude n (min (Int 10) (add (magnitude n) (Int 1))))
        frontier
  else frontier.

(** The frontier and the completed list after the completed node moved. *)
Definition move_completed (h : hta) (completedBlock : block) (rating : Z)
  : list node * list completed_node :=
  match take_first (fun n => String.eqb (id n) (b_id completedBlock))
                   (frontier_nodes h) with
  | Some (completedNode, rest) =>
      (rest, completed_nodes h ++ [mkCompleted completedNode (now_iso E) rating])
  | None => (frontier_nodes h, completed_nodes h)
  end.

(** [completedTask || completedBlock] *)
Definition completed_view (completed : list completed_node)
    (completedBlock : block) : task_view :=
  match List.last (map Some completed) None with
  | Some c => view_of_node (c_node c)
  | None => view_of_block completedBlock
  end.

(** The body of [evolveHTABasedOnLearning] between loading the tree and
    saving it: the tree that is handed to the save. *)
Definition evolved_hta (h : hta) (completedBlock : block)
    (nextQuestions : string) (ctx : context) : M hta :=
  let (frontier, completed) :=
    move_completed h completedBlock (difficultyRating ctx) in
  i <- generateId E ;;
  newTasks <- push_if (nonempty nextQuestions)
                (fun j => research j completedBlock nextQuestions)
                [continuation i completedBlock] ;;
  let completedTask := completed_view completed completedBlock in
  emergentOpportunities <- detectEmergentOpportunities E completedTask ctx ;;
  let newTasks := newTasks ++ emergentOpportunities in
  let frontier := invalidateUnnecessaryTasks frontier completedTask ctx in
  let frontier := frontier ++ newTasks in
  let frontier := rebalance (difficultyRating ctx) frontier in
  ret (mkHta (hta_north_star h) frontier completed (habit_nodes h)
             (Some (now_iso E))).

(** [evolveHTABasedOnLearning] *)
Definition evolveHTABasedOnLearning (completedBlock : block)
    (learned nextQuestions : string) (ctx : context) : M unit :=
  loaded <- getActiveHTA ;;
  match loaded with
  | None => ret tt
  | Some h =>
      evolved <- evolved_hta h completedBlock nextQuestions ctx ;;
      projectConfig <- load config_json ;;
      let activePath :=
        or_str (match projectConfig with
                | Some c => active_learning_path c
                | None => None
                end) "general" in
      saved <- save E (PathHtaJson activePath) (put_path_hta activePath evolved) ;;
      if saved : bool then ret tt
      else save E HtaJson (put_hta evolved) ;;; ret tt
  end.

End WithEnv.
End Sequence.

(* ================================================================== *)
(** * The operations behind the tools *)
(* ================================================================== *)

Module Server.
Import Js Time Model Opportunity Sequence.
Local Open Scope list_scope.

Section WithEnv.
Variable E : env.

Fixpoint find_index {A : Type} (p : A -> bool) (l : list A) (i : nat)
  : option nat :=
  match l with
  | [] => None
  | x :: t => if p x then Some i else find_index p t (S i)
  end.

Fixpoint update_at {A : Type} (i : nat) (f : A -> A) (l : list A) : list A :=
  match l, i with
  | [], _ => []
  | x :: t, O => f x :: t
  | x :: t, S k => x :: update_at k f t
  end.

(** The block [completeBlock] looks for: by id, else by action, letter
    case ignored. *)
Definition find_block (blocks : list block) (blockId : string) : option nat :=
  match find_index (fun b => String.eqb (b_id b) blockId) blocks 0%nat with
  | Some i => Some i
  | None =>
      find_index (fun b => String.eqb (toLowerCase (b_action b))
                                      (toLowerCase blockId)) blocks 0%nat
  end.

Definition with_completed_block (s : schedule) (i : nat) (c : completion)
  : schedule :=
  mkSchedule (s_project_id s) (s_date s) (north_star s)
             (update_at i (fun b => with_completion b c) (time_blocks s))
             (total_blocks s) (completed_count s + 1)
             (energy_level s) (focus_type s) (s_created s).

Definition with_knowledge (c : config) (level : Z) (breaks : Z) : config :=
  mkConfig (goal c) (wake_minutes c) (sleep_minutes c) (meal_times c)
           (focus_duration c) (transition_time c) (active_learning_path c)
           level breaks (specific_interests c) (learning_paths c)
           (path_focus_duration c) (path_focused_at c).

(** [completeBlock]; the reply text is not modelled. *)
Definition completeBlock (blockId outcome learned nextQuestions : string)
    (energyLevel rating : Z) (breakthrough : bool)
    (engagement : Z) (unexpected revealed : list string)
    (external : list feedback) : M unit :=
  requireActiveProject ;;;
  loaded <- load (fun s => day_json s (today E)) ;;
  match loaded with
  | None => throw "No schedule found for today in this project"
  | Some sched =>
      match find_block (time_blocks sched) blockId with
      | None => throw ("Block " ++ blockId ++ " not found")%string
      | Some i =>
          let done :=
            mkCompletion (now_iso E) outcome learned nextQuestions energyLevel
                         rating breakthrough in
          let sched := with_completed_block sched i done in
          let block := nth i (time_blocks sched)
                           (mkBlock "" Learning "" "" "" "" None None [] None) in
          saved <- save E (DayJson (today E)) (put_day (today E) sched) ;;
          if negb saved then throw "Failed to save schedule update"
          else
            (* Update learning history *)
            stored <- load history_json ;;
            let learningHistory :=
              match stored with Some l => l | None => empty_history end in
            let topics :=
              completed_topics learningHistory
              ++ [mkTopic (b_action block) (today E) learned rating breakthrough] in
            let gaps :=
              if nonempty nextQuestions
              then knowledge_gaps learningHistory
                   ++ [mkGap nextQuestions (today E) (b_action block)]
              else knowledge_gaps learningHistory in
            save E HistoryJson (put_history (mkHistory topics gaps)) ;;;
            (* Update project knowledge level *)
            projectConfig <- load config_json ;;
            match projectConfig with
            | None => throw "Cannot read properties of null (reading 'knowledge_level')"
            | Some c =>
                save E ConfigJson
                  (put_config
                     (with_knowledge c (Z.min 100 (knowledge_level c + 1))
                        (if breakthrough then breakthroughs c + 1
                         else breakthroughs c))) ;;;
                (* Evolve HTA tree based on learnings *)
                evolveHTABasedOnLearning E block learned nextQuestions
                  (mkContext engagement unexpected revealed external false rating)
            end
      end
  end.

Definition with_focus (c : config) (paths : list learning_path)
    (pathName duration : string) : config :=
  mkConfig (goal c) (wake_minutes c) (sleep_minutes c) (meal_times c)
           (focus_duration c) (transition_time c) (Some pathName)
           (knowledge_level c) (breakthroughs c) (specific_interests c)
           paths (Some duration) (Some (now_iso E)).

(** [focusLearningPath]; the reply text is not modelled. *)
Definition focusLearningPath (pathName duration : string) : M unit :=
  requireActiveProject ;;;
  projectConfig <- load config_json ;;
  match projectConfig with
  | None => throw "Project configuration not found"
  | Some c =>
      let existingPaths := learning_paths c in
      let pathExists :=
        existsb (fun p => String.eqb (toLowerCase (path_name p))
                                     (toLowerCase pathName)) existingPaths in
      let paths :=
        if negb pathExists && negb (Nat.eqb (List.length existingPaths) 0)
        then existingPaths ++ [mkPath pathName true]
        else existingPaths in
      saved <- save E ConfigJson (put_config (with_focus c paths pathName duration)) ;;
      if negb saved then throw "Failed to save path focus"
      else
        h <- load hta_json ;;
        match h with
        | None => ret tt
        | Some h =>
            let marked :=
              map (fun n =>
                     if isTaskRelevantToPath n pathName
                     then with_path n true (Some pathName)
                     else with_path n false (path_focus n))
                  (frontier_nodes h) in
            save E HtaJson (put_hta (with_frontier h marked (last_evolution h))) ;;;
            ret tt
        end
  end.

(** [generateDailySchedule]: the schedule that was saved. *)
Definition generateDailySchedule (date : option string) (energyLevel : Z)
    (focusType : string) : M schedule :=
  projectId <- requireActiveProject ;;
  let targetDate := or_str date (today E) in
  projectConfig <- load config_json ;;
  h <- getActiveHTA ;;
  match projectConfig, h with
  | None, _ => throw "Project configuration not found"
  | Some _, None =>
      throw "No HTA tree found for this project/path. Use build_hta_tree first."
  | Some c, Some h =>
      s <- Schedule.generateComprehensiveSchedule E c h energyLevel focusType ;;
      let s := mkSchedule projectId targetDate (north_star s) (time_blocks s)
                          (total_blocks s) (completed_count s) (energy_level s)
                          (focus_type s) (now_iso E) in
      saved <- save E (DayJson targetDate) (put_day targetDate s) ;;
      if negb saved then throw "Failed to save daily schedule"
      else ret s
  end.

End WithEnv.
End Server.

(* ================================================================== *)
(** * Sequence repair and inspection *)
(* ================================================================== *)

Module Repair.
Import Js Time Model Opportunity Sequence.
Local Open Scope list_scope.

(** [list.join(sep)] *)
Fixpoint join (sep : string) (l : list string) : string :=
  match l with
  | [] => ""
  | [x] => x
  | x :: t => (x ++ sep ++ join sep t)%string
  end.

(** [node.prerequisites = p] *)
Definition with_prerequisites (n : node) (p : list string) : node :=
  mkNode (id n) (title n) (description n) (branch_type n) (estimated_time n)
         (node_priority n) (node_status n) (magnitude n) p
         (learning_outcomes n) (interest_based n) (path_priority n)
         (path_focus n) (generated_from n).

(** The two complexities [getEstimatedTime] is asked for. *)
Inductive complexity : Type := Simple | Involved.

(** [getEstimatedTime] inside [generateSequencedFrontierNodes]; the tests
    on [focusStyle] are on the text as the user wrote it. *)
Definition getEstimatedTime (focusStyle : string) (c : complexity) : string :=
  let focusDurationMinutes := parseTimeAvailable (Some focusStyle) in
  let pick (simple involved : string) :=
    match c with Simple => simple | Involved => involved end in
  if focusDurationMinutes <=? 10 then
    pick (show_Z focusDurationMinutes ++ " minutes")%string
         (show_Z (Z.min (focusDurationMinutes * 2) 15) ++ " minutes")%string
  else if String.eqb focusStyle "flexible" || includes focusStyle "natural"
          || includes focusStyle "variable" then "As long as needed"
  else if includes focusStyle "25" || includes focusStyle "pomodoro" then
    pick "25 minutes" "50 minutes"
  else if includes focusStyle "hour" || includes focusStyle "60" then
    pick "30-60 minutes" "1-2 hours"
  else if includes focusStyle "deep" || includes focusStyle "long" then
    pick "1-2 hours" "2-4 hours"
  else "Until natural stopping point".

Definition quick_start (i : string) (firstInterest estimate : string) : node :=
  mkNode i ("Quick Start: " ++ firstInterest)%string
    ("Jump right into working toward: " ++ firstInterest
       ++ ". Learn by doing, fill gaps as needed.")%string
    "interest_driven" estimate Critical Ready (Int 6) []
    [("Take first steps toward " ++ firstInterest)%string;
     "Identify what specific skills you need";
     "Build motivation through progress"]
    true false None None.

Definition exploration (i : string) (goal estimate : string) : node :=
  mkNode i ("Explore: What's Possible in " ++ goal)%string
    ("Gentle overview to discover what interests you most about " ++ goal)%string
    "exploration" estimate Critical Ready (Int 5) []
    [("See examples of what's possible in " ++ goal)%string;
     "Identify what catches your interest";
     "Discover different paths you could take"]
    false false None None.

Definition sampling (i explorationId : string) (goal estimate : string) : node :=
  mkNode i ("Sample: Try Something Small in " ++ goal)%string
    "Quick, low-pressure hands-on experience to see what resonates"
    "sampling" estimate High Ready (Int 6) [explorationId]
    ["Get hands-on experience"; "Discover what you enjoy";
     "Identify your natural starting point"]
    false false None None.

Definition core_concepts (i : string) (goal estimate : string)
    (interests : list string) : node :=
  mkNode i (goal ++ ": Core Concepts")%string
    (match interests with
     | [] => ("Essential " ++ goal
                ++ " concepts - available when you're ready")%string
     | _ => ("Supporting knowledge for your interests: "
               ++ join ", " interests)%string
     end)
    "fundamentals" estimate
    (match interests with [] => High | _ => Medium end)
    Ready (Int 7) []
    [("Understand key " ++ goal ++ " concepts")%string;
     "Build foundation knowledge"; "Support your practical learning"]
    false false None None.

Section WithEnv.
Variable E : env.

(** [generateSequencedFrontierNodes] ([learningHistory] is not read). *)
Definition generateSequencedFrontierNodes (projectConfig : config)
  : M (list node) :=
  let interests := specific_interests projectConfig in
  let focusStyle := or_str (focus_duration projectConfig) "flexible" in
  let estimate := getEstimatedTime focusStyle Simple in
  nodes <-
    match interests with
    | firstInterest :: _ =>
        interestId <- generateId E ;;
        ret [quick_start interestId firstInterest estimate]
    | [] =>
        explorationId <- generateId E ;;
        samplingId <- generateId E ;;
        ret [exploration explorationId (goal projectConfig) estimate;
             sampling samplingId explorationId (goal projectConfig) estimate]
    end ;;
  fundamentalsId <- generateId E ;;
  ret (nodes ++ [core_concepts fundamentalsId (goal projectConfig) estimate
                               interests]).

(** What [repairSequence] answers (the reply text is not modelled): the
    repaired frontier, or one of its two refusals. *)
Inductive repair_result : Type :=
  | Repaired (frontier : list node)
  | MissingProjectData
  | RepairNotSaved.

(** The prerequisites of [n] that name neither a completed node nor a
    frontier node. *)
Definition invalid_prerequisites (completedTaskIds : list string)
    (frontier : list node) (n : node) : list string :=
  filter (fun prereq =>
            negb (existsb (String.eqb prereq) completedTaskIds)
            && negb (existsb (fun fn => String.eqb (id fn) prereq) frontier))
         (prerequisites n).

(** The body of the [forEach] that validates one frontier task. *)
Definition repair_node (completedTaskIds : list string) (frontier : list node)
    (n : node) : node :=
  match prerequisites n with
  | [] => n
  | _ =>
      match invalid_prerequisites completedTaskIds frontier n with
      | [] => n
      | invalidPrereqs =>
          with_prerequisites n
            (filter (fun prereq =>
                       negb (existsb (String.eqb prereq) invalidPrereqs))
                    (prerequisites n))
      end
  end.

(** [repairSequence]; the counter [sequence_repairs] is not part of the
    modelled tree. *)
Definition repairSequence (forceRebuild : bool) : M repair_result :=
  requireActiveProject ;;;
  projectConfig <- load config_json ;;
  loaded <- load hta_json ;;
  stored <- load history_json ;;
  let learningHistory :=
    match stored with Some l => l | None => empty_history end in
  match loaded, projectConfig with
  | Some h, Some c =>
      newFrontierNodes <-
        (if forceRebuild then generateSequencedFrontierNodes c
         else
           let completedTaskIds :=
             map (fun n => id (c_node n)) (completed_nodes h) in
           let validTasks :=
             map (repair_node completedTaskIds (frontier_nodes h))
                 (frontier_nodes h) in
           match validTasks with
           | [] => generateSequencedFrontierNodes c
           | _ =>
               if (List.length
                     (filter (fun n => status_eqb (node_status n) Ready)
                             validTasks) <? 2)%nat
               then
                 additionalTasks <- generateSmartNextTasks E c learningHistory ;;
                 ret (validTasks ++ additionalTasks)
               else ret validTasks
           end) ;;
      saved <- save E HtaJson
                 (put_hta (with_frontier h newFrontierNodes (Some (now_iso E)))) ;;
      if saved : bool then ret (Repaired newFrontierNodes)
      else ret RepairNotSaved
  | _, _ => ret MissingProjectData
  end.

(** The filter behind "what get_next_task would return" in
    [debugTaskSequence]. *)
Definition debug_ready (activePath : string) (h : hta)
    (learningHistory : history) (n : node) : bool :=
  let completedTaskIds := map (fun c => id (c_node c)) (completed_nodes h) in
  let completedTaskTitles := map (fun c => title (c_node c)) (completed_nodes h) in
  let prereqsMet :=
    forallb (prereq_met completedTaskIds completedTaskTitles learningHistory)
            (prerequisites n) in
  let isReady := status_eqb (node_status n) Ready in
  let isPathRelevant := isTaskRelevantToPath n activePath in
  isReady && prereqsMet && isPathRelevant.

(** [debugTaskSequence]: the tasks its report lists as the ones
    [get_next_task] would return; [None] is the answer "No HTA tree
    found".  The rest of the report is not modelled. *)
Definition debugTaskSequence : M (option (list node)) :=
  requireActiveProject ;;;
  projectConfig <- load config_json ;;
  let activePath :=
    or_str (match projectConfig with
            | Some c => active_learning_path c
            | None => None
            end) "general" in
  loaded <- load (fun s => orelse (path_hta_json s activePath) (hta_json s)) ;;
  match loaded with
  | None => ret None
  | Some h =>
      learningHistory <-
        load (fun s =>
                match orelse (path_history_json s activePath) (history_json s) with
                | Some l => l
                | None => empty_history
                end) ;;
      ret (Some (filter (debug_ready activePath h learningHistory)
                        (frontier_nodes h)))
  end.

End WithEnv.
End Repair.

Import Js Time Model.

(* ================================================================== *)
(** * What the specification speaks of *)
(* ================================================================== *)

Module Spec.
Import Js Time Model Opportunity Sequence.
Local Open Scope list_scope.

(** A prerequisite entry is satisfied by the id of a completed node, by
    the title of a completed node, or by the topic of a record of the
    learning history. *)
Definition satisfied (h : hta) (hist : history) (p : string) : Prop :=
  (exists c, In c (completed_nodes h) /\ id (c_node c) = p) \/
  (exists c, In c (completed_nodes h) /\ title (c_node c) = p) \/
  (exists t, In t (completed_topics hist) /\ topic t = p).

(** The path-focus test at the end of the filter of [getNextTask]. *)
Definition path_allows (cfg : config) (n : node) : bool :=
  match truthy (active_learning_path cfg) with
  | Some activePath => isTaskRelevantToPath n activePath
  | None => true
  end.

(** An entry of [externalFeedback] on which the feedback test of the
    detector gives an answer. *)
Definition accepted (f : feedback) : Prop :=
  exists b, feedback_interest f = Ok b.

(** The frontier nodes that remain after a completion: the completed node
    has moved out and the invalidated nodes are dropped. *)
Definition remaining_frontier (E : env) (h : hta) (completedBlock : block)
    (ctx : context) : list node :=
  let moved := move_completed E h completedBlock (difficultyRating ctx) in
  invalidateUnnecessaryTasks (fst moved)
    (completed_view (snd moved) completedBlock) ctx.

(** What the rebalancing of a completion with difficulty [rating] does
    to one node: only the magnitude may change, by one step toward the
    bound. *)
Definition rebalanced (rating : Z) (old new : node) : Prop :=
  new = with_magnitude old (magnitude new) /\
  forall m, magnitude old = Int m ->
    (rating = 5 -> magnitude new = Int (Z.max 3 (m - 1))) /\
    (rating = 1 -> magnitude new = Int (Z.min 10 (m + 1))) /\
    (2 <= rating <= 4 -> magnitude new = Int m).

(** The completion context of the emission count: engagement level 9,
    two unexpected results, one revealed skill and one feedback object of
    positive sentiment. *)
Definition rich_context (source content : option string) (shorter : bool)
    (rating : Z) : context :=
  mkContext 9 ["X"; "Y"] ["Z"]
            [FeedbackObject source content (Some "positive")] shorter rating.

Definition five_branch_types : list string :=
  ["breakthrough_amplification"; "serendipity_pathway"; "serendipity_pathway";
   "hidden_talent_development"; "external_opportunity"].

(** Ready at once, and with a provenance tag. *)
Definition traceable (n : node) : Prop :=
  node_status n = Ready /\ generated_from n <> None.

(** The number of slots that are still free. *)
Definition free (timeSlots : list Schedule.slot) : nat :=
  List.length (filter Schedule.available timeSlots).

(** A block's start and end in minutes, as a reader of the schedule
    computes them: the start from [time], the length from [duration]. *)
Definition block_start (b : block) : num := parseTime (b_time b).
Definition block_end (b : block) : num :=
  add (block_start b) (Int (parseTimeAvailable (Some (b_duration b)))).

(** Each block ends before the next one starts. *)
Fixpoint non_overlapping (blocks : list block) : bool :=
  match blocks with
  | a :: ((b :: _) as rest) =>
      leb (block_end a) (block_start b) && non_overlapping rest
  | _ => true
  end.

(** Some block holds the minute. *)
Definition covered (blocks : list block) (minute : Z) : bool :=
  existsb (fun b => leb (block_start b) (Int minute)
                    && ltb (Int minute) (block_end b)) blocks.

(** Does [parseTime] undo [formatTime] at minute [m]? *)
Definition roundtrip_at (m : Z) : bool :=
  eqb (parseTime (formatTime (Int m))) (Int m).

(** A computation that leaves every day's schedule as it is. *)
Definition keeps_days {A : Type} (m : M A) : Prop :=
  forall w r w', m w = (r, w') -> day_json (disk w') = day_json (disk w).

End Spec.

Import Spec.

(* ================================================================== *)
(** * Sample projects *)
(* ================================================================== *)

Module Samples.
Import Js Time Model Opportunity Sequence.
Local Open Scope list_scope.

(** Identifiers [id0], [id1], ...; every write succeeds. *)
Definition E0 : env :=
  mkEnv (fun n => ("id" ++ show_Z (Z.of_nat n))%string)
        "2025-06-01" "2025-06-01T09:30:00.000Z" 570 (fun _ => true).

(** Only the day's schedule can be written. *)
Definition E_day_only : env :=
  mkEnv (ids E0) (today E0) (now_iso E0) (clock_minutes E0)
        (fun f => match f with DayJson _ => true | _ => false end).

(** The project-wide tree cannot be written. *)
Definition E_hta_locked : env :=
  mkEnv (ids E0) (today E0) (now_iso E0) (clock_minutes E0)
        (fun f => match f with HtaJson => false | _ => true end).

(** Wake at 8:00 AM, sleep at midnight, default meals. *)
Definition cfg_day : config :=
  mkConfig "Play the piano" 480 0 None None None None 0 0 [] [] None None.


Definition scales : node :=
  mkNode "n1" "Practice scales" "Play the major scales" "interest_driven"
         "25 minutes" High Ready (Int 6) [] ["Know the major scales"]
         false false None None.

(** A node that waits for ["Foo"]. *)
Definition after_foo : node :=
  mkNode "n2" "Play a first piece" "Play a short piece" "practical"
         "25 minutes" High Ready (Int 5) ["Foo"] ["Play a piece"]
         false false None None.

Definition foo_done : completed_node :=
  mkCompleted
    (mkNode "Foo" "Read the notes" "Learn to read notes" "fundamentals"
            "25 minutes" High Ready (Int 4) [] ["Read notes"]
            false false None None)
    "2025-05-31T10:00:00.000Z" 3.

Definition hta_one : hta := mkHta "Play the piano" [scales] [] None None.
Definition hta_foo : hta :=
  mkHta "Play the piano" [after_foo] [foo_done] None None.
Definition hta_waiting : hta :=
  mkHta "Play the piano" [after_foo] [] None None.

Definition scales_block : block :=
  mkBlock "n1" Learning "9:30 AM" "25 minutes" "Practice scales"
          "Play the major scales" (Some "interest_driven") None [] None.

Definition day_one : schedule :=
  mkSchedule "piano" "2025-06-01" "Play the piano" [scales_block] 1 0 3
             "mixed" "2025-06-01T08:00:00.000Z".

Definition no_file {A : Type} : string -> option A := fun _ => None.

(** A project with its tree and no schedule for today. *)
Definition disk_fresh : store :=
  mkStore (Some "piano") (Some cfg_day) (Some hta_one) None
          no_file no_file no_file [].

(** The same project once today's schedule holds the block of [scales]. *)
Definition disk_day : store :=
  mkStore (Some "piano") (Some cfg_day) (Some hta_one) None
          (upd no_file "2025-06-01" day_one) no_file no_file [].

(** A project in the old layout whose only node waits for ["Foo"]. *)
Definition disk_waiting : store :=
  mkStore (Some "piano") (Some cfg_day) (Some hta_waiting) None
          no_file no_file no_file [].

Definition W_fresh : world := mkWorld disk_fresh 0.
Definition W_day : world := mkWorld disk_day 0.

(** A completion context without opportunities, of the given rating. *)
Definition plain_context (rating : Z) : context :=
  mkContext 5 [] [] [] false rating.

End Samples.

Import Samples.

(* ================================================================== *)
(** * Further notions the properties speak of *)
(* ================================================================== *)

Module Laws.
Import Js Time Model Opportunity Sequence Repair.
Local Open Scope list_scope.

(** A 24-hour time text, [H:MM]. *)
Definition clock24 (h m : Z) : string :=
  (show_Z h ++ ":" ++ padStart2 (show_Z m))%string.

(** Does [parseTime] read the 24-hour text of [h], [m]?  Hour 24 counts
    as hour 0. *)
Definition reads_clock24 (h m : Z) : bool :=
  eqb (parseTime (clock24 h m)) (Int ((h mod 24) * 60 + m)).

(** The same with a zero-padded hour, [HH:MM]. *)
Definition reads_padded24 (h m : Z) : bool :=
  eqb (parseTime (padStart2 (show_Z h) ++ ":" ++ padStart2 (show_Z m))%string)
      (Int ((h mod 24) * 60 + m)).

(** Does [parseTimeAvailable] read back the duration text the generators
    write for [n] minutes? *)
Definition reads_minutes (n : Z) : bool :=
  (parseTimeAvailable (Some (show_Z n ++ " minutes")%string) =? n)
  && (parseTimeAvailable (Some (show_Z n ++ " min")%string) =? n).

(** A time text that [parseTime] reads as a minute of the day. *)
Definition timed (t : string) : Prop :=
  exists z, parseTime t = Int z /\ 0 <= z < 1440.

(** [a] starts no later in the day than [b], by the texts of their
    times. *)
Definition starts_no_later (a b : block) : Prop :=
  exists x y, parseTime (b_time a) = Int x /\ parseTime (b_time b) = Int y
              /\ x <= y.

(** The inputs the synthesizer derives from the project. *)
Definition ready_learning (h : hta) : list node :=
  filter (fun n => status_eqb (node_status n) Ready) (frontier_nodes h).

Definition ready_habits (h : hta) : list habit :=
  match habit_nodes h with
  | Some l => filter (fun n => status_eqb (h_status n) Ready) l
  | None => []
  end.

Definition window_end (cfg : config) : Z :=
  Schedule.resolveWindow (wake_minutes cfg) (sleep_minutes cfg).

Definition focus_minutes (cfg : config) : Z :=
  parseTimeAvailable (Some (or_str (focus_duration cfg) "25 minutes")).

(** The meal times of the project, with the default of the
    synthesizer. *)
Definition meals_of (cfg : config) : list string :=
  match meal_times cfg with
  | Some l => l
  | None => ["12:00 PM"; "6:00 PM"]
  end.

(** A meal block of the window from [startTime] to [endTime]: half an
    hour, starting inside the window and not later than half an hour
    before its end. *)
Definition meal_in_window (startTime endTime : Z) (b : block) : Prop :=
  exists i m index,
    b = Schedule.meal_block i (Int m) index
    /\ startTime <= m <= endTime - 30.

(** The key of the final sort when the time text is readable. *)
Definition time_key (b : block) : Z :=
  match parseTime (b_time b) with Int z => z | NaN => 0 end.

(** A learning block made from a frontier node. *)
Definition block_of_node (n : node) (b : block) : Prop :=
  b_id b = id n /\ b_action b = title n /\ b_type b = Learning
  /\ b_magnitude b = Some (magnitude n)
  /\ strategic_purpose b = Some (branch_type n).

(** A habit block made from one of [habits]. *)
Definition block_of_habit (habits : list habit) (b : block) : Prop :=
  b_type b = Habit /\ b_duration b = "15 min"
  /\ exists h, In h habits /\ b_id b = h_id h /\ b_action b = h_title h.

Definition is_habit_block (b : block) : bool :=
  match b_type b with Habit => true | _ => false end.

(** Does the feedback test of the detector accept the entry? *)
Definition interesting (f : feedback) : bool :=
  match feedback_interest f with Ok true => true | _ => false end.

(** A completion context that reports nothing beyond the rating: low
    engagement, no unexpected result, no revealed skill, no feedback, no
    shorter path. *)
Definition plain (ctx : context) : Prop :=
  engagementLevel ctx < 8 /\ unexpectedResults ctx = []
  /\ newSkillsRevealed ctx = [] /\ externalFeedback ctx = []
  /\ shorterPathDiscovered ctx = false.

(** The test by which a completion finds its frontier node. *)
Definition same_id (b : block) (n : node) : bool :=
  String.eqb (id n) (b_id b).

(** The time budget and energy test of [getNextTask]. *)
Definition fits (timeAvailable : string) (energyLevel : Z) (n : node) : bool :=
  (parseTimeAvailable (Some (estimated_time n))
     <=? parseTimeAvailable (Some timeAvailable))
  && (energyRequired n <=? energyLevel).

(** The key of the magnitude sort when the magnitude is a number. *)
Definition magnitude_key (n : node) : Z :=
  match magnitude n with Int z => z | NaN => 0 end.

Definition numbered (n : node) : Prop := exists z, magnitude n = Int z.

Definition is_Ready (n : node) : Prop := node_status n = Ready.

(** A computation that leaves one part of the disk as it is, whether it
    returns or throws. *)
Definition preserves {A B : Type} (part : store -> B) (m : M A) : Prop :=
  forall w r w', m w = (r, w') -> part (disk w') = part (disk w).

(** The completion record [completeBlock] writes. *)
Definition completion_of (E : env) (outcome learned nextQuestions : string)
    (energyLevel rating : Z) (breakthrough : bool) : completion :=
  mkCompletion (now_iso E) outcome learned nextQuestions energyLevel rating
               breakthrough.

(** What [completeBlock] does once the schedule is saved: the history,
    the knowledge level, then the evolution of the tree. *)
Definition after_schedule_save (E : env) (block : block)
    (learned nextQuestions : string) (rating : Z) (breakthrough : bool)
    (ctx : context) : M unit :=
  stored <- load history_json ;;
  let learningHistory :=
    match stored with Some l => l | None => empty_history end in
  let topics :=
    completed_topics learningHistory
    ++ [mkTopic (b_action block) (today E) learned rating breakthrough] in
  let gaps :=
    if nonempty nextQuestions
    then knowledge_gaps learningHistory
         ++ [mkGap nextQuestions (today E) (b_action block)]
    else knowledge_gaps learningHistory in
  save E HistoryJson (put_history (mkHistory topics gaps)) ;;;
  projectConfig <- load config_json ;;
  match projectConfig with
  | None => throw "Cannot read properties of null (reading 'knowledge_level')"
  | Some c =>
      save E ConfigJson
        (put_config
           (Server.with_knowledge c (Z.min 100 (knowledge_level c + 1))
              (if breakthrough then breakthroughs c + 1
               else breakthroughs c))) ;;;
      evolveHTABasedOnLearning E block learned nextQuestions ctx
  end.

(** A prerequisite that names a completed node or a frontier node of the
    tree by its id. *)
Definition known (h : hta) (p : string) : bool :=
  existsb (String.eqb p) (map (fun n => id (c_node n)) (completed_nodes h))
  || existsb (fun fn => String.eqb (id fn) p) (frontier_nodes h).

(** The identifiers of the nodes. *)
Definition ids_of (l : list node) : list string := map id l.

(** The tree and the history [getNextTask] and [debugTaskSequence] read
    for the path [activePath]: the path's own file, else the project's. *)
Definition tree_read (s : store) (activePath : string) : option hta :=
  orelse (path_hta_json s activePath) (hta_json s).
Definition history_read (s : store) (activePath : string) : history :=
  match orelse (path_history_json s activePath) (history_json s) with
  | Some l => l
  | None => empty_history
  end.

(** A block without a completion record. *)
Definition open_block (b : block) : Prop := b_completed b = None.

(** A project whose frontier is used up: nothing left to select, no
    history and no interests to continue from. *)
Definition hta_done : hta := mkHta "Play the piano" [] [foo_done] None None.
Definition disk_done : store :=
  mkStore (Some "piano") (Some cfg_day) (Some hta_done) None
          no_file no_file no_file [].

(** The same project with a focus duration of five minutes, for which
    adaptive tasks are generated. *)
Definition cfg_short : config :=
  mkConfig "Play the piano" 480 0 None (Some "5 minutes") None None 0 0 [] []
           None None.
Definition disk_short : store :=
  mkStore (Some "piano") (Some cfg_short) (Some hta_done) None
          no_file no_file no_file [].

(** The day's schedule cannot be written; everything else can. *)
Definition E_day_locked : env :=
  mkEnv (ids E0) (today E0) (now_iso E0) (clock_minutes E0)
        (fun f => match f with DayJson _ => false | _ => true end).

(** What a computation answered, [d] when it threw. *)
Definition result_of {A : Type} (d : A) (o : outcome A) : A :=
  match o with Ok a => a | Throw _ => d end.

(** The disk after a save of [f] failed: one more line in error.log when
    the log can be written. *)
Definition logged (E : env) (f : file) (s : store) : store :=
  if can_write E ErrorLog
  then log_error (mkLogEntry (now_iso E) (saver f) f) s
  else s.

(** The disks hold the same files of the project; error.log may differ. *)
Definition same_files (s s' : store) : Prop :=
  active_project s' = active_project s /\
  config_json s' = config_json s /\
  hta_json s' = hta_json s /\
  history_json s' = history_json s /\
  day_json s' = day_json s /\
  path_hta_json s' = path_hta_json s /\
  path_history_json s' = path_history_json s.

(** The block a lookup falls back to when the index is out of range. *)
Definition no_block : block :=
  mkBlock "" Learning "" "" "" "" None None [] None.

End Laws.

Import Laws.

(* ================================================================== *)
(** * Properties *)
(* ================================================================== *)

Open Scope list_scope.

(** ** Time conversion *)

Example parseTime_samples :
  parseTime "6:00 AM" = Int 360 /\ parseTime "12:00 PM" = Int 720 /\
  parseTime "10:30 PM" = Int 1350 /\ parseTime "24:00" = Int 0 /\
  parseTime "17:45" = Int 1065.
Proof. repeat split; reflexivity. Qed.

Example formatTime_samples :
  formatTime (Int 360) = "6:00 AM" /\ formatTime (Int 720) = "12:00 PM" /\
  formatTime (Int 1350) = "10:30 PM" /\ formatTime (Int (-15)) = "11:45 PM".
Proof. repeat split; reflexivity. Qed.

Example parseTimeAvailable_samples :
  parseTimeAvailable (Some "30 minutes") = 30 /\
  parseTimeAvailable (Some "1 hour") = 60 /\
  parseTimeAvailable (Some "45 min") = 45 /\
  parseTimeAvailable (Some "2-3 hours") = 180 /\
  parseTimeAvailable (Some "As long as needed") = 120 /\
  parseTimeAvailable None = 60.
Proof. repeat split; reflexivity. Qed.

Lemma eqb_Int (x : num) (m : Z) : eqb x (Int m) = true -> x = Int m.
Proof.
  destruct x as [|z]; simpl; [discriminate|].
  intros H; apply Z.eqb_eq in H; now subst.
Qed.

(** A check that holds on the first [n] naturals holds below [n]. *)
Lemma forallb_below (p : Z -> bool) (n : nat) :
  forallb p (map Z.of_nat (seq 0 n)) = true ->
  forall m, 0 <= m < Z.of_nat n -> p m = true.
Proof.
  intros H m Hm.
  rewrite forallb_forall in H. apply H.
  apply in_map_iff. exists (Z.to_nat m). split; [lia|].
  apply in_seq. lia.
Qed.

Lemma roundtrip_day : forallb roundtrip_at (map Z.of_nat (seq 0 1440)) = true.
Proof. vm_compute. reflexivity. Qed.

(** C6. For every integer minute [m] of a day, [0 <= m < 1440], parsing
    the text [formatTime] renders for [m] gives [m] back. *)
Theorem C6_parseTime_formatTime_roundtrip (m : Z) :
  0 <= m < 1440 -> parseTime (formatTime (Int m)) = Int m.
Proof.
  intros Hm. apply eqb_Int.
  exact (forallb_below roundtrip_at 1440 roundtrip_day m Hm).
Qed.

Lemma C6_roundtrip_witness : parseTime (formatTime (Int 1439)) = Int 1439.
Proof. apply C6_parseTime_formatTime_roundtrip. lia. Defined.

(** C7. An unparsable text in the 12-hour branch is not answered with the
    sentinel: the hour field of ["abc PM"] is not a number, nothing throws,
    and [parseTime] returns [NaN]; so does ["8 PM"], which has no minute
    field.  The 24-hour branch tests for [NaN] and answers [0] on the same
    fields.  [formatTime] renders the failed value as ["NaN:NaN AM"], not
    as ["12:00 AM"]. *)
Theorem C7_twelve_hour_failure_is_NaN :
  parseTime_try "abc PM" = Ok NaN /\
  parseTime "abc PM" = NaN /\
  parseTime "8 PM" = NaN /\
  parseTime "abc" = Int 0 /\
  parseTime "8" = Int 0 /\
  formatTime (parseTime "abc PM") = "NaN:NaN AM".
Proof. repeat split; reflexivity. Qed.

(** ** Computations over the world *)

Lemma bind_ok {A B : Type} (m : M A) (k : A -> M B) w r w' :
  bind m k w = (Ok r, w') ->
  exists a w1, m w = (Ok a, w1) /\ k a w1 = (Ok r, w').
Proof.
  unfold bind. destruct (m w) as [[a|msg] w1]; intros H.
  - now exists a, w1.
  - discriminate.
Qed.

Lemma bind_step {A B : Type} (m : M A) (k : A -> M B) w a w1 :
  m w = (Ok a, w1) -> bind m k w = k a w1.
Proof. unfold bind. now intros ->. Qed.

Lemma save_written (E : env) (f : file) (put : store -> store) (w : world) :
  can_write E f = true ->
  save E f put w = (Ok true, mkWorld (put (disk w)) (drawn w)).
Proof. intros H. unfold save. now rewrite H. Qed.

Lemma save_failed (E : env) (f : file) (put : store -> store) (w : world) :
  can_write E f = false ->
  save E f put w = (Ok false, mkWorld (logged E f (disk w)) (drawn w)).
Proof.
  intros H. unfold save, bind, logError, ret, logged. rewrite H.
  destruct (can_write E ErrorLog); [reflexivity | now destruct w].
Qed.

Lemma logged_same_files (E : env) (f : file) (s : store) :
  same_files s (logged E f s).
Proof.
  unfold logged, same_files.
  destruct (can_write E ErrorLog); repeat split.
Qed.

Lemma logged_active_project (E : env) (f : file) (s : store) :
  active_project (logged E f s) = active_project s.
Proof. unfold logged. now destruct (can_write E ErrorLog). Qed.

Lemma logged_config_json (E : env) (f : file) (s : store) :
  config_json (logged E f s) = config_json s.
Proof. unfold logged. now destruct (can_write E ErrorLog). Qed.

Lemma logged_hta_json (E : env) (f : file) (s : store) :
  hta_json (logged E f s) = hta_json s.
Proof. unfold logged. now destruct (can_write E ErrorLog). Qed.

Lemma logged_history_json (E : env) (f : file) (s : store) :
  history_json (logged E f s) = history_json s.
Proof. unfold logged. now destruct (can_write E ErrorLog). Qed.

Lemma logged_day_json (E : env) (f : file) (s : store) :
  day_json (logged E f s) = day_json s.
Proof. unfold logged. now destruct (can_write E ErrorLog). Qed.

Lemma logged_path_hta_json (E : env) (f : file) (s : store) :
  path_hta_json (logged E f s) = path_hta_json s.
Proof. unfold logged. now destruct (can_write E ErrorLog). Qed.

Lemma logged_path_history_json (E : env) (f : file) (s : store) :
  path_history_json (logged E f s) = path_history_json s.
Proof. unfold logged. now destruct (can_write E ErrorLog). Qed.

(** What a save does, whether it succeeds or not. *)
Lemma save_cases (E : env) (f : file) (put : store -> store) (w : world)
    (r : outcome bool) (w' : world) :
  save E f put w = (r, w') ->
  (can_write E f = true /\ r = Ok true
   /\ w' = mkWorld (put (disk w)) (drawn w))
  \/ (can_write E f = false /\ r = Ok false
      /\ w' = mkWorld (logged E f (disk w)) (drawn w)).
Proof.
  intros H. destruct (can_write E f) eqn:Hw.
  - rewrite (save_written E f put w Hw) in H. inversion H. now left.
  - rewrite (save_failed E f put w Hw) in H. inversion H. now right.
Qed.

(** Take the computation in [H] apart, one [bind] at a time. *)
Ltac bind_inv H :=
  let a := fresh "a" in
  let w1 := fresh "w" in
  let H1 := fresh "Hstep" in
  apply bind_ok in H; destruct H as (a & w1 & H1 & H).

(** ** Prerequisites in task selection *)

Import Opportunity Sequence.

Lemma existsb_eqb_In (p : string) (l : list string) :
  existsb (String.eqb p) l = true <-> In p l.
Proof.
  rewrite existsb_exists. split.
  - intros (x & Hin & Heq). apply String.eqb_eq in Heq. now subst.
  - intros Hin. exists p. split; [assumption | apply String.eqb_refl].
Qed.

Lemma prereq_met_iff ids titles hist p :
  prereq_met ids titles hist p = true <->
  In p ids \/ In p titles \/
  exists t, In t (completed_topics hist) /\ topic t = p.
Proof.
  unfold prereq_met.
  destruct (existsb (String.eqb p) ids) eqn:Hid.
  { apply existsb_eqb_In in Hid. tauto. }
  destruct (existsb (String.eqb p) titles) eqn:Hti.
  { apply existsb_eqb_In in Hti. tauto. }
  assert (Hnid : ~ In p ids).
  { intros Hin. apply existsb_eqb_In in Hin. congruence. }
  assert (Hnti : ~ In p titles).
  { intros Hin. apply existsb_eqb_In in Hin. congruence. }
  rewrite existsb_exists. split.
  - intros (t & Hin & Heq). apply String.eqb_eq in Heq. eauto.
  - intros [H | [H | (t & Hin & Heq)]]; try contradiction.
    exists t. split; [assumption | now apply String.eqb_eq].
Qed.

Lemma status_eqb_Ready (s : status) : status_eqb s Ready = true <-> s = Ready.
Proof. destruct s; simpl; split; congruence. Qed.

(** The filter that computes [readyNodes] in [getNextTask]: a
    prerequisite entry is met exactly when it is the id of a completed
    node, or the title of a completed node, or the topic of a record of
    the learning history; a node passes the filter exactly when it is
    ready, every prerequisite is met this way and the active learning
    path, if any, accepts it; a node with a prerequisite that none of the
    three lookups finds does not pass. *)
Lemma readyNodes_filter_spec
    (cfg : config) (h : hta) (hist : history) (n : node) :
  let ids := map (fun c => id (c_node c)) (completed_nodes h) in
  let titles := map (fun c => title (c_node c)) (completed_nodes h) in
  (forall p, prereq_met ids titles hist p = true <-> satisfied h hist p) /\
  (is_ready cfg h hist n = true <->
     node_status n = Ready /\
     (forall p, In p (prerequisites n) -> satisfied h hist p) /\
     path_allows cfg n = true) /\
  (forall p, In p (prerequisites n) -> ~ satisfied h hist p ->
     is_ready cfg h hist n = false).
Proof.
  intros ids titles.
  assert (Hmet : forall p,
             prereq_met ids titles hist p = true <-> satisfied h hist p).
  { intros p. rewrite prereq_met_iff. unfold satisfied, ids, titles.
    rewrite !in_map_iff. split.
    - intros [(c & He & Hin) | [(c & He & Hin) | Ht]]; eauto.
    - intros [(c & Hin & He) | [(c & Hin & He) | Ht]]; eauto. }
  assert (Hready : is_ready cfg h hist n = true <->
     node_status n = Ready /\
     (forall p, In p (prerequisites n) -> satisfied h hist p) /\
     path_allows cfg n = true).
  { unfold is_ready, path_allows. fold ids titles.
    destruct (status_eqb (node_status n) Ready) eqn:Hs; simpl.
    - apply status_eqb_Ready in Hs.
      destruct (forallb (prereq_met ids titles hist) (prerequisites n)) eqn:Hp;
        simpl.
      + rewrite forallb_forall in Hp. split.
        * intros Hpath. repeat split; try assumption.
          intros p Hin. apply Hmet. now apply Hp.
        * tauto.
      + split; [discriminate|]. intros (_ & Hall & _).
        assert (forallb (prereq_met ids titles hist) (prerequisites n) = true).
        { apply forallb_forall. intros p Hin. apply Hmet. now apply Hall. }
        congruence.
    - split; [discriminate|]. intros (Hr & _).
      apply status_eqb_Ready in Hr. congruence. }
  split; [exact Hmet | split; [exact Hready |]].
  intros p Hin Hns.
  apply not_true_is_false. intros Hr.
  apply Hready in Hr. destruct Hr as (_ & Hall & _).
  apply Hns. now apply Hall.
Qed.

(** ** Completion: rebalancing and emitted opportunities *)

Section Evolution.
Variable E : env.

Lemma generateId_step (w : world) :
  generateId E w = (Ok (ids E (drawn w)), mkWorld (disk w) (S (drawn w))).
Proof. reflexivity. Qed.

Lemma push_if_returns (c : bool) (mk : string -> node) (l : list node) w :
  exists r w', push_if E c mk l w = (Ok r, w').
Proof.
  unfold push_if. destruct c.
  - rewrite (bind_step _ _ _ _ _ (generateId_step w)). unfold ret. eauto.
  - unfold ret. eauto.
Qed.

Lemma push_each_returns {A : Type} (mk : string -> A -> node) (l : list A) :
  forall acc w, exists r w', push_each E mk l acc w = (Ok r, w').
Proof.
  induction l as [|a l IH]; intros acc w; simpl.
  - unfold ret. eauto.
  - rewrite (bind_step _ _ _ _ _ (generateId_step w)). apply IH.
Qed.

Lemma feedback_loop_returns (t : task_view) (l : list feedback) :
  Forall accepted l ->
  forall acc w, exists r w', feedback_loop E t l acc w = (Ok r, w').
Proof.
  induction 1 as [|f l [b Hb] _ IH]; intros acc w; simpl.
  - unfold ret. eauto.
  - unfold bind at 1, lift. rewrite Hb. destruct b.
    + rewrite (bind_step _ _ _ _ _ (generateId_step w)). apply IH.
    + apply IH.
Qed.

Lemma detect_returns (t : task_view) (ctx : context) (w : world) :
  Forall accepted (externalFeedback ctx) ->
  exists r w', detectEmergentOpportunities E t ctx w = (Ok r, w').
Proof.
  intros Hacc. unfold detectEmergentOpportunities.
  assert (H1 : exists r w1,
            (if engagementLevel ctx >=? 8
             then i <- generateId E ;; ret [amplification i t]
             else ret []) w = (Ok r, w1)).
  { destruct (engagementLevel ctx >=? 8).
    - rewrite (bind_step _ _ _ _ _ (generateId_step w)). unfold ret. eauto.
    - unfold ret. eauto. }
  destruct H1 as (o1 & w1 & H1). rewrite (bind_step _ _ _ _ _ H1).
  destruct (push_each_returns (serendipity t) (unexpectedResults ctx) o1 w1)
    as (o2 & w2 & H2).
  rewrite (bind_step _ _ _ _ _ H2).
  destruct (push_each_returns (hidden_talent t) (newSkillsRevealed ctx) o2 w2)
    as (o3 & w3 & H3).
  rewrite (bind_step _ _ _ _ _ H3).
  now apply feedback_loop_returns.
Qed.

Lemma with_magnitude_same (n : node) : n = with_magnitude n (magnitude n).
Proof. now destruct n. Qed.

Lemma rebalance_Forall2 (rating : Z) (l : list node) :
  Forall2 (rebalanced rating) l (rebalance rating l).
Proof.
  unfold rebalance.
  destruct (rating =? 5) eqn:H5; [|destruct (rating =? 1) eqn:H1].
  - apply Z.eqb_eq in H5. induction l as [|n l IH]; simpl; constructor; auto.
    split; [reflexivity|]. intros m Hm. simpl. rewrite Hm. simpl.
    repeat split; intros; try reflexivity; lia.
  - apply Z.eqb_eq in H1. induction l as [|n l IH]; simpl; constructor; auto.
    split; [reflexivity|]. intros m Hm. simpl. rewrite Hm. simpl.
    repeat split; intros; try reflexivity; lia.
  - apply Z.eqb_neq in H5. apply Z.eqb_neq in H1.
    induction l as [|n l IH]; constructor; auto.
    split; [apply with_magnitude_same|]. intros m Hm.
    repeat split; intros; try assumption; lia.
Qed.

(** C3. Completing a task rebalances the frontier that remains: with
    difficulty rating 5 every remaining node of magnitude [m] gets
    [max 3 (m - 1)], with rating 1 it gets [min 10 (m + 1)], with a rating
    from 2 to 4 it keeps [m]; nothing else of the node changes.  The tasks
    the completion adds come behind the remaining nodes and are rebalanced
    with them. *)
Theorem C3_difficulty_rebalancing
    (h : hta) (completedBlock : block) (nextQuestions : string)
    (ctx : context) (w : world) :
  Forall accepted (externalFeedback ctx) ->
  exists h' w' newTasks,
    evolved_hta E h completedBlock nextQuestions ctx w = (Ok h', w') /\
    Forall2 (rebalanced (difficultyRating ctx))
      (remaining_frontier E h completedBlock ctx ++ newTasks)
      (frontier_nodes h').
Proof.
  intros Hacc. unfold evolved_hta, remaining_frontier.
  destruct (move_completed E h completedBlock (difficultyRating ctx))
    as [frontier completed]. simpl fst. simpl snd.
  rewrite (bind_step _ _ _ _ _ (generateId_step w)).
  match goal with
  | |- context [push_if E ?c ?mk ?l] =>
      destruct (push_if_returns c mk l
                  (mkWorld (disk w) (S (drawn w)))) as (t1 & w1 & H1)
  end.
  rewrite (bind_step _ _ _ _ _ H1).
  destruct (detect_returns (completed_view completed completedBlock) ctx w1 Hacc)
    as (opps & w2 & H2).
  rewrite (bind_step _ _ _ _ _ H2).
  unfold ret. eexists _, _, (t1 ++ opps). split; [reflexivity|].
  simpl. apply rebalance_Forall2.
Qed.

Lemma rebalance_app (rating : Z) (l1 l2 : list node) :
  rebalance rating (l1 ++ l2) = rebalance rating l1 ++ rebalance rating l2.
Proof.
  unfold rebalance.
  destruct (rating =? 5); [apply map_app|].
  destruct (rating =? 1); [apply map_app|reflexivity].
Qed.

Lemma rebalance_branch_types (rating : Z) (l : list node) :
  map branch_type (rebalance rating l) = map branch_type l.
Proof.
  unfold rebalance.
  destruct (rating =? 5); [now rewrite map_map|].
  destruct (rating =? 1); [now rewrite map_map|reflexivity].
Qed.

Lemma rebalance_traceable (rating : Z) (l : list node) :
  Forall traceable l -> Forall traceable (rebalance rating l).
Proof.
  unfold rebalance. intros H.
  destruct (rating =? 5); [|destruct (rating =? 1)]; try assumption;
    apply Forall_map; eapply Forall_impl; try eassumption;
    intros n Hn; exact Hn.
Qed.

(** The detector on the rich context: five nodes, in the order of the
    four rules. *)
Lemma detect_five (t : task_view) (source content : option string)
    (shorter : bool) (rating : Z) (w : world) :
  detectEmergentOpportunities E t
    (rich_context source content shorter rating) w
  = (Ok [ amplification (ids E (drawn w)) t;
          serendipity t (ids E (1 + drawn w)) "X";
          serendipity t (ids E (2 + drawn w)) "Y";
          hidden_talent t (ids E (3 + drawn w)) "Z";
          external_opportunity t (ids E (4 + drawn w))
            (FeedbackObject source content (Some "positive")) ],
     mkWorld (disk w) (5 + drawn w)).
Proof. vm_compute. reflexivity. Qed.

(** C4. For a completion with engagement level 9, unexpected results
    ["X"; "Y"], one revealed skill ["Z"] and one feedback object of positive
    sentiment, the detector returns exactly five nodes: one
    breakthrough_amplification, two serendipity_pathway, one
    hidden_talent_development and one external_opportunity, each ready and
    with a provenance tag; and the completion puts these five, rebalanced,
    at the end of the evolved frontier. *)
Theorem C4_opportunity_emission
    (source content : option string) (shorter : bool) (rating : Z) :
  let ctx := rich_context source content shorter rating in
  (forall t w, exists opportunities w',
      detectEmergentOpportunities E t ctx w = (Ok opportunities, w') /\
      map branch_type opportunities = five_branch_types /\
      Forall traceable opportunities) /\
  (forall h completedBlock nextQuestions w, exists h' w' kept emitted,
      evolved_hta E h completedBlock nextQuestions ctx w = (Ok h', w') /\
      frontier_nodes h' = kept ++ emitted /\
      map branch_type emitted = five_branch_types /\
      Forall traceable emitted).
Proof.
  intros ctx. split.
  - intros t w. unfold ctx. rewrite detect_five. eexists _, _.
    split; [reflexivity|]. split; [reflexivity|].
    repeat constructor; discriminate.
  - intros h completedBlock nextQuestions w.
    unfold evolved_hta.
    destruct (move_completed E h completedBlock (difficultyRating ctx))
      as [frontier completed].
    rewrite (bind_step _ _ _ _ _ (generateId_step w)).
    match goal with
    | |- context [push_if E ?c ?mk ?l] =>
        destruct (push_if_returns c mk l
                    (mkWorld (disk w) (S (drawn w)))) as (t1 & w1 & H1)
    end.
    rewrite (bind_step _ _ _ _ _ H1).
    unfold ctx at 1.
    rewrite (bind_step _ _ _ _ _
               (detect_five _ source content shorter rating w1)).
    unfold ret.
    set (view := completed_view completed completedBlock).
    set (five := [amplification (ids E (drawn w1)) view;
                  serendipity view (ids E (1 + drawn w1)) "X";
                  serendipity view (ids E (2 + drawn w1)) "Y";
                  hidden_talent view (ids E (3 + drawn w1)) "Z";
                  external_opportunity view (ids E (4 + drawn w1))
                    (FeedbackObject source content (Some "positive"))]).
    set (kept := invalidateUnnecessaryTasks frontier view ctx ++ t1).
    eexists _, _, (rebalance (difficultyRating ctx) kept),
                  (rebalance (difficultyRating ctx) five).
    split; [reflexivity|]. simpl frontier_nodes.
    split; [unfold kept; now rewrite <- rebalance_app, <- app_assoc|].
    split; [now rewrite rebalance_branch_types|].
    apply rebalance_traceable. repeat constructor; discriminate.
Qed.

(** C5. A feedback entry of the schema's shape whose sentiment is not
    positive makes the detector throw: for the object with sentiment
    "neutral" the test goes on to [feedback.includes], which an object
    does not have; the detector neither skips the entry nor returns. *)
Theorem C5_neutral_feedback_object_throws
    (t : task_view) (source content : option string) (engagement : Z)
    (unexpected revealed : list string) (shorter : bool) (rating : Z)
    (w : world) :
  fst (detectEmergentOpportunities E t
         (mkContext engagement unexpected revealed
            [FeedbackObject source content (Some "neutral")] shorter rating) w)
  = Throw "feedback.includes is not a function".
Proof.
  unfold detectEmergentOpportunities.
  assert (H1 : exists r w1,
            (if engagement >=? 8
             then i <- generateId E ;; ret [amplification i t]
             else ret []) w = (Ok r, w1)).
  { destruct (engagement >=? 8).
    - rewrite (bind_step _ _ _ _ _ (generateId_step w)). unfold ret. eauto.
    - unfold ret. eauto. }
  destruct H1 as (o1 & w1 & H1). simpl engagementLevel.
  rewrite (bind_step _ _ _ _ _ H1).
  destruct (push_each_returns (serendipity t) unexpected o1 w1)
    as (o2 & w2 & H2).
  simpl unexpectedResults. rewrite (bind_step _ _ _ _ _ H2).
  destruct (push_each_returns (hidden_talent t) revealed o2 w2)
    as (o3 & w3 & H3).
  simpl newSkillsRevealed. rewrite (bind_step _ _ _ _ _ H3).
  reflexivity.
Qed.

(** What [evolveHTABasedOnLearning] writes when the path file can be
    written: the evolved tree, under the active path. *)
Lemma evolveHTABasedOnLearning_saves
    (completedBlock : block) (learned nextQuestions : string) (ctx : context)
    (w w1 : world) (cfg : config) (h h' : hta) :
  config_json (disk w) = Some cfg ->
  orelse (path_hta_json (disk w) (or_str (active_learning_path cfg) "general"))
         (hta_json (disk w)) = Some h ->
  evolved_hta E h completedBlock nextQuestions ctx w = (Ok h', w1) ->
  config_json (disk w1) = Some cfg ->
  can_write E (PathHtaJson (or_str (active_learning_path cfg) "general"))
    = true ->
  evolveHTABasedOnLearning E completedBlock learned nextQuestions ctx w
  = (Ok tt,
     mkWorld (put_path_hta (or_str (active_learning_path cfg) "general") h'
                           (disk w1))
             (drawn w1)).
Proof.
  intros Hcfg Hh Hev Hcfg1 Hwrite.
  assert (Hload : getActiveHTA w = (Ok (Some h), w)).
  { unfold getActiveHTA, bind, load. now rewrite Hcfg, Hh. }
  unfold evolveHTABasedOnLearning.
  rewrite (bind_step _ _ _ _ _ Hload), (bind_step _ _ _ _ _ Hev).
  unfold bind, load, save. now rewrite Hcfg1, Hwrite.
Qed.

End Evolution.

(** ** The daily schedule *)

Import Schedule.

Section Synthesis.
Variable E : env.

Lemma sort_length {A : Type} (compare : A -> A -> num) (l : list A) :
  List.length (sort compare l) = List.length l.
Proof.
  assert (Hins : forall x l', List.length (insert_sorted compare x l')
                              = S (List.length l')).
  { intros x l'. induction l' as [|y t IH]; simpl; [reflexivity|].
    destruct (gtb (compare x y) (Int 0)); simpl; [now rewrite IH|reflexivity]. }
  induction l as [|x t IH]; simpl; [reflexivity|].
  now rewrite Hins, IH.
Qed.

(** Taking a slot frees none and takes at most one. *)
Lemma mark_taken_free (i : nat) (timeSlots : list slot) :
  (free timeSlots <= S (free (mark_taken i timeSlots)))%nat.
Proof.
  unfold free. revert i.
  induction timeSlots as [|s t IH]; intros i; simpl; [lia|].
  destruct i as [|k]; simpl.
  - destruct (available s); simpl; lia.
  - specialize (IH k). destruct (available s); simpl; lia.
Qed.

(** Every scheduler pushes a block whenever it takes a slot: free slots
    plus blocks never go down. *)
Lemma assign_loop_count pool fd refs :
  forall k timeSlots blocks,
    let st := assign_loop pool fd refs (k, timeSlots, blocks) in
    (free timeSlots + List.length blocks
     <= free (snd (fst st)) + List.length (snd st))%nat.
Proof.
  induction refs as [|r rest IH]; intros k timeSlots blocks; simpl; [lia|].
  destruct (nth_error pool k) as [n|].
  - specialize (IH (S k) (mark_taken r timeSlots)
                   (blocks ++ [learning_block n (slot_at timeSlots r) fd])).
    simpl in IH. rewrite length_app in IH. simpl in IH.
    pose proof (mark_taken_free r timeSlots). lia.
  - apply IH.
Qed.

Lemma periods_loop_count pool fd refs periods :
  forall k timeSlots blocks,
    let st := periods_loop pool fd refs periods (k, timeSlots, blocks) in
    (free timeSlots + List.length blocks
     <= free (snd (fst st)) + List.length (snd st))%nat.
Proof.
  induction periods as [|p rest IH]; intros k timeSlots blocks; simpl; [lia|].
  pose proof (assign_loop_count pool fd
                (filter (in_period timeSlots p) refs) k timeSlots blocks) as H1.
  simpl in H1.
  destruct (assign_loop pool fd (filter (in_period timeSlots p) refs)
              (k, timeSlots, blocks)) as [[k1 s1] b1].
  specialize (IH k1 s1 b1). simpl in *. lia.
Qed.

Lemma scheduleLearningBlocks_count nodes timeSlots periods fd :
  let r := scheduleLearningBlocks nodes timeSlots periods fd in
  (free timeSlots <= free (snd r) + List.length (fst r))%nat.
Proof.
  unfold scheduleLearningBlocks.
  set (pool1 := filter (fun n => geb (magnitude n) (Int 7)) nodes).
  set (pool2 := filter (fun n => ltb (magnitude n) (Int 7)) nodes).
  pose proof (periods_loop_count pool1 fd (available_refs timeSlots) periods
                0%nat timeSlots []) as H1.
  simpl in H1.
  destruct (periods_loop pool1 fd (available_refs timeSlots) periods
              (0%nat, timeSlots, [])) as [[k1 s1] b1].
  simpl in *.
  match goal with
  | |- context [assign_loop pool2 fd ?refs ?st] =>
      pose proof (assign_loop_count pool2 fd refs 0%nat s1 b1) as H2
  end.
  simpl in H2. lia.
Qed.

Lemma habits_loop_count habits targets refs :
  forall timeSlots blocks,
    let st := habits_loop habits targets refs (timeSlots, blocks) in
    (free timeSlots + List.length blocks
     <= free (fst st) + List.length (snd st))%nat.
Proof.
  revert targets.
  induction habits as [|hb hs IH]; intros targets timeSlots blocks; simpl;
    [lia|].
  destruct targets as [|target ts]; simpl; [lia|].
  destruct (find _ refs) as [r|].
  - specialize (IH ts (mark_taken r timeSlots)
                   (blocks ++ [habit_block hb (slot_at timeSlots r)])).
    simpl in IH. rewrite length_app in IH. simpl in IH.
    pose proof (mark_taken_free r timeSlots). lia.
  - apply IH.
Qed.

Lemma scheduleHabitBlocks_count habits timeSlots cfg :
  let r := scheduleHabitBlocks habits timeSlots cfg in
  (free timeSlots <= free (snd r) + List.length (fst r))%nat.
Proof.
  unfold scheduleHabitBlocks.
  match goal with
  | |- context [habits_loop habits ?ts ?refs (timeSlots, [])] =>
      pose proof (habits_loop_count habits ts refs timeSlots []) as H
  end.
  simpl in *. lia.
Qed.

Lemma fixed_loop_returns meals :
  forall index startTime endTime acc w,
  exists r w', fixed_loop E meals index startTime endTime acc w = (Ok r, w')
               /\ (List.length acc <= List.length r)%nat.
Proof.
  induction meals as [|m rest IH]; intros index startTime endTime acc w; simpl.
  - unfold ret. exists acc, w. split; [reflexivity|lia].
  - destruct (geb (parseTime m) (Int startTime)
              && leb (parseTime m) (Int (endTime - 30))).
    + unfold bind at 1, generateId.
      destruct (IH (S index) startTime endTime
                   (acc ++ [meal_block (ids E (drawn w)) (parseTime m) index])
                   (mkWorld (disk w) (S (drawn w)))) as (r & w' & Hr & Hlen).
      exists r, w'. split; [exact Hr|].
      rewrite length_app in Hlen. simpl in Hlen. lia.
    + apply IH.
Qed.

Lemma breaks_loop_cons r rest index st :
  breaks_loop E (r :: rest) index st
  = match rest with
    | _ :: _ =>
        if (index mod 3 =? 0)%nat then
          i <- generateId E ;;
          breaks_loop E rest (S index)
            (mark_taken r (fst st),
             snd st ++ [break_block i (slot_at (fst st) r)])
        else breaks_loop E rest (S index) st
    | [] => breaks_loop E rest (S index) st
    end.
Proof. reflexivity. Qed.

Lemma breaks_loop_returns refs :
  forall index st w,
  exists st' w', breaks_loop E refs index st w = (Ok st', w')
    /\ (free (fst st) + List.length (snd st)
        <= free (fst st') + List.length (snd st'))%nat.
Proof.
  induction refs as [|r rest IH]; intros index st w.
  - unfold ret. exists st, w. split; [reflexivity|lia].
  - rewrite breaks_loop_cons. destruct rest as [|r' rest'].
    + apply IH.
    + destruct (index mod 3 =? 0)%nat.
      * unfold bind at 1, generateId.
        destruct (IH (S index)
                     (mark_taken r (fst st),
                      snd st ++ [break_block (ids E (drawn w))
                                             (slot_at (fst st) r)])
                     (mkWorld (disk w) (S (drawn w))))
          as (st' & w' & Hr & Hlen).
        exists st', w'. split; [exact Hr|].
        simpl in Hlen. rewrite length_app in Hlen. simpl in Hlen.
        pose proof (mark_taken_free r (fst st)). lia.
      * apply IH.
Qed.

Lemma transitions_loop_returns remaining :
  forall minutes acc w,
  exists r w', transitions_loop E remaining minutes acc w = (Ok r, w')
    /\ List.length r = (List.length acc + List.length remaining)%nat.
Proof.
  induction remaining as [|s rest IH]; intros minutes acc w; simpl.
  - unfold ret. exists acc, w. split; [reflexivity|lia].
  - unfold bind at 1, generateId.
    destruct (IH minutes
                 (acc ++ [transition_block (ids E (drawn w)) s minutes])
                 (mkWorld (disk w) (S (drawn w)))) as (r & w' & Hr & Hlen).
    exists r, w'. split; [exact Hr|].
    rewrite length_app in Hlen. simpl in Hlen. lia.
Qed.

Lemma scheduleLifeStructure_returns timeSlots cfg w :
  exists r w', scheduleLifeStructure E timeSlots cfg w = (Ok r, w')
    /\ (free timeSlots <= List.length r)%nat.
Proof.
  unfold scheduleLifeStructure.
  destruct (breaks_loop_returns (available_refs timeSlots) 0%nat
              (timeSlots, []) w) as (st & w1 & H1 & Hlen1).
  rewrite (bind_step _ _ _ _ _ H1).
  match goal with
  | |- context [transitions_loop E ?rem ?m ?acc] =>
      destruct (transitions_loop_returns rem m acc w1) as (r & w2 & H2 & Hlen2)
  end.
  exists r, w2. split; [exact H2|].
  simpl in Hlen1. unfold free in *. lia.
Qed.

(** Fresh slots are free, and without fixed blocks every step gives one. *)
Lemma slots_loop_free steps :
  forall cur fixedBlocks,
    free (slots_loop steps cur fixedBlocks)
    = List.length (slots_loop steps cur fixedBlocks).
Proof.
  unfold free.
  induction steps as [|k IH]; intros cur fixedBlocks; simpl; [reflexivity|].
  destruct (hasFixedBlock fixedBlocks cur); simpl; now rewrite IH.
Qed.


(** The synthesizer always returns, with at least one block per slot and
    one per accepted meal. *)
Lemma generateComprehensiveSchedule_returns cfg h energy focus w :
  exists s w' fixedBlocks w1,
    generateComprehensiveSchedule E cfg h energy focus w = (Ok s, w') /\
    scheduleFixedLifeStructure E cfg (wake_minutes cfg)
      (resolveWindow (wake_minutes cfg) (sleep_minutes cfg)) w
      = (Ok fixedBlocks, w1) /\
    (List.length fixedBlocks
     + List.length (createTimeSlots (wake_minutes cfg)
                      (resolveWindow (wake_minutes cfg) (sleep_minutes cfg))
                      fixedBlocks)
     <= List.length (time_blocks s))%nat.
Proof.
  unfold generateComprehensiveSchedule.
  set (endTime := resolveWindow (wake_minutes cfg) (sleep_minutes cfg)).
  assert (Hf : exists r w1,
             scheduleFixedLifeStructure E cfg (wake_minutes cfg) endTime w
             = (Ok r, w1)).
  { unfold scheduleFixedLifeStructure.
    destruct (fixed_loop_returns
                (match meal_times cfg with
                 | Some l => l
                 | None => ["12:00 PM"; "6:00 PM"]
                 end) 0%nat (wake_minutes cfg) endTime [] w)
      as (r & w1 & Hr & _). eauto. }
  destruct Hf as (fixedBlocks & w1 & Hf).
  rewrite (bind_step _ _ _ _ _ Hf).
  set (timeSlots := createTimeSlots (wake_minutes cfg) endTime fixedBlocks).
  pose proof (scheduleLearningBlocks_count
                (filter (fun n => status_eqb (node_status n) Ready)
                        (frontier_nodes h))
                timeSlots (identifyHighEnergyPeriods cfg)
                (parseTimeAvailable
                   (Some (or_str (focus_duration cfg) "25 minutes")))) as HL.
  destruct (scheduleLearningBlocks _ timeSlots _ _) as [learning slots1].
  match goal with
  | |- context [scheduleHabitBlocks ?hs slots1 cfg] =>
      pose proof (scheduleHabitBlocks_count hs slots1 cfg) as HH;
      destruct (scheduleHabitBlocks hs slots1 cfg) as [habits slots2]
  end.
  destruct (scheduleLifeStructure_returns slots2 cfg w1)
    as (structure & w2 & Hs & HS).
  rewrite (bind_step _ _ _ _ _ Hs).
  unfold ret. eexists _, _, fixedBlocks, w1.
  split; [reflexivity|]. split; [exact Hf|].
  simpl time_blocks. rewrite sort_length, !length_app.
  assert (Hfree : free timeSlots = List.length timeSlots).
  { unfold timeSlots, createTimeSlots. apply slots_loop_free. }
  simpl in HL, HH. fold timeSlots. lia.
Qed.


End Synthesis.

(** C1. The schedule of the day from 8:00 AM to midnight with one ready
    node of 25 minutes is neither free of overlaps nor free of gaps: the
    learning block at 8:00 AM lasts until 8:25 AM while the next block
    starts at 8:15 AM, and no block holds the minute 8:25 AM (505), which
    lies inside the window.  Every slot is 15 minutes apart, a break lasts
    10 minutes and a transition 5. *)
Theorem C1_schedule_gaps_and_overlaps :
  exists s w',
    generateComprehensiveSchedule E0 cfg_day hta_one 3 "mixed" W_fresh
      = (Ok s, w') /\
    map (fun b => (b_time b, b_type b, b_duration b))
        (firstn 3 (time_blocks s))
      = [("8:00 AM", Learning, "25 minutes"); ("8:15 AM", Break, "10 min");
         ("8:30 AM", Transition, "5 min")] /\
    non_overlapping (time_blocks s) = false /\
    covered (time_blocks s) 505 = false /\
    wake_minutes cfg_day <= 505
      < resolveWindow (wake_minutes cfg_day) (sleep_minutes cfg_day).
Proof.
  eexists _, _. split; [vm_compute; reflexivity|].
  split; [vm_compute; reflexivity|].
  split; [vm_compute; reflexivity|].
  split; [vm_compute; reflexivity|].
  vm_compute. split; [discriminate|reflexivity].
Qed.


Lemma C3_rebalancing_witness :
  exists h' w' newTasks,
    evolved_hta E0 hta_foo scales_block "" (plain_context 5) W_fresh
      = (Ok h', w') /\
    Forall2 (rebalanced 5)
      (remaining_frontier E0 hta_foo scales_block (plain_context 5) ++ newTasks)
      (frontier_nodes h').
Proof.
  apply (C3_difficulty_rebalancing E0 hta_foo scales_block "" (plain_context 5)
           W_fresh).
  constructor.
Defined.

Lemma foo_unsatisfied : ~ satisfied hta_waiting empty_history "Foo".
Proof.
  intros [(c & [] & _) | [(c & [] & _) | (t & [] & _)]].
Qed.

Lemma readyNodes_filter_sample :
  is_ready cfg_day hta_foo empty_history after_foo = true /\
  is_ready cfg_day hta_waiting empty_history after_foo = false.
Proof.
  split.
  - apply (proj1 (proj2 (readyNodes_filter_spec
                           cfg_day hta_foo empty_history after_foo))).
    split; [reflexivity|]. split; [|reflexivity].
    intros p [<- | []]. left. exists foo_done. split; [now left|reflexivity].
  - apply (proj2 (proj2 (readyNodes_filter_spec
                           cfg_day hta_waiting empty_history after_foo))
             "Foo").
    + now left.
    + exact foo_unsatisfied.
Defined.

(** ** Persistence *)

Import Server.

(** C9. Saves that fail do not stop [completeBlock]: when only the day's
    schedule can be written, completing the block of the sample project
    returns normally although the saves of the learning history, of the
    configuration and of the tree (path file, then project file) all
    failed; none of the three is on disk afterwards.  The save of the
    schedule, in the same operation, is checked and throws.  In the same
    way [focusLearningPath] returns normally when the tree cannot be
    written, and the path marks are lost. *)
Theorem C9_failed_saves_are_silent :
  let done := completeBlock E_day_only "n1" "went well" "the major scales" ""
                            4 3 false 5 [] [] [] W_day in
  fst done = Ok tt /\
  history_json (disk (snd done)) = None /\
  config_json (disk (snd done)) = Some cfg_day /\
  hta_json (disk (snd done)) = Some hta_one /\
  path_hta_json (disk (snd done)) "general" = None /\
  fst (completeBlock (mkEnv (ids E0) (today E0) (now_iso E0) (clock_minutes E0)
                            (fun _ => false))
         "n1" "went well" "the major scales" "" 4 3 false 5 [] [] [] W_day)
    = Throw "Failed to save schedule update" /\
  let focused := focusLearningPath E_hta_locked "scales" "one week" W_day in
  fst focused = Ok tt /\
  hta_json (disk (snd focused)) = Some hta_one /\
  option_map active_learning_path (config_json (disk (snd focused)))
    = Some (Some "scales").
Proof. vm_compute. repeat split; reflexivity. Qed.

(** ** Task selection writes the schedule *)

Section Selection.
Variable E : env.

Lemma keeps_ret {A : Type} (a : A) : keeps_days (ret a).
Proof. intros w r w' H. now inversion H. Qed.

Lemma keeps_throw {A : Type} (msg : string) : keeps_days (@throw A msg).
Proof. intros w r w' H. now inversion H. Qed.

Lemma keeps_load {A : Type} (get : store -> A) : keeps_days (load get).
Proof. intros w r w' H. now inversion H. Qed.

Lemma keeps_generateId : keeps_days (generateId E).
Proof. intros w r w' H. now inversion H. Qed.

Lemma keeps_save_hta (h : hta) : keeps_days (save E HtaJson (put_hta h)).
Proof.
  intros w r w' H.
  apply save_cases in H. destruct H as [(_ & _ & ->) | (_ & _ & ->)]; simpl.
  - reflexivity.
  - apply logged_same_files.
Qed.

Lemma keeps_bind {A B : Type} (m : M A) (k : A -> M B) :
  keeps_days m -> (forall a, keeps_days (k a)) -> keeps_days (bind m k).
Proof.
  intros Hm Hk w r w' H. unfold bind in H.
  destruct (m w) as [[a|msg] w1] eqn:Hmw.
  - rewrite (Hk a _ _ _ H). exact (Hm _ _ _ Hmw).
  - inversion H; subst. exact (Hm _ _ _ Hmw).
Qed.

Lemma keeps_push_if (c : bool) (mk : string -> node) (l : list node) :
  keeps_days (push_if E c mk l).
Proof.
  unfold push_if. destruct c; [|apply keeps_ret].
  apply keeps_bind; [apply keeps_generateId | intros; apply keeps_ret].
Qed.

Lemma keeps_push_each {A : Type} (mk : string -> A -> node) (l : list A) :
  forall acc, keeps_days (push_each E mk l acc).
Proof.
  induction l as [|a l IH]; intros acc; simpl; [apply keeps_ret|].
  apply keeps_bind; [apply keeps_generateId | intros; apply IH].
Qed.

(** Go through a computation made of the steps above. *)
Ltac keeps :=
  repeat first
    [ apply keeps_ret | apply keeps_throw | apply keeps_load
    | apply keeps_generateId | apply keeps_save_hta | apply keeps_push_if
    | apply keeps_push_each
    | apply keeps_bind; [|intro]
    | match goal with
      | |- keeps_days (match ?x with _ => _ end) => destruct x
      end ].

Lemma keeps_generateAdaptiveTasks hist ctx :
  keeps_days (generateAdaptiveTasks E hist ctx).
Proof. unfold generateAdaptiveTasks. keeps. Qed.

Lemma keeps_generateSmartNextTasks cfg hist :
  keeps_days (generateSmartNextTasks E cfg hist).
Proof. unfold generateSmartNextTasks. keeps. Qed.

Lemma keeps_ready_or_generated cfg h hist ctx :
  keeps_days (ready_or_generated E cfg h hist ctx).
Proof.
  unfold ready_or_generated.
  destruct (filter (is_ready cfg h hist) (frontier_nodes h)); [|apply keeps_ret].
  apply keeps_bind; [apply keeps_generateAdaptiveTasks | intro].
  apply keeps_bind; [apply keeps_load | intros [updated|]];
    [|apply keeps_throw].
  destruct (filter _ (frontier_nodes updated)); [|apply keeps_ret].
  apply keeps_bind; [apply keeps_generateSmartNextTasks | intros tasks].
  destruct tasks; keeps.
Qed.

Lemma load_ok {A : Type} (get : store -> A) w a w1 :
  load get w = (Ok a, w1) -> a = get (disk w) /\ w1 = w.
Proof. intros H. inversion H. auto. Qed.

Lemma requireActiveProject_ok w p w1 :
  requireActiveProject w = (Ok p, w1) -> w1 = w.
Proof.
  unfold requireActiveProject.
  destruct (active_project (disk w)) as [[|c s]|]; intros H;
    now inversion H.
Qed.

(** C10. A call of [getNextTask] that selects a task writes today's
    schedule unless the task is already in it: the schedule on disk, or a
    fresh one when there is none, gets one more block at its end (a
    learning block with the task's id, timed at the clock's minute) and a
    matching block count, and is saved; when a block of that id is
    there already, no schedule changes. *)
Theorem C10_selection_writes_schedule
    (contextFromMemory : string) (energyLevel : Z) (timeAvailable : string)
    (w w' : world) (t : node) :
  getNextTask E contextFromMemory energyLevel timeAvailable w
    = (Ok (NextTask t), w') ->
  let before := day_json (disk w) (today E) in
  let blocks := match before with Some s => time_blocks s | None => [] end in
  if existsb (fun b => String.eqb (b_id b) (id t)) blocks
  then day_json (disk w') = day_json (disk w)
  else
    exists s',
      day_json (disk w') (today E)
        = (if can_write E (DayJson (today E)) then Some s' else before) /\
      time_blocks s' = blocks ++ [tracking_block E t] /\
      total_blocks s' = Z.of_nat (List.length blocks) + 1 /\
      b_id (tracking_block E t) = id t /\
      b_type (tracking_block E t) = Learning /\
      b_time (tracking_block E t) = formatTime (Int (clock_minutes E)) /\
      (before = None -> s_date s' = today E /\ completed_count s' = 0).
Proof.
  intros H before blocks. unfold getNextTask in H.
  bind_inv H. apply requireActiveProject_ok in Hstep. subst.
  bind_inv H. apply load_ok in Hstep. destruct Hstep as [-> ->].
  destruct (config_json (disk w)) as [cfg|]; [|discriminate].
  bind_inv H. apply load_ok in Hstep. destruct Hstep as [-> ->].
  bind_inv H. apply load_ok in Hstep. destruct Hstep as [-> ->].
  match type of H with
  | context [match ?x with Some _ => _ | None => throw _ end] =>
      destruct x as [h|]; [|discriminate]
  end.
  bind_inv H. apply keeps_ready_or_generated in Hstep.
  destruct a0 as [readyNodes|]; [|discriminate].
  match type of H with
  | context [selectOptimalTask ?l ?c] =>
      destruct (selectOptimalTask l c) as [nextTask|]; [|discriminate]
  end.
  bind_inv H. inversion H; subst; clear H.
  unfold ensure_in_schedule in Hstep0.
  bind_inv Hstep0. apply load_ok in Hstep1. destruct Hstep1 as [-> ->].
  rewrite Hstep in Hstep0. fold before in Hstep0.
  assert (Hblocks :
            time_blocks (match before with
                         | Some s => s
                         | None => fresh_schedule E a h energyLevel
                         end) = blocks).
  { unfold blocks. now destruct before. }
  rewrite Hblocks in Hstep0.
  destruct (existsb (fun b => String.eqb (b_id b) (id t)) blocks).
  - inversion Hstep0; subst. exact Hstep.
  - bind_inv Hstep0. inversion Hstep0; subst; clear Hstep0.
    apply save_cases in Hstep1.
    eexists (with_blocks _ (blocks ++ [tracking_block E t])).
    split; [|split; [reflexivity|]].
    + destruct Hstep1 as [(Hw & _ & ->) | (Hw & _ & ->)]; rewrite Hw; simpl.
      * unfold upd. now rewrite String.eqb_refl.
      * now rewrite logged_day_json, Hstep.
    + simpl. rewrite length_app. simpl.
      split; [lia|]. do 3 (split; [reflexivity|]).
      intros Hnone. rewrite Hnone. split; reflexivity.
Qed.

End Selection.

(** C2. A node with a prerequisite that none of the three lookups finds
    is selected all the same.  The filter of [getNextTask] is not the
    only way into its candidates: when no node passes it, the candidates
    are refilled from hta.json with every node of status ready, and the
    refill does not look at prerequisites.  On the sample project, whose
    only frontier node waits for ["Foo"] while nothing is completed and
    the history is empty, the prerequisite is not satisfied and the
    filter rejects the node, yet [getNextTask] answers with that node. *)
Theorem C2_unmet_prerequisite_is_selected :
  tree_read disk_waiting "general" = Some hta_waiting /\
  In after_foo (frontier_nodes hta_waiting) /\
  In "Foo" (prerequisites after_foo) /\
  ~ satisfied hta_waiting empty_history "Foo" /\
  is_ready cfg_day hta_waiting empty_history after_foo = false /\
  fst (getNextTask E0 "" 3 "30 minutes" (mkWorld disk_waiting 0))
  = Ok (NextTask after_foo).
Proof.
  split; [reflexivity|]. split; [now left|]. split; [now left|].
  split; [exact foo_unsatisfied|]. split; reflexivity.
Qed.

Lemma C10_selection_witness :
  exists s',
    day_json (disk (snd (getNextTask E0 "" 3 "30 minutes" W_fresh))) (today E0)
      = Some s' /\
    time_blocks s' = [tracking_block E0 scales].
Proof.
  destruct (C10_selection_writes_schedule E0 "" 3 "30 minutes" W_fresh
              (snd (getNextTask E0 "" 3 "30 minutes" W_fresh)) scales
              eq_refl)
    as (s' & Hday & Hblocks & _).
  exists s'. split; [exact Hday | exact Hblocks].
Defined.

(* ================================================================== *)
(** * Further properties of the code *)
(* ================================================================== *)

Import Repair.

(** ** Time conversion *)

Lemma day_normal (m : Z) : Z.rem (Z.rem m 1440 + 1440) 1440 = m mod 1440.
Proof.
  pose proof (Z.rem_bound_abs m 1440) as Hb.
  assert (Hr : -1440 < Z.rem m 1440 < 1440) by lia.
  rewrite Z.rem_mod_nonneg by lia.
  rewrite <- (Z.add_mod_idemp_l (Z.rem m 1440)) by lia.
  assert (Hm : Z.rem m 1440 mod 1440 = m mod 1440).
  { rewrite (Z.quot_rem' m 1440) at 2.
    rewrite Z.add_comm, Z.mul_comm, Z.mod_add by lia. reflexivity. }
  rewrite Hm, Z.add_mod_idemp_l by lia.
  replace (m + 1440) with (m + 1 * 1440) by lia.
  now rewrite Z.mod_add by lia.
Qed.

Lemma formatTime_mod (m : Z) : formatTime (Int m) = formatTime (Int (m mod 1440)).
Proof.
  unfold formatTime, rem, add, lift2.
  change (24 * 60) with 1440.
  rewrite !day_normal, Z.mod_mod by lia. reflexivity.
Qed.

(** X1. [formatTime] renders a minute count by its time of day: counts
    that differ by whole days, negative ones too, give the same text. *)
Theorem X1_formatTime_whole_days (m k : Z) :
  formatTime (Int (m + 1440 * k)) = formatTime (Int m).
Proof.
  rewrite (formatTime_mod (m + 1440 * k)), (formatTime_mod m).
  now rewrite Z.mul_comm, Z.mod_add by lia.
Qed.

(** X2. Parsing what [formatTime] renders for any integer gives the
    minute of the day, [m mod 1440]: the day count is lost, so an end of
    window past midnight parses back as an early morning minute. *)
Theorem X2_parseTime_formatTime_any (m : Z) :
  parseTime (formatTime (Int m)) = Int (m mod 1440).
Proof.
  rewrite formatTime_mod. apply eqb_Int.
  apply (forallb_below roundtrip_at 1440 roundtrip_day).
  apply Z.mod_pos_bound. lia.
Qed.

Lemma clock24_day :
  forallb (fun h => forallb (fun m => reads_clock24 h m && reads_padded24 h m)
                            (map Z.of_nat (seq 0 60)))
          (map Z.of_nat (seq 0 25)) = true.
Proof. vm_compute. reflexivity. Qed.

(** X3. A 24-hour text [H:MM] or [HH:MM] with hour 0..24 and minute 0..59
    parses to [60 * hour + minute], where hour 24 is read as hour 0. *)
Theorem X3_parseTime_24_hour (h m : Z) :
  0 <= h <= 24 -> 0 <= m < 60 ->
  parseTime (clock24 h m) = Int ((h mod 24) * 60 + m) /\
  parseTime (padStart2 (show_Z h) ++ ":" ++ padStart2 (show_Z m))%string
    = Int ((h mod 24) * 60 + m).
Proof.
  intros Hh Hm.
  pose proof (forallb_below _ 25 clock24_day h ltac:(lia)) as H1.
  cbv beta in H1.
  pose proof (forallb_below _ 60 H1 m ltac:(lia)) as H2.
  cbv beta in H2. apply andb_true_iff in H2. destruct H2 as [Ha Hb].
  split; apply eqb_Int; assumption.
Qed.

Lemma X3_parseTime_24_hour_witness :
  parseTime (clock24 24 0) = Int 0 /\
  parseTime (padStart2 (show_Z 24) ++ ":" ++ padStart2 (show_Z 0))%string = Int 0.
Proof. apply (X3_parseTime_24_hour 24 0); lia. Defined.

Lemma minutes_read_back :
  forallb reads_minutes (map Z.of_nat (seq 0 1441)) = true.
Proof. vm_compute. reflexivity. Qed.

(** X4. The duration texts the generators write, [N minutes] and [N min],
    are read back by [parseTimeAvailable] as [N], for every [N] up to a
    day's 1440 minutes. *)
Theorem X4_parseTimeAvailable_reads_minutes (n : Z) :
  0 <= n <= 1440 ->
  parseTimeAvailable (Some (show_Z n ++ " minutes")%string) = n /\
  parseTimeAvailable (Some (show_Z n ++ " min")%string) = n.
Proof.
  intros Hn.
  pose proof (forallb_below _ 1441 minutes_read_back n ltac:(lia)) as H.
  unfold reads_minutes in H. apply andb_true_iff in H.
  destruct H as [Ha Hb]. apply Z.eqb_eq in Ha, Hb. now split.
Qed.

Lemma X4_reads_minutes_witness :
  parseTimeAvailable (Some (show_Z 5 ++ " minutes")%string) = 5 /\
  parseTimeAvailable (Some (show_Z 5 ++ " min")%string) = 5.
Proof. apply (X4_parseTimeAvailable_reads_minutes 5). lia. Defined.

(** ** The stable sort *)

Section Sorting.
Context {A : Type}.
Variable compare : A -> A -> num.

Lemma insert_sorted_perm (x : A) (l : list A) :
  Permutation (insert_sorted compare x l) (x :: l).
Proof.
  induction l as [|y t IH]; simpl; [reflexivity|].
  destruct (gtb (compare x y) (Int 0)); [|reflexivity].
  rewrite IH. apply perm_swap.
Qed.

Lemma sort_perm (l : list A) : Permutation (sort compare l) l.
Proof.
  induction l as [|x t IH]; simpl; [reflexivity|].
  rewrite insert_sorted_perm. now constructor.
Qed.

(** Where the comparator is a difference of integer keys the result is
    in key order. *)
Variable key : A -> Z.
Variable keyed : A -> Prop.
Hypothesis compare_keys :
  forall a b, keyed a -> keyed b -> compare a b = Int (key a - key b).

Lemma insert_sorted_sorted (x : A) (l : list A) :
  keyed x -> Forall keyed l ->
  StronglySorted (fun a b => key a <= key b) l ->
  StronglySorted (fun a b => key a <= key b) (insert_sorted compare x l).
Proof.
  intros Hx Hl Hs. induction Hs as [|y t Ht IH Hy]; simpl.
  - repeat constructor.
  - inversion Hl as [|? ? Hky Hkt]; subst.
    rewrite (compare_keys x y Hx Hky). simpl.
    destruct (key x - key y >? 0) eqn:Hc.
    + constructor; [now apply IH|].
      rewrite (insert_sorted_perm x t). constructor; [|exact Hy].
      apply Z.gtb_lt in Hc. lia.
    + constructor; [now constructor|].
      assert (Hle : key x <= key y).
      { destruct (Z.gtb_spec (key x - key y) 0); [discriminate|lia]. }
      constructor; [exact Hle|].
      eapply Forall_impl; [|exact Hy]. intros a Ha. simpl in Ha. lia.
Qed.

Lemma sort_sorted (l : list A) :
  Forall keyed l ->
  StronglySorted (fun a b => key a <= key b) (sort compare l).
Proof.
  induction 1 as [|x t Hx Ht IH]; simpl; [constructor|].
  apply insert_sorted_sorted; try assumption.
  now rewrite sort_perm.
Qed.

End Sorting.

(** ** The parts of the synthesizer *)

Lemma timed_formatTime (z : Z) : timed (formatTime (Int z)).
Proof.
  exists (z mod 1440). split.
  - rewrite formatTime_mod. apply eqb_Int.
    apply (forallb_below roundtrip_at 1440 roundtrip_day).
    apply Z.mod_pos_bound. lia.
  - apply Z.mod_pos_bound. lia.
Qed.

Lemma timed_empty : timed "".
Proof. exists 0. split; [reflexivity|lia]. Qed.

Section SchedulerInvariant.
Variable E : env.
Variable PS : slot -> Prop.
Variable PB : block -> Prop.
Hypothesis PS_default : PS (mkSlot 0 "" false).
Hypothesis PS_taken :
  forall s, PS s -> PS (mkSlot (start s) (formatted_time s) false).
Hypothesis PB_learning : forall n s fd, PS s -> PB (learning_block n s fd).
Hypothesis PB_habit : forall h s, PS s -> PB (habit_block h s).
Hypothesis PB_break : forall i s, PS s -> PB (break_block i s).
Hypothesis PB_transition :
  forall i s m, PS s -> PB (transition_block i s m).

Lemma slot_at_inv slots r : Forall PS slots -> PS (slot_at slots r).
Proof.
  intros H. unfold slot_at.
  destruct (nth_in_or_default r slots (mkSlot 0 "" false)) as [Hin | ->].
  - rewrite Forall_forall in H. now apply H.
  - exact PS_default.
Qed.

Lemma mark_taken_inv i slots : Forall PS slots -> Forall PS (mark_taken i slots).
Proof.
  intros H. revert i. induction H as [|s t Hs Ht IH]; intros i;
    destruct i; simpl; constructor; auto.
Qed.

Lemma assign_loop_inv pool fd refs :
  forall st, Forall PS (snd (fst st)) -> Forall PB (snd st) ->
    Forall PS (snd (fst (assign_loop pool fd refs st)))
    /\ Forall PB (snd (assign_loop pool fd refs st)).
Proof.
  induction refs as [|r rest IH]; intros [[k slots] blocks] Hs Hb; simpl in *.
  - split; assumption.
  - destruct (nth_error pool k) as [n|].
    + apply IH; simpl.
      * now apply mark_taken_inv.
      * apply Forall_app. split; [assumption|].
        constructor; [|constructor]. apply PB_learning. now apply slot_at_inv.
    + apply IH; assumption.
Qed.

Lemma periods_loop_inv pool fd refs periods :
  forall st, Forall PS (snd (fst st)) -> Forall PB (snd st) ->
    Forall PS (snd (fst (periods_loop pool fd refs periods st)))
    /\ Forall PB (snd (periods_loop pool fd refs periods st)).
Proof.
  induction periods as [|p rest IH]; intros st Hs Hb; simpl.
  - split; assumption.
  - destruct (assign_loop_inv pool fd
                (filter (in_period (snd (fst st)) p) refs) st Hs Hb).
    now apply IH.
Qed.

Lemma scheduleLearningBlocks_inv nodes slots periods fd :
  Forall PS slots ->
  Forall PB (fst (scheduleLearningBlocks nodes slots periods fd))
  /\ Forall PS (snd (scheduleLearningBlocks nodes slots periods fd)).
Proof.
  intros Hs. unfold scheduleLearningBlocks.
  match goal with
  | |- context [periods_loop ?pool fd ?refs periods ?st] =>
      destruct (periods_loop_inv pool fd refs periods st Hs (Forall_nil _))
        as [H1 H2];
      destruct (periods_loop pool fd refs periods st) as [[k1 s1] b1]
  end.
  simpl in *.
  match goal with
  | |- context [assign_loop ?pool fd ?refs ?st] =>
      destruct (assign_loop_inv pool fd refs st H1 H2) as [H3 H4]
  end.
  split; assumption.
Qed.

Lemma habits_loop_inv habits targets refs :
  forall st, Forall PS (fst st) -> Forall PB (snd st) ->
    Forall PS (fst (habits_loop habits targets refs st))
    /\ Forall PB (snd (habits_loop habits targets refs st)).
Proof.
  revert targets.
  induction habits as [|hb hs IH]; intros targets [slots blocks] Hs Hb;
    simpl in *; [split; assumption|].
  destruct targets as [|target ts]; [split; assumption|].
  destruct (find _ refs) as [r|].
  - apply IH; simpl.
    + now apply mark_taken_inv.
    + apply Forall_app. split; [assumption|].
      constructor; [|constructor]. apply PB_habit. now apply slot_at_inv.
  - apply IH; assumption.
Qed.

Lemma scheduleHabitBlocks_inv habits slots cfg :
  Forall PS slots ->
  Forall PB (fst (scheduleHabitBlocks habits slots cfg))
  /\ Forall PS (snd (scheduleHabitBlocks habits slots cfg)).
Proof.
  intros Hs. unfold scheduleHabitBlocks. simpl.
  match goal with
  | |- context [habits_loop habits ?ts ?refs ?st] =>
      destruct (habits_loop_inv habits ts refs st Hs (Forall_nil _))
  end.
  split; assumption.
Qed.

Lemma breaks_loop_inv refs :
  forall index st w st' w',
    breaks_loop E refs index st w = (Ok st', w') ->
    Forall PS (fst st) -> Forall PB (snd st) ->
    Forall PS (fst st') /\ Forall PB (snd st').
Proof.
  induction refs as [|r rest IH]; intros index st w st' w' H Hs Hb.
  - inversion H; subst. split; assumption.
  - rewrite breaks_loop_cons in H. destruct rest as [|r' rest'].
    + eapply IH; eassumption.
    + destruct (index mod 3 =? 0)%nat.
      * unfold bind at 1, generateId in H.
        eapply IH; [exact H| |]; simpl.
        -- now apply mark_taken_inv.
        -- apply Forall_app. split; [assumption|].
           constructor; [|constructor]. apply PB_break. now apply slot_at_inv.
      * eapply IH; eassumption.
Qed.

Lemma transitions_loop_inv remaining :
  forall minutes acc w r w',
    transitions_loop E remaining minutes acc w = (Ok r, w') ->
    Forall PS remaining -> Forall PB acc -> Forall PB r.
Proof.
  induction remaining as [|s rest IH]; intros minutes acc w r w' H Hs Hb.
  - inversion H; subst. assumption.
  - simpl in H. unfold bind at 1, generateId in H.
    inversion Hs; subst.
    eapply IH; [exact H|assumption|].
    apply Forall_app. split; [assumption|].
    constructor; [|constructor]. now apply PB_transition.
Qed.

Lemma scheduleLifeStructure_inv slots cfg w r w' :
  scheduleLifeStructure E slots cfg w = (Ok r, w') ->
  Forall PS slots -> Forall PB r.
Proof.
  unfold scheduleLifeStructure. intros H Hs.
  bind_inv H.
  destruct (breaks_loop_inv _ _ _ _ _ _ Hstep Hs (Forall_nil _)) as [H1 H2].
  eapply transitions_loop_inv; [exact H| |exact H2].
  rewrite Forall_forall in *. intros x Hx.
  apply filter_In in Hx. now apply H1.
Qed.

End SchedulerInvariant.

Section SynthesisParts.
Variable E : env.

(** The meals the synthesizer accepts. *)
Lemma fixed_loop_meals meals :
  forall index startTime endTime acc w r w',
    fixed_loop E meals index startTime endTime acc w = (Ok r, w') ->
    exists added,
      r = acc ++ added /\
      Forall (meal_in_window startTime endTime) added /\
      (List.length added <= List.length meals)%nat.
Proof.
  induction meals as [|m rest IH];
    intros index startTime endTime acc w r w' H; simpl in H.
  - inversion H; subst. exists []. rewrite app_nil_r.
    repeat split; [constructor | simpl; lia].
  - destruct (geb (parseTime m) (Int startTime)
              && leb (parseTime m) (Int (endTime - 30))) eqn:Hc.
    + unfold bind at 1, generateId in H.
      apply IH in H. destruct H as (added & -> & Hall & Hlen).
      exists (meal_block (ids E (drawn w)) (parseTime m) index :: added).
      rewrite <- app_assoc. split; [reflexivity|]. split; [|simpl; lia].
      constructor; [|assumption].
      apply andb_true_iff in Hc. destruct Hc as [Hge Hle].
      destruct (parseTime m) as [|z]; [discriminate|].
      exists (ids E (drawn w)), z, index. split; [reflexivity|].
      simpl in Hge, Hle. apply Z.geb_le in Hge. apply Z.leb_le in Hle. lia.
    + apply IH in H. destruct H as (added & -> & Hall & Hlen).
      exists added. repeat split; try assumption. simpl. lia.
Qed.

(** The synthesizer taken apart: its four schedulers and the sort. *)
Lemma generateComprehensiveSchedule_parts cfg h energy focus w s w' :
  generateComprehensiveSchedule E cfg h energy focus w = (Ok s, w') ->
  exists fixedBlocks w1 structure,
    scheduleFixedLifeStructure E cfg (wake_minutes cfg) (window_end cfg) w
      = (Ok fixedBlocks, w1) /\
    let timeSlots :=
      createTimeSlots (wake_minutes cfg) (window_end cfg) fixedBlocks in
    let learning :=
      scheduleLearningBlocks (ready_learning h) timeSlots
        (identifyHighEnergyPeriods cfg) (focus_minutes cfg) in
    let habits := scheduleHabitBlocks (ready_habits h) (snd learning) cfg in
    scheduleLifeStructure E (snd habits) cfg w1 = (Ok structure, w') /\
    time_blocks s
      = sort by_time (fixedBlocks ++ fst learning ++ fst habits ++ structure).
Proof.
  unfold generateComprehensiveSchedule. intros H.
  bind_inv H. exists a, w0.
  fold (window_end cfg) in *. fold (ready_learning h) in H.
  fold (ready_habits h) in H. fold (focus_minutes cfg) in H.
  destruct (scheduleLearningBlocks (ready_learning h)
              (createTimeSlots (wake_minutes cfg) (window_end cfg) a)
              (identifyHighEnergyPeriods cfg) (focus_minutes cfg))
    as [learning slots1] eqn:HL.
  destruct (scheduleHabitBlocks (ready_habits h) slots1 cfg)
    as [habits slots2] eqn:HH.
  bind_inv H. inversion H; subst; clear H.
  exists a0. split; [exact Hstep|]. cbv zeta.
  cbn [fst snd]. rewrite HH. cbn [fst snd].
  split; [exact Hstep0|reflexivity].
Qed.

End SynthesisParts.

Section SynthesisLaws.
Variable E : env.

Lemma slots_loop_In steps :
  forall cur fixedBlocks s,
    In s (slots_loop steps cur fixedBlocks) <->
    exists k, (k < steps)%nat
      /\ s = mkSlot (cur + 15 * Z.of_nat k)
                    (formatTime (Int (cur + 15 * Z.of_nat k))) true
      /\ hasFixedBlock fixedBlocks (cur + 15 * Z.of_nat k) = false.
Proof.
  induction steps as [|n IH]; intros cur fixedBlocks s; simpl.
  - split; [contradiction|]. intros (k & Hk & _). lia.
  - assert (Hrest : In s (slots_loop n (cur + 15) fixedBlocks) <->
              exists k, (0 < k < S n)%nat
                /\ s = mkSlot (cur + 15 * Z.of_nat k)
                              (formatTime (Int (cur + 15 * Z.of_nat k))) true
                /\ hasFixedBlock fixedBlocks (cur + 15 * Z.of_nat k) = false).
    { rewrite IH. split.
      - intros (k & Hk & Hs & Hf). exists (S k).
        replace (cur + 15 * Z.of_nat (S k)) with (cur + 15 + 15 * Z.of_nat k)
          by lia.
        repeat split; try assumption; lia.
      - intros (k & Hk & Hs & Hf). destruct k as [|k]; [lia|]. exists k.
        replace (cur + 15 + 15 * Z.of_nat k) with (cur + 15 * Z.of_nat (S k))
          by lia.
        repeat split; try assumption; lia. }
    destruct (hasFixedBlock fixedBlocks cur) eqn:Hfix.
    + rewrite Hrest. split.
      * intros (k & Hk & Hs & Hf). exists k. repeat split; try assumption; lia.
      * intros (k & Hk & Hs & Hf). destruct k as [|k].
        -- simpl in Hf. rewrite Z.add_0_r in Hf. congruence.
        -- exists (S k). repeat split; try assumption; lia.
    + simpl. rewrite Hrest. split.
      * intros [<- | (k & Hk & Hs & Hf)].
        -- exists 0%nat. simpl. rewrite !Z.add_0_r.
           repeat split; try assumption; lia.
        -- exists k. repeat split; try assumption; lia.
      * intros (k & Hk & Hs & Hf). destruct k as [|k].
        -- left. simpl in Hs. rewrite !Z.add_0_r in Hs. now subst.
        -- right. exists (S k). repeat split; try assumption; lia.
Qed.

Lemma slots_loop_increasing steps :
  forall cur fixedBlocks,
    StronglySorted (fun a b => start a < start b)
                   (slots_loop steps cur fixedBlocks).
Proof.
  induction steps as [|n IH]; intros cur fixedBlocks; simpl; [constructor|].
  destruct (hasFixedBlock fixedBlocks cur); [apply IH|].
  constructor; [apply IH|].
  apply Forall_forall. intros s Hs. apply slots_loop_In in Hs.
  destruct Hs as (k & _ & -> & _). cbn [start]. lia.
Qed.

(** X5. The slots of a window are exactly the quarter-hour steps from its
    start that lie before its end and in no fixed block; each is
    available and carries the text of its start, and they come in
    increasing order. *)
Theorem X5_createTimeSlots_grid
    (startTime endTime : Z) (fixedBlocks : list block) :
  (forall s, In s (createTimeSlots startTime endTime fixedBlocks) <->
     exists k, 0 <= k /\ start s = startTime + 15 * k
       /\ startTime + 15 * k < endTime
       /\ hasFixedBlock fixedBlocks (start s) = false
       /\ formatted_time s = formatTime (Int (start s))
       /\ available s = true) /\
  StronglySorted (fun a b => start a < start b)
                 (createTimeSlots startTime endTime fixedBlocks).
Proof.
  split; [|apply slots_loop_increasing].
  intros s. unfold createTimeSlots, slot_steps. rewrite slots_loop_In.
  assert (Hsteps : forall k : nat,
             (k < Z.to_nat ((endTime - startTime + 14) / 15))%nat <->
             startTime + 15 * Z.of_nat k < endTime).
  { intros k.
    pose proof (Z.div_mod (endTime - startTime + 14) 15 ltac:(lia)) as Hd.
    pose proof (Z.mod_pos_bound (endTime - startTime + 14) 15 ltac:(lia)).
    split; intros Hk; lia. }
  split.
  - intros (k & Hk & -> & Hf). exists (Z.of_nat k). simpl.
    apply Hsteps in Hk. repeat split; try assumption; lia.
  - intros (k & Hk & Hs & Hlt & Hf & Ht & Ha).
    exists (Z.to_nat k). rewrite Hsteps, Z2Nat.id by assumption.
    split; [assumption|]. rewrite <- Hs. split; [|assumption].
    destruct s as [st ft av]. simpl in *. now subst.
Qed.

(** X6. The fixed blocks of a schedule are meals only: the synthesizer
    returns one half-hour meal block for each meal time that parses to a
    minute between the start of the window and half an hour before its
    end, never more blocks than meal times, and skips the other meal
    times without failing. *)
Theorem X6_scheduleFixedLifeStructure_meals
    (cfg : config) (startTime endTime : Z) (w : world) :
  exists fixedBlocks w',
    scheduleFixedLifeStructure E cfg startTime endTime w
      = (Ok fixedBlocks, w') /\
    (List.length fixedBlocks <= List.length (meals_of cfg))%nat /\
    Forall (fun b =>
              b_type b = Meal /\ b_duration b = "30 min" /\
              exists m, b_time b = formatTime (Int m)
                        /\ startTime <= m <= endTime - 30)
           fixedBlocks.
Proof.
  unfold scheduleFixedLifeStructure. fold (meals_of cfg).
  destruct (fixed_loop_returns E (meals_of cfg) 0%nat startTime endTime [] w)
    as (r & w' & Hr & _).
  exists r, w'. split; [exact Hr|].
  apply fixed_loop_meals in Hr. destruct Hr as (added & -> & Hall & Hlen).
  simpl. split; [exact Hlen|].
  eapply Forall_impl; [|exact Hall].
  intros b (i & m & index & -> & Hm). simpl. eauto.
Qed.

Lemma by_time_keys (a b : block) :
  timed (b_time a) -> timed (b_time b) ->
  by_time a b = Int (time_key a - time_key b).
Proof.
  intros (x & Hx & _) (y & Hy & _). unfold by_time, time_key.
  now rewrite Hx, Hy.
Qed.

Lemma sorted_by_key_starts (l : list block) :
  Forall (fun b => timed (b_time b)) l ->
  StronglySorted (fun a b => time_key a <= time_key b) l ->
  StronglySorted starts_no_later l.
Proof.
  intros Hall Hs. induction Hs as [|a t Ht IH Ha]; [constructor|].
  inversion Hall as [|? ? Hta Htt]; subst.
  constructor; [now apply IH|].
  rewrite Forall_forall in *. intros b Hb.
  destruct Hta as (x & Hx & _). destruct (Htt b Hb) as (y & Hy & _).
  exists x, y. repeat split; try assumption.
  specialize (Ha b Hb). unfold time_key in Ha. now rewrite Hx, Hy in Ha.
Qed.

Lemma slots_loop_timed steps :
  forall cur fixedBlocks,
    Forall (fun s => timed (formatted_time s))
           (slots_loop steps cur fixedBlocks).
Proof.
  intros cur fixedBlocks. apply Forall_forall. intros s Hs.
  apply slots_loop_In in Hs. destruct Hs as (k & _ & -> & _).
  simpl. apply timed_formatTime.
Qed.

(** X7. The synthesizer always returns a schedule whose blocks are in
    the order of their time of day: every time text parses to a minute of
    the day and no block starts later than one that follows it; the
    block count of the schedule is the length of the list. *)
Theorem X7_schedule_in_time_order
    (cfg : config) (h : hta) (energy : Z) (focus : string) (w : world) :
  exists s w',
    generateComprehensiveSchedule E cfg h energy focus w = (Ok s, w') /\
    StronglySorted starts_no_later (time_blocks s) /\
    Forall (fun b => timed (b_time b)) (time_blocks s) /\
    total_blocks s = Z.of_nat (List.length (time_blocks s)).
Proof.
  destruct (generateComprehensiveSchedule_returns E cfg h energy focus w)
    as (s & w' & _ & _ & Hs & _).
  exists s, w'. split; [exact Hs|].
  assert (Htotal : total_blocks s = Z.of_nat (List.length (time_blocks s))).
  { unfold generateComprehensiveSchedule in Hs. bind_inv Hs.
    repeat match type of Hs with
           | context [let (_, _) := ?x in _] => destruct x
           end.
    bind_inv Hs. inversion Hs; subst. reflexivity. }
  destruct (generateComprehensiveSchedule_parts E _ _ _ _ _ _ _ Hs)
    as (fixedBlocks & w1 & structure & Hfix & Hstruct & Hblocks).
  cbv zeta in Hstruct, Hblocks.
  set (PS := fun s : slot => timed (formatted_time s)).
  set (PB := fun b : block => timed (b_time b)).
  assert (Hslots : Forall PS (createTimeSlots (wake_minutes cfg)
                                (window_end cfg) fixedBlocks)).
  { apply slots_loop_timed. }
  assert (Hdefault : PS (mkSlot 0 "" false)) by exact timed_empty.
  assert (Htaken : forall s0, PS s0 ->
                     PS (mkSlot (start s0) (formatted_time s0) false))
    by (intros s0 H0; exact H0).
  destruct (scheduleLearningBlocks_inv PS PB Hdefault Htaken
              (fun n s0 fd H0 => H0)
              (ready_learning h) _ (identifyHighEnergyPeriods cfg)
              (focus_minutes cfg) Hslots) as [HL1 HL2].
  destruct (scheduleHabitBlocks_inv PS PB Hdefault Htaken
              (fun hb s0 H0 => H0) (ready_habits h) _ cfg HL2) as [HH1 HH2].
  pose proof (scheduleLifeStructure_inv E PS PB Hdefault Htaken
                (fun i s0 H0 => H0) (fun i s0 m H0 => H0)
                _ _ _ _ _ Hstruct HH2) as HS.
  assert (HF : Forall PB fixedBlocks).
  { unfold scheduleFixedLifeStructure in Hfix.
    apply fixed_loop_meals in Hfix. destruct Hfix as (added & -> & Hall & _).
    simpl. eapply Forall_impl; [|exact Hall].
    intros b (i & m & index & -> & _). apply timed_formatTime. }
  assert (Hall : Forall PB (fixedBlocks
                   ++ fst (scheduleLearningBlocks (ready_learning h)
                             (createTimeSlots (wake_minutes cfg)
                                (window_end cfg) fixedBlocks)
                             (identifyHighEnergyPeriods cfg)
                             (focus_minutes cfg))
                   ++ fst (scheduleHabitBlocks (ready_habits h)
                             (snd (scheduleLearningBlocks (ready_learning h)
                                     (createTimeSlots (wake_minutes cfg)
                                        (window_end cfg) fixedBlocks)
                                     (identifyHighEnergyPeriods cfg)
                                     (focus_minutes cfg))) cfg)
                   ++ structure)).
  { repeat (apply Forall_app; split); assumption. }
  assert (Hsorted_all : Forall PB (time_blocks s)).
  { rewrite Hblocks. eapply Permutation_Forall; [|exact Hall].
    symmetry. apply sort_perm. }
  split; [|split; [exact Hsorted_all | exact Htotal]].
  apply sorted_by_key_starts; [exact Hsorted_all|].
  rewrite Hblocks.
  apply (sort_sorted by_time time_key PB by_time_keys). exact Hall.
Qed.

End SynthesisLaws.

(** ** Learning and habit blocks *)

Lemma firstn_S_nth {A : Type} (l : list A) (k : nat) (x : A) :
  nth_error l k = Some x -> firstn (S k) l = firstn k l ++ [x].
Proof.
  revert k. induction l as [|y t IH]; intros [|k] H; simpl in *;
    try discriminate.
  - now inversion H.
  - now rewrite (IH k H).
Qed.

Lemma assign_loop_order pool fd refs (pre : list node) :
  forall k slots blocks,
    Forall2 block_of_node (pre ++ firstn k pool) blocks ->
    exists k',
      fst (fst (assign_loop pool fd refs (k, slots, blocks))) = k' /\
      Forall2 block_of_node (pre ++ firstn k' pool)
              (snd (assign_loop pool fd refs (k, slots, blocks))).
Proof.
  induction refs as [|r rest IH]; intros k slots blocks H; simpl.
  - exists k. split; [reflexivity|assumption].
  - destruct (nth_error pool k) as [n|] eqn:Hn.
    + apply IH. rewrite (firstn_S_nth _ _ _ Hn), app_assoc.
      apply Forall2_app; [assumption|].
      constructor; [|constructor]. repeat split.
    + now apply IH.
Qed.

Lemma periods_loop_order pool fd refs periods (pre : list node) :
  forall k slots blocks,
    Forall2 block_of_node (pre ++ firstn k pool) blocks ->
    exists k',
      Forall2 block_of_node (pre ++ firstn k' pool)
              (snd (periods_loop pool fd refs periods (k, slots, blocks))).
Proof.
  induction periods as [|p rest IH]; intros k slots blocks H; simpl.
  - exists k. assumption.
  - destruct (assign_loop_order pool fd
                (filter (in_period slots p) refs) pre k slots blocks H)
      as (k' & Hk & H').
    destruct (assign_loop pool fd (filter (in_period slots p) refs)
                (k, slots, blocks)) as [[k1 s1] b1].
    simpl in *. subst. now apply IH.
Qed.

(** X8. Learning blocks follow the frontier: the blocks that
    [scheduleLearningBlocks] returns are made, one each and in this
    order, from a first part of the nodes of magnitude 7 or more followed
    by a first part of the nodes of magnitude below 7, both in frontier
    order; no node is scheduled twice, nodes past the available slots
    stay unscheduled, and a node whose magnitude is not a number is in
    neither group. *)
Theorem X8_learning_blocks_follow_frontier
    (learningNodes : list node) (timeSlots : list slot)
    (periods : list period) (focusDuration : Z) :
  exists k1 k2,
    Forall2 block_of_node
      (firstn k1 (filter (fun n => geb (magnitude n) (Int 7)) learningNodes)
       ++ firstn k2 (filter (fun n => ltb (magnitude n) (Int 7)) learningNodes))
      (fst (scheduleLearningBlocks learningNodes timeSlots periods
                                   focusDuration)).
Proof.
  unfold scheduleLearningBlocks.
  set (pool1 := filter (fun n => geb (magnitude n) (Int 7)) learningNodes).
  set (pool2 := filter (fun n => ltb (magnitude n) (Int 7)) learningNodes).
  destruct (periods_loop_order pool1 focusDuration (available_refs timeSlots)
              periods [] 0%nat timeSlots [] (Forall2_nil _)) as (k1 & H1).
  destruct (periods_loop pool1 focusDuration (available_refs timeSlots)
              periods (0%nat, timeSlots, [])) as [[k0 s1] b1].
  simpl in H1. cbn [fst snd].
  match goal with
  | |- context [assign_loop pool2 focusDuration ?refs _] =>
      destruct (assign_loop_order pool2 focusDuration refs (firstn k1 pool1)
                  0%nat s1 b1) as (k2 & _ & H2)
  end.
  { simpl. now rewrite app_nil_r. }
  exists k1, k2. exact H2.
Qed.

Lemma habits_loop_shape (all : list habit) habits targets refs :
  forall slots blocks,
    incl habits all ->
    exists added,
      snd (habits_loop habits targets refs (slots, blocks)) = blocks ++ added
      /\ (List.length added <= Nat.min (List.length habits)
                                       (List.length targets))%nat
      /\ Forall (block_of_habit all) added.
Proof.
  revert targets.
  induction habits as [|hb hs IH]; intros targets slots blocks Hincl; simpl.
  - exists []. rewrite app_nil_r. repeat split; [simpl; lia|constructor].
  - destruct targets as [|target ts]; simpl.
    { exists []. rewrite app_nil_r. repeat split; [simpl; lia|constructor]. }
    assert (Hhs : incl hs all) by (intros x Hx; apply Hincl; now right).
    destruct (find _ refs) as [r|].
    + destruct (IH ts (mark_taken r slots)
                   (blocks ++ [habit_block hb (slot_at slots r)]) Hhs)
        as (added & Heq & Hlen & Hall).
      exists (habit_block hb (slot_at slots r) :: added).
      rewrite Heq, <- app_assoc. split; [reflexivity|].
      split; [simpl; lia|].
      constructor; [|assumption].
      repeat split. exists hb. repeat split. apply Hincl. now left.
    + destruct (IH ts slots blocks Hhs) as (added & Heq & Hlen & Hall).
      exists added. repeat split; try assumption. lia.
Qed.

(** X9. At most two habits are scheduled a day, and never more than
    there are habit nodes: the habit blocks are quarter-hour blocks of
    type habit, each with the id and title of one of the given habits;
    habits beyond the second, and habits for which no free slot lies
    within 30 minutes of the anchor, are dropped without an error. *)
Theorem X9_habit_blocks_at_most_two
    (habitNodes : list habit) (timeSlots : list slot) (cfg : config) :
  let blocks := fst (scheduleHabitBlocks habitNodes timeSlots cfg) in
  (List.length blocks <= 2)%nat /\
  (List.length blocks <= List.length habitNodes)%nat /\
  Forall (block_of_habit habitNodes) blocks.
Proof.
  unfold scheduleHabitBlocks. cbn [fst].
  match goal with
  | |- context [habits_loop habitNodes ?ts ?refs (timeSlots, [])] =>
      destruct (habits_loop_shape habitNodes habitNodes ts refs timeSlots []
                  (incl_refl _)) as (added & Heq & Hlen & Hall)
  end.
  rewrite Heq. simpl in *. repeat split; try assumption; lia.
Qed.

Lemma mark_taken_start (i r : nat) (slots : list slot) :
  start (slot_at (mark_taken i slots) r) = start (slot_at slots r).
Proof.
  unfold slot_at. revert i r.
  induction slots as [|s t IH]; intros i r; destruct i; simpl;
    try reflexivity.
  - destruct r; reflexivity.
  - destruct r; [reflexivity|apply IH].
Qed.

Lemma refs_from_valid {A : Type} (keep : A -> bool) (l : list A) :
  forall i r, In r (refs_from keep l i) ->
    (i <= r)%nat /\
    exists x, nth_error l (r - i) = Some x /\ keep x = true.
Proof.
  induction l as [|y t IH]; intros i r H; simpl in H; [contradiction|].
  assert (Htail : In r (refs_from keep t (S i)) ->
            (i <= r)%nat /\
            exists x, nth_error (y :: t) (r - i) = Some x /\ keep x = true).
  { intros Hin. destruct (IH _ _ Hin) as (Hle & x & Hx & Hk).
    split; [lia|]. exists x. split; [|assumption].
    replace (r - i)%nat with (S (r - S i)) by lia. exact Hx. }
  destruct (keep y) eqn:Hy; [|now apply Htail].
  destruct H as [<- | Hin]; [|now apply Htail].
  split; [lia|]. exists y. rewrite Nat.sub_diag. now split.
Qed.

Lemma available_refs_slot (slots : list slot) (r : nat) :
  In r (available_refs slots) ->
  In (slot_at slots r) slots /\ available (slot_at slots r) = true.
Proof.
  intros H. apply refs_from_valid in H. destruct H as (_ & x & Hx & Hk).
  rewrite Nat.sub_0_r in Hx. unfold slot_at.
  rewrite (nth_error_nth _ _ _ Hx). split; [|assumption].
  eapply nth_error_In; eassumption.
Qed.

Lemma evening_habit_dropped (habitNodes : list habit) (slots : list slot)
    (cfg : config) :
  Forall (fun s => available s = true -> wake_minutes cfg <= start s) slots ->
  sleep_minutes cfg <= wake_minutes cfg + 30 ->
  (List.length (fst (scheduleHabitBlocks habitNodes slots cfg)) <= 1)%nat.
Proof.
  intros Hslots Hsleep. unfold scheduleHabitBlocks. cbn [fst].
  destruct habitNodes as [|h1 rest]; [simpl; lia|].
  cbn [habits_loop].
  set (refs := available_refs slots).
  assert (Hnone : forall cur, (forall r, start (slot_at cur r)
                                         = start (slot_at slots r)) ->
            find (fun r => Z.abs (start (slot_at cur r)
                                  - (sleep_minutes cfg - 60)) <? 30) refs
            = None).
  { intros cur Hcur.
    destruct (find _ refs) as [r|] eqn:Hf; [|reflexivity].
    apply find_some in Hf. destruct Hf as [Hin Hp].
    apply available_refs_slot in Hin. destruct Hin as [Hin Hav].
    rewrite Forall_forall in Hslots. specialize (Hslots _ Hin Hav).
    rewrite Hcur in Hp. apply Z.ltb_lt in Hp. lia. }
  destruct (find _ refs) as [r0|].
  - destruct rest as [|h2 rest']; [simpl; lia|].
    cbn [habits_loop].
    rewrite (Hnone (mark_taken r0 slots)
               (fun r => mark_taken_start r0 r slots)).
    destruct rest'; simpl; lia.
  - destruct rest as [|h2 rest']; [simpl; lia|].
    cbn [habits_loop].
    rewrite (Hnone slots (fun r => eq_refl)).
    destruct rest'; simpl; lia.
Qed.

Lemma filter_none {A : Type} (f : A -> bool) (l : list A) :
  Forall (fun x => f x = false) l -> filter f l = [].
Proof.
  induction 1 as [|x t Hx _ IH]; simpl; [reflexivity|]. now rewrite Hx.
Qed.

Lemma filter_perm {A : Type} (f : A -> bool) (l l' : list A) :
  Permutation l l' -> Permutation (filter f l) (filter f l').
Proof.
  induction 1 as [|x l l' _ IH|x y l|l l' l'' _ IH1 _ IH2]; simpl.
  - constructor.
  - destruct (f x); [now constructor|assumption].
  - destruct (f x), (f y); try reflexivity. apply perm_swap.
  - now transitivity (filter f l').
Qed.

Section MidnightHabits.
Variable E : env.

(** X10. When the sleep time is not more than half an hour past the wake
    time on the clock, as in every window that crosses midnight, a
    schedule holds at most one habit block: the evening anchor is taken
    one hour before the sleep minute of the same day, where the window
    has no slot, so the second habit is dropped. *)
Theorem X10_evening_habit_dropped
    (cfg : config) (h : hta) (energy : Z) (focus : string) (w : world) :
  sleep_minutes cfg <= wake_minutes cfg + 30 ->
  exists s w',
    generateComprehensiveSchedule E cfg h energy focus w = (Ok s, w') /\
    (List.length (filter is_habit_block (time_blocks s)) <= 1)%nat.
Proof.
  intros Hsleep.
  destruct (generateComprehensiveSchedule_returns E cfg h energy focus w)
    as (s & w' & _ & _ & Hs & _).
  exists s, w'. split; [exact Hs|].
  destruct (generateComprehensiveSchedule_parts E _ _ _ _ _ _ _ Hs)
    as (fixedBlocks & w1 & structure & Hfix & Hstruct & Hblocks).
  cbv zeta in Hstruct, Hblocks.
  set (slots0 := createTimeSlots (wake_minutes cfg) (window_end cfg)
                                 fixedBlocks) in *.
  set (learning := scheduleLearningBlocks (ready_learning h) slots0
                     (identifyHighEnergyPeriods cfg) (focus_minutes cfg)) in *.
  set (habits := scheduleHabitBlocks (ready_habits h) (snd learning) cfg) in *.
  set (late := fun s0 : slot =>
                 available s0 = true -> wake_minutes cfg <= start s0).
  set (other := fun b : block => is_habit_block b = false).
  assert (Hslots0 : Forall late slots0).
  { apply Forall_forall. intros s0 Hin _.
    apply slots_loop_In in Hin. destruct Hin as (k & _ & -> & _).
    cbn [start]. lia. }
  assert (Hdefault : late (mkSlot 0 "" false)) by (intros H0; discriminate).
  assert (Htaken : forall s0, late s0 ->
                     late (mkSlot (start s0) (formatted_time s0) false))
    by (intros s0 _ H0; discriminate).
  destruct (scheduleLearningBlocks_inv late other Hdefault Htaken
              (fun n s0 fd _ => eq_refl)
              (ready_learning h) slots0 (identifyHighEnergyPeriods cfg)
              (focus_minutes cfg) Hslots0) as [HL1 HL2].
  fold learning in HL1, HL2.
  pose proof (evening_habit_dropped (ready_habits h) (snd learning) cfg
                HL2 Hsleep) as HH.
  fold habits in HH.
  assert (HS : Forall other structure).
  { apply (scheduleLifeStructure_inv E (fun _ => True) other I (fun _ _ => I)
             (fun _ _ _ => eq_refl) (fun _ _ _ _ => eq_refl)
             _ _ _ _ _ Hstruct).
    apply Forall_forall. intros; exact I. }
  assert (HF : Forall other fixedBlocks).
  { unfold scheduleFixedLifeStructure in Hfix.
    apply fixed_loop_meals in Hfix. destruct Hfix as (added & -> & Hall & _).
    simpl. eapply Forall_impl; [|exact Hall].
    intros b (i & m & index & -> & _). reflexivity. }
  rewrite Hblocks.
  rewrite (Permutation_length (filter_perm is_habit_block _ _
                                 (sort_perm by_time _))).
  rewrite !filter_app, !length_app.
  rewrite (filter_none _ _ HF), (filter_none _ _ HL1), (filter_none _ _ HS).
  cbn [List.length Nat.add].
  pose proof (filter_length_le is_habit_block (fst habits)). lia.
Qed.

End MidnightHabits.

Lemma X10_evening_habit_witness :
  exists s w',
    generateComprehensiveSchedule E0 cfg_day hta_one 3 "mixed" W_fresh
      = (Ok s, w') /\
    (List.length (filter is_habit_block (time_blocks s)) <= 1)%nat.
Proof.
  apply (X10_evening_habit_dropped E0 cfg_day hta_one 3 "mixed" W_fresh).
  simpl. lia.
Defined.

(** ** Opportunities and evolution *)

Section EvolutionLaws.
Variable E : env.

Lemma push_each_spec {A : Type} (mk : string -> A -> node) (l : list A) :
  forall acc w, exists added,
    push_each E mk l acc w
      = (Ok (acc ++ added),
         mkWorld (disk w) (drawn w + List.length l)) /\
    List.length added = List.length l /\
    Forall (fun n => exists i a, n = mk i a) added.
Proof.
  induction l as [|a l IH]; intros acc w; simpl.
  - exists []. rewrite app_nil_r, Nat.add_0_r. destruct w.
    repeat split. constructor.
  - rewrite (bind_step _ _ _ _ _ (generateId_step E w)).
    destruct (IH (acc ++ [mk (ids E (drawn w)) a])
                 (mkWorld (disk w) (S (drawn w)))) as (added & Heq & Hlen & Hall).
    exists (mk (ids E (drawn w)) a :: added).
    rewrite Heq, <- app_assoc. simpl.
    replace (S (drawn w + List.length l)) with (drawn w + S (List.length l))%nat
      by lia.
    repeat split; [lia|]. constructor; [eauto|assumption].
Qed.

Lemma feedback_loop_spec (t : task_view) (l : list feedback) :
  Forall accepted l ->
  forall acc w, exists added,
    feedback_loop E t l acc w
      = (Ok (acc ++ added),
         mkWorld (disk w) (drawn w + List.length added)) /\
    List.length added = List.length (filter interesting l) /\
    Forall (fun n => exists i f, n = external_opportunity t i f) added.
Proof.
  induction 1 as [|f l [b Hb] _ IH]; intros acc w; simpl.
  - exists []. rewrite app_nil_r, Nat.add_0_r. destruct w.
    repeat split. constructor.
  - unfold bind at 1, lift. unfold interesting at 1. rewrite Hb.
    destruct b.
    + rewrite (bind_step _ _ _ _ _ (generateId_step E w)).
      destruct (IH (acc ++ [external_opportunity t (ids E (drawn w)) f])
                   (mkWorld (disk w) (S (drawn w))))
        as (added & Heq & Hlen & Hall).
      exists (external_opportunity t (ids E (drawn w)) f :: added).
      rewrite Heq, <- app_assoc. simpl.
      replace (S (drawn w + List.length added))
        with (drawn w + S (List.length added))%nat by lia.
      repeat split; [lia|]. constructor; [eauto|assumption].
    + apply IH.
Qed.

(** X11. Whenever the feedback test accepts every entry, the detector
    returns one node for an engagement level of 8 or more, one per
    unexpected result, one per revealed skill and one per feedback entry
    the test finds interesting, and draws one identifier per node; every
    node is ready, carries a provenance tag and has the completed task as
    its only prerequisite; the disk is not touched. *)
Theorem X11_detector_emission_count
    (t : task_view) (ctx : context) (w : world) :
  Forall accepted (externalFeedback ctx) ->
  exists opportunities,
    detectEmergentOpportunities E t ctx w
      = (Ok opportunities,
         mkWorld (disk w) (drawn w + List.length opportunities)) /\
    List.length opportunities
      = ((if engagementLevel ctx >=? 8 then 1 else 0)
         + List.length (unexpectedResults ctx)
         + List.length (newSkillsRevealed ctx)
         + List.length (filter interesting (externalFeedback ctx)))%nat /\
    Forall (fun n => traceable n /\ prerequisites n = [v_id t]) opportunities.
Proof.
  intros Hacc. unfold detectEmergentOpportunities.
  set (first := if engagementLevel ctx >=? 8
                then [amplification (ids E (drawn w)) t] else []).
  assert (H1 : (if engagementLevel ctx >=? 8
                then i <- generateId E ;; ret [amplification i t]
                else ret []) w
               = (Ok first, mkWorld (disk w) (drawn w + List.length first))).
  { unfold first. destruct (engagementLevel ctx >=? 8); simpl.
    - unfold bind, generateId, ret. now rewrite Nat.add_1_r.
    - unfold ret. rewrite Nat.add_0_r. now destruct w. }
  rewrite (bind_step _ _ _ _ _ H1).
  destruct (push_each_spec (serendipity t) (unexpectedResults ctx) first
              (mkWorld (disk w) (drawn w + List.length first)))
    as (a2 & H2 & L2 & F2).
  rewrite (bind_step _ _ _ _ _ H2).
  match type of H2 with
  | _ = (_, ?w2) =>
      destruct (push_each_spec (hidden_talent t) (newSkillsRevealed ctx)
                  (first ++ a2) w2) as (a3 & H3 & L3 & F3)
  end.
  rewrite (bind_step _ _ _ _ _ H3).
  match type of H3 with
  | _ = (_, ?w3) =>
      destruct (feedback_loop_spec t (externalFeedback ctx) Hacc
                  ((first ++ a2) ++ a3) w3) as (a4 & H4 & L4 & F4)
  end.
  exists (((first ++ a2) ++ a3) ++ a4). rewrite H4. cbn [disk drawn].
  rewrite !length_app.
  split; [f_equal; f_equal; lia|]. split.
  - rewrite L2, L3, L4. unfold first.
    destruct (engagementLevel ctx >=? 8); simpl; lia.
  - repeat (apply Forall_app; split).
    + unfold first. destruct (engagementLevel ctx >=? 8);
        repeat constructor; discriminate.
    + eapply Forall_impl; [|exact F2]. intros n (i & a & ->).
      repeat split. discriminate.
    + eapply Forall_impl; [|exact F3]. intros n (i & a & ->).
      repeat split. discriminate.
    + eapply Forall_impl; [|exact F4]. intros n (i & a & ->).
      repeat split. discriminate.
Qed.

(** [findIndex] with [splice]: the first match leaves, the rest stays in
    order. *)
Lemma take_first_spec (p : node -> bool) (l : list node) :
  match take_first p l with
  | Some (n, rest) =>
      p n = true /\
      exists before behind,
        l = before ++ n :: behind /\ rest = before ++ behind /\
        Forall (fun m => p m = false) before
  | None => Forall (fun m => p m = false) l
  end.
Proof.
  induction l as [|x t IH]; simpl; [constructor|].
  destruct (p x) eqn:Hx.
  - split; [assumption|]. exists [], t. repeat split. constructor.
  - destruct (take_first p t) as [[n rest]|].
    + destruct IH as (Hn & before & behind & -> & -> & Hall).
      split; [assumption|]. exists (x :: before), behind.
      repeat split. now constructor.
    + now constructor.
Qed.

Lemma invalidate_nothing (frontier : list node) (t : task_view)
    (ctx : context) :
  unexpectedResults ctx = [] -> newSkillsRevealed ctx = [] ->
  shorterPathDiscovered ctx = false ->
  invalidateUnnecessaryTasks frontier t ctx = frontier.
Proof.
  intros Hu Hn Hs. unfold invalidateUnnecessaryTasks.
  rewrite Hu, Hn, Hs. simpl.
  induction frontier as [|n l IH]; simpl; [reflexivity|]. now rewrite IH.
Qed.

(** X12. A completion that reports nothing beyond its rating changes the
    frontier in three ways only: the completed node leaves (the first
    frontier node with the block's id, if there is one, appended to the
    completed list with the rating), a continuation task is added, with a
    research task behind it when a follow-up question was given, and the
    whole frontier is rebalanced.  No other node is dropped or added. *)
Theorem X12_plain_completion
    (h : hta) (completedBlock : block) (nextQuestions : string)
    (ctx : context) (w : world) :
  plain ctx ->
  let moved := move_completed E h completedBlock (difficultyRating ctx) in
  let follow_up :=
    if nonempty nextQuestions
    then [research (ids E (S (drawn w))) completedBlock nextQuestions]
    else [] in
  exists w',
    evolved_hta E h completedBlock nextQuestions ctx w
      = (Ok (mkHta (hta_north_star h)
                   (rebalance (difficultyRating ctx)
                      (fst moved
                       ++ continuation (ids E (drawn w)) completedBlock
                          :: follow_up))
                   (snd moved) (habit_nodes h) (Some (now_iso E))),
         w') /\
    disk w' = disk w.
Proof.
  intros (Heng & Hu & Hn & Hf & Hs) moved follow_up.
  unfold evolved_hta. fold moved. destruct moved as [frontier completed].
  rewrite (bind_step _ _ _ _ _ (generateId_step E w)).
  cbn [fst snd].
  assert (Hdetect : forall t w0, detectEmergentOpportunities E t ctx w0
                                 = (Ok [], w0)).
  { intros t w0. unfold detectEmergentOpportunities.
    rewrite Hu, Hn, Hf.
    destruct (engagementLevel ctx >=? 8) eqn:H8;
      [apply Z.geb_le in H8; lia|].
    reflexivity. }
  set (w1 := mkWorld (disk w) (S (drawn w))).
  set (c := continuation (ids E (drawn w)) completedBlock).
  assert (Hpush : exists w2,
            push_if E (nonempty nextQuestions)
              (fun j => research j completedBlock nextQuestions) [c] w1
            = (Ok (c :: follow_up), w2) /\ disk w2 = disk w).
  { unfold push_if, follow_up. destruct (nonempty nextQuestions).
    - eexists. split; reflexivity.
    - eexists. split; reflexivity. }
  destruct Hpush as (w2 & Hpush & Hdisk).
  rewrite (bind_step _ _ _ _ _ Hpush).
  rewrite (bind_step _ _ _ _ _ (Hdetect _ _)).
  rewrite invalidate_nothing by assumption.
  unfold ret. exists w2. split; [|exact Hdisk].
  now rewrite app_nil_r.
Qed.

Lemma move_completed_spec
    (h : hta) (completedBlock : block) (rating : Z) :
  let moved := move_completed E h completedBlock rating in
  match take_first (same_id completedBlock) (frontier_nodes h) with
  | Some (n, rest) =>
      id n = b_id completedBlock /\
      fst moved = rest /\
      snd moved = completed_nodes h ++ [mkCompleted n (now_iso E) rating] /\
      exists before behind,
        frontier_nodes h = before ++ n :: behind /\
        rest = before ++ behind /\
        Forall (fun m => id m <> b_id completedBlock) before
  | None =>
      moved = (frontier_nodes h, completed_nodes h) /\
      Forall (fun m => id m <> b_id completedBlock) (frontier_nodes h)
  end.
Proof.
  intros moved. unfold moved, move_completed.
  change (fun n : node => String.eqb (id n) (b_id completedBlock))
    with (same_id completedBlock).
  pose proof (take_first_spec (same_id completedBlock) (frontier_nodes h)) as H.
  assert (Hneq : forall l, Forall (fun m => same_id completedBlock m = false) l
                           -> Forall (fun m => id m <> b_id completedBlock) l).
  { intros l Hl. eapply Forall_impl; [|exact Hl].
    intros m Hm. now apply String.eqb_neq. }
  destruct (take_first (same_id completedBlock) (frontier_nodes h))
    as [[n rest]|].
  - destruct H as (Hn & before & behind & Hl & Hr & Hall).
    apply String.eqb_eq in Hn. repeat split; try assumption.
    exists before, behind. repeat split; try assumption. now apply Hneq.
  - split; [reflexivity|now apply Hneq].
Qed.


(** X13. The completed list only grows, and by the completed node alone:
    when a frontier node has the block's id, the first such node leaves
    the frontier, the nodes before and behind it keep their order, and it
    is appended to the completed list with the time and the rating of the
    completion; when none has, frontier and completed list are moved on
    as they are. *)
Theorem X13_completed_append_only
    (h : hta) (completedBlock : block) (rating : Z) :
  let moved := move_completed E h completedBlock rating in
  match take_first (same_id completedBlock) (frontier_nodes h) with
  | Some (n, rest) =>
      id n = b_id completedBlock /\
      fst moved = rest /\
      snd moved = completed_nodes h ++ [mkCompleted n (now_iso E) rating] /\
      exists before behind,
        frontier_nodes h = before ++ n :: behind /\
        rest = before ++ behind /\
        Forall (fun m => id m <> b_id completedBlock) before
  | None =>
      moved = (frontier_nodes h, completed_nodes h) /\
      Forall (fun m => id m <> b_id completedBlock) (frontier_nodes h)
  end.
Proof. apply move_completed_spec. Qed.

End EvolutionLaws.

Lemma Forall2_In_left {A B : Type} (R : A -> B -> Prop) (l : list A)
    (l' : list B) (x : A) :
  Forall2 R l l' -> In x l -> exists y, In y l' /\ R x y.
Proof.
  induction 1 as [|a b l l' Hab _ IH]; intros Hin; [contradiction|].
  destruct Hin as [<- | Hin].
  - exists b. split; [now left|assumption].
  - destruct (IH Hin) as (y & Hy & HR). exists y. split; [now right|assumption].
Qed.

Section UnlockLaws.
Variable E : env.

(** X14. Completing a frontier task unlocks its continuation: when a
    frontier node has the block's id and no learning path is active, the
    evolved tree holds a ready continuation task (provenance
    "task_completion") whose only prerequisite is the block's id, and the
    filter of [getNextTask] accepts it on the evolved tree. *)
Theorem X14_completion_unlocks_continuation
    (cfg : config) (hist : history) (h : hta) (completedBlock : block)
    (nextQuestions : string) (ctx : context) (w : world) :
  Forall accepted (externalFeedback ctx) ->
  existsb (same_id completedBlock) (frontier_nodes h) = true ->
  truthy (active_learning_path cfg) = None ->
  exists h' w' c,
    evolved_hta E h completedBlock nextQuestions ctx w = (Ok h', w') /\
    In c (frontier_nodes h') /\
    generated_from c = Some "task_completion" /\
    prerequisites c = [b_id completedBlock] /\
    is_ready cfg h' hist c = true.
Proof.
  intros Hacc Hex Hpath. unfold evolved_hta.
  pose proof (move_completed_spec E h completedBlock
                (difficultyRating ctx)) as Hmove.
  cbv zeta in Hmove.
  destruct (take_first (same_id completedBlock) (frontier_nodes h))
    as [[n rest]|].
  2:{ destruct Hmove as [_ Hnone]. apply existsb_exists in Hex.
      destruct Hex as (m & Hin & Hm). rewrite Forall_forall in Hnone.
      apply String.eqb_eq in Hm. now elim (Hnone m Hin). }
  destruct Hmove as (Hid & Hfst & Hsnd & _).
  destruct (move_completed E h completedBlock (difficultyRating ctx))
    as [frontier completed]. simpl in Hfst, Hsnd. subst frontier completed.
  rewrite (bind_step _ _ _ _ _ (generateId_step E w)).
  set (c := continuation (ids E (drawn w)) completedBlock).
  assert (Hpush : exists t w1,
            push_if E (nonempty nextQuestions)
              (fun j => research j completedBlock nextQuestions) [c]
              (mkWorld (disk w) (S (drawn w))) = (Ok (c :: t), w1)).
  { unfold push_if. destruct (nonempty nextQuestions).
    - eexists _, _. reflexivity.
    - eexists [], _. reflexivity. }
  destruct Hpush as (t1 & w1 & H1). rewrite (bind_step _ _ _ _ _ H1).
  match goal with
  | |- context [detectEmergentOpportunities E ?t ctx] =>
      destruct (detect_returns E t ctx w1 Hacc) as (opps & w2 & H2)
  end.
  rewrite (bind_step _ _ _ _ _ H2). unfold ret.
  match goal with
  | |- context [rebalance ?r ?l] =>
      destruct (Forall2_In_left _ _ _ c (rebalance_Forall2 r l))
        as (c' & Hin & Hc' & _)
  end.
  { apply in_or_app. right. simpl. now left. }
  eexists _, _, c'. split; [reflexivity|]. split; [exact Hin|].
  rewrite Hc'. split; [reflexivity|]. split; [reflexivity|].
  unfold is_ready. simpl. rewrite Hpath.
  unfold prereq_met. rewrite map_app. simpl.
  rewrite existsb_app. simpl. rewrite Hid, String.eqb_refl.
  now rewrite orb_true_r.
Qed.

End UnlockLaws.

(** ** Selection *)

Lemma sort_head {A : Type} (compare : A -> A -> num) (x : A) (l : list A) :
  hd_error (sort compare (x :: l))
  = match hd_error (sort compare l) with
    | Some y => if gtb (compare x y) (Int 0) then Some y else Some x
    | None => Some x
    end.
Proof.
  simpl. destruct (sort compare l) as [|y t]; simpl; [reflexivity|].
  now destruct (gtb (compare x y) (Int 0)).
Qed.

Lemma selectOptimalTask_cons (x : node) (l : list node) (ctx : string) :
  selectOptimalTask (x :: l) ctx
  = match selectOptimalTask l ctx with
    | Some y => if score ctx y >? score ctx x then Some y else Some x
    | None => Some x
    end.
Proof.
  unfold selectOptimalTask.
  set (cmp := fun a b : node * Z => Int (snd b - snd a)).
  set (f := fun n => (n, score ctx n)).
  assert (Hhd : forall l0, match sort cmp (map f l0) with
                           | (n, _) :: _ => Some n
                           | [] => None
                           end
                           = option_map fst (hd_error (sort cmp (map f l0)))).
  { intros l0. destruct (sort cmp (map f l0)) as [|[n z] t]; reflexivity. }
  rewrite !Hhd. change (map f (x :: l)) with (f x :: map f l).
  rewrite sort_head.
  assert (Hsnd : forall y, hd_error (sort cmp (map f l)) = Some y ->
                           snd y = score ctx (fst y)).
  { intros y Hy.
    assert (Hin : In y (map f l)).
    { apply (Permutation_in _ (sort_perm cmp (map f l))).
      destruct (sort cmp (map f l)); inversion Hy; subst. now left. }
    apply in_map_iff in Hin. destruct Hin as (n & <- & _). reflexivity. }
  destruct (hd_error (sort cmp (map f l))) as [y|]; [|reflexivity].
  simpl. rewrite (Hsnd y eq_refl).
  destruct (Z.gtb_spec (score ctx (fst y)) (score ctx x)),
           (Z.gtb_spec (score ctx (fst y) - score ctx x) 0);
    try reflexivity; lia.
Qed.

Lemma selectOptimalTask_spec
    (nodes : list node) (contextFromMemory : string) :
  match selectOptimalTask nodes contextFromMemory with
  | Some n =>
      exists before behind,
        nodes = before ++ n :: behind /\
        Forall (fun m => score contextFromMemory m
                         < score contextFromMemory n) before /\
        Forall (fun m => score contextFromMemory m
                         <= score contextFromMemory n) behind
  | None => nodes = []
  end.
Proof.
  induction nodes as [|x l IH]; [reflexivity|].
  rewrite selectOptimalTask_cons.
  destruct (selectOptimalTask l contextFromMemory) as [y|].
  - destruct IH as (before & behind & -> & Hb & Ha).
    destruct (Z.gtb_spec (score contextFromMemory y)
                         (score contextFromMemory x)) as [Hgt|Hle].
    + exists (x :: before), behind. repeat split; try assumption.
      constructor; [lia|assumption].
    + exists [], (before ++ y :: behind). repeat split; [constructor|].
      apply Forall_app. split.
      * eapply Forall_impl; [|exact Hb]. intros m Hm. simpl in Hm. lia.
      * constructor; [lia|].
        eapply Forall_impl; [|exact Ha]. intros m Hm. simpl in Hm. lia.
  - subst l. exists [], []. repeat split; constructor.
Qed.

(** X15. [selectOptimalTask] returns the first node of highest score:
    every node before it scores strictly less and none behind it scores
    more; it answers nothing only for an empty list. *)
Theorem X15_selectOptimalTask_first_maximum
    (nodes : list node) (contextFromMemory : string) :
  match selectOptimalTask nodes contextFromMemory with
  | Some n =>
      exists before behind,
        nodes = before ++ n :: behind /\
        Forall (fun m => score contextFromMemory m
                         < score contextFromMemory n) before /\
        Forall (fun m => score contextFromMemory m
                         <= score contextFromMemory n) behind
  | None => nodes = []
  end.
Proof. apply selectOptimalTask_spec. Qed.

Lemma In_firstn {A : Type} (n : nat) (l : list A) (x : A) :
  In x (firstn n l) -> In x l.
Proof.
  intros H. rewrite <- (firstn_skipn n l). apply in_or_app. now left.
Qed.

Section SelectionLaws.
Variable E : env.

Lemma push_if_ready (c : bool) (mk : string -> node) (l : list node) w r w' :
  push_if E c mk l w = (Ok r, w') ->
  (forall i, is_Ready (mk i)) -> Forall is_Ready l ->
  Forall is_Ready r /\ disk w' = disk w /\ exists t, r = l ++ t.
Proof.
  unfold push_if. intros H Hmk Hl. destruct c.
  - inversion H; subst. split; [|split; [reflexivity|eauto]].
    apply Forall_app. split; [assumption|]. constructor; [apply Hmk|constructor].
  - inversion H; subst. split; [assumption|]. split; [reflexivity|].
    exists []. now rewrite app_nil_r.
Qed.

(** What [generateAdaptiveTasks] does to the disk: nothing, or it adds
    ready tasks to the project tree. *)
Lemma generateAdaptiveTasks_effect hist ctx w r w' :
  generateAdaptiveTasks E hist ctx w = (r, w') ->
  disk w' = disk w \/
  (can_write E HtaJson = false /\ disk w' = logged E HtaJson (disk w)) \/
  exists h added,
    hta_json (disk w) = Some h /\ added <> [] /\ Forall is_Ready added /\
    disk w' = put_hta (with_frontier h (frontier_nodes h ++ added)
                                     (Some (now_iso E))) (disk w).
Proof.
  unfold generateAdaptiveTasks. intros H.
  unfold bind at 1, load at 1 in H. unfold bind at 1, load at 1 in H.
  destruct (hta_json (disk w)) as [h|] eqn:Hh;
    [|inversion H; subst; now left].
  destruct (config_json (disk w)) as [c|];
    [|inversion H; subst; now left].
  set (fd := parseTimeAvailable (Some (or_str (focus_duration c) "25 minutes")))
    in H.
  destruct (push_if_returns E (fd <=? 10) (fun i => micro_review i c fd) [] w)
    as (t1 & w1 & H1).
  rewrite (bind_step _ _ _ _ _ H1) in H.
  destruct (push_if_ready _ _ _ _ _ _ H1 (fun i => eq_refl) (Forall_nil _))
    as (R1 & D1 & _).
  destruct (push_if_returns E (fd <=? 10) (fun i => micro_concept i fd) t1 w1)
    as (t2 & w2 & H2).
  rewrite (bind_step _ _ _ _ _ H2) in H.
  destruct (push_if_ready _ _ _ _ _ _ H2 (fun i => eq_refl) R1) as (R2 & D2 & _).
  match type of H with
  | context [push_if E ?cnd ?mk t2] =>
      destruct (push_if_returns E cnd mk t2 w2) as (t3 & w3 & H3)
  end.
  rewrite (bind_step _ _ _ _ _ H3) in H.
  destruct (push_if_ready _ _ _ _ _ _ H3 (fun i => eq_refl) R2) as (R3 & D3 & _).
  match type of H with
  | context [push_if E ?cnd ?mk t3] =>
      destruct (push_if_returns E cnd mk t3 w3) as (t4 & w4 & H4)
  end.
  rewrite (bind_step _ _ _ _ _ H4) in H.
  destruct (push_if_ready _ _ _ _ _ _ H4 (fun i => eq_refl) R3) as (R4 & D4 & _).
  assert (H5 : exists t5 w5,
            match List.last (map Some (knowledge_gaps hist)) None with
            | Some recentGap =>
                push_if E (nonempty ctx) (fun i => explore_gap i recentGap) t4
            | None => ret t4
            end w4 = (Ok t5, w5) /\ Forall is_Ready t5 /\ disk w5 = disk w4).
  { destruct (List.last (map Some (knowledge_gaps hist)) None) as [g|].
    - destruct (push_if_returns E (nonempty ctx)
                  (fun i => explore_gap i g) t4 w4) as (t5 & w5 & H5).
      destruct (push_if_ready _ _ _ _ _ _ H5 (fun i => eq_refl) R4)
        as (R5 & D5 & _).
      eauto.
    - exists t4, w4. repeat split. assumption. }
  destruct H5 as (t5 & w5 & H5 & R5 & D5).
  rewrite (bind_step _ _ _ _ _ H5) in H.
  assert (Hdisk : disk w5 = disk w) by congruence.
  destruct t5 as [|n5 t5].
  - inversion H; subst. now left.
  - match type of H with
    | bind (save E HtaJson ?put) _ _ = _ =>
        destruct (save E HtaJson put w5) as [saved w6] eqn:Hsave
    end.
    unfold bind in H. rewrite Hsave in H.
    apply save_cases in Hsave.
    destruct Hsave as [(Hw & -> & ->) | (Hw & -> & ->)];
      inversion H; subst; clear H; simpl; rewrite Hdisk.
    + right. right. exists h, (n5 :: t5).
      split; [reflexivity|]. split; [discriminate|].
      split; [assumption|reflexivity].
    + right. left. split; [assumption | reflexivity].
Qed.

Lemma generateSmartNextTasks_ready cfg hist w :
  exists tasks w',
    generateSmartNextTasks E cfg hist w = (Ok tasks, w') /\
    disk w' = disk w /\ Forall is_Ready tasks /\
    Forall (fun n => prerequisites n = []) tasks /\
    (List.length tasks <= 3)%nat.
Proof.
  unfold generateSmartNextTasks.
  assert (H1 : exists t1 w1,
            match List.last (map Some (completed_topics hist)) None with
            | Some lastTopic => i <- generateId E ;; ret [build_on i lastTopic]
            | None => ret []
            end w = (Ok t1, w1) /\ disk w1 = disk w /\
            Forall (fun n => is_Ready n /\ prerequisites n = []) t1).
  { destruct (List.last (map Some (completed_topics hist)) None).
    - eexists _, _. split; [reflexivity|]. split; [reflexivity|].
      repeat constructor.
    - eexists _, _. split; [reflexivity|]. split; [reflexivity|].
      constructor. }
  destruct H1 as (t1 & w1 & H1 & D1 & R1).
  rewrite (bind_step _ _ _ _ _ H1).
  destruct (push_each_spec E progress_toward (specific_interests cfg) t1 w1)
    as (added & H2 & _ & Hall).
  rewrite (bind_step _ _ _ _ _ H2). unfold ret.
  eexists _, _. split; [reflexivity|]. split; [exact D1|].
  assert (Hboth : Forall (fun n => is_Ready n /\ prerequisites n = [])
                         (firstn 3 (t1 ++ added))).
  { apply Forall_forall. intros n Hn. apply In_firstn in Hn.
    apply in_app_or in Hn. rewrite Forall_forall in R1, Hall.
    destruct Hn as [Hn|Hn]; [now apply R1|].
    destruct (Hall n Hn) as (i & a & ->). split; reflexivity. }
  split; [|split].
  - eapply Forall_impl; [|exact Hboth]. now intros n [].
  - eapply Forall_impl; [|exact Hboth]. now intros n [].
  - apply firstn_le_length.
Qed.

Lemma is_ready_Ready cfg h hist n : is_ready cfg h hist n = true -> is_Ready n.
Proof.
  unfold is_ready, is_Ready.
  destruct (status_eqb (node_status n) Ready) eqn:Hs; [|discriminate].
  intros _. now apply status_eqb_Ready.
Qed.

(** The candidates are ready nodes; without candidates no file of the
    project was written: at most the failed save of generated tasks was
    logged. *)
Lemma ready_or_generated_spec cfg h hist ctx w r w' :
  ready_or_generated E cfg h hist ctx w = (Ok r, w') ->
  match r with
  | Some candidates => candidates <> [] /\ Forall is_Ready candidates
  | None =>
      disk w' = disk w
      \/ (can_write E HtaJson = false /\ disk w' = logged E HtaJson (disk w))
  end.
Proof.
  unfold ready_or_generated. intros H.
  destruct (filter (is_ready cfg h hist) (frontier_nodes h)) as [|n0 l0] eqn:Hf.
  2:{ inversion H; subst. split; [discriminate|].
      rewrite <- Hf. apply Forall_forall. intros n Hn.
      apply filter_In in Hn. eapply is_ready_Ready. apply Hn. }
  bind_inv H. apply generateAdaptiveTasks_effect in Hstep.
  bind_inv H. apply load_ok in Hstep0. destruct Hstep0 as [-> ->].
  destruct (hta_json (disk w0)) as [updated|] eqn:Hu; [|discriminate].
  set (ready := fun n => status_eqb (node_status n) Ready) in *.
  destruct (filter ready (frontier_nodes updated)) as [|n1 l1] eqn:Hnew.
  2:{ inversion H; subst. split; [discriminate|].
      rewrite <- Hnew. apply Forall_forall. intros n Hn.
      apply filter_In in Hn. destruct Hn as [_ Hn].
      now apply status_eqb_Ready. }
  assert (Hdisk : disk w0 = disk w
                  \/ (can_write E HtaJson = false
                      /\ disk w0 = logged E HtaJson (disk w))).
  { destruct Hstep as [Hd | [Hd | (h0 & added & Hh0 & Hne & Hready & Hd)]];
      [now left | now right |].
    exfalso. rewrite Hd in Hu. simpl in Hu. inversion Hu; subst updated.
    simpl in Hnew. rewrite filter_app in Hnew.
    apply app_eq_nil in Hnew. destruct Hnew as [_ Hnew].
    destruct added as [|a0 added]; [congruence|].
    inversion Hready as [|? ? Ha0 _]; subst. simpl in Hnew.
    unfold ready at 1 in Hnew. unfold is_Ready in Ha0.
    rewrite Ha0 in Hnew. discriminate. }
  destruct (generateSmartNextTasks_ready cfg hist w0)
    as (tasks & w1 & Hsmart & D1 & R1 & _).
  rewrite (bind_step _ _ _ _ _ Hsmart) in H.
  destruct tasks as [|t0 tasks].
  - inversion H; subst. rewrite D1. exact Hdisk.
  - bind_inv H. inversion H; subst. split; [discriminate|assumption].
Qed.

Lemma filter_nil_false {A : Type} (f : A -> bool) (l : list A) :
  filter f l = [] -> Forall (fun x => f x = false) l.
Proof.
  induction l as [|x t IH]; simpl; intros H; [constructor|].
  destruct (f x) eqn:Hx; [discriminate|]. constructor; auto.
Qed.

Lemma magnitude_compare (a b : node) :
  numbered a -> numbered b ->
  sub (magnitude a) (magnitude b) = Int (magnitude_key a - magnitude_key b).
Proof.
  intros [x Hx] [y Hy]. unfold magnitude_key. now rewrite Hx, Hy.
Qed.

(** The inversion of a [getNextTask] that selected a task: the
    candidates it chose from. *)
Lemma getNextTask_selected ctx energy timeAvailable w t w' :
  getNextTask E ctx energy timeAvailable w = (Ok (NextTask t), w') ->
  exists cfg h candidates w1,
    config_json (disk w) = Some cfg /\
    tree_read (disk w) (or_str (active_learning_path cfg) "general")
      = Some h /\
    ready_or_generated E cfg h
      (history_read (disk w) (or_str (active_learning_path cfg) "general"))
      ctx w = (Ok (Some candidates), w1) /\
    candidates <> [] /\ Forall is_Ready candidates /\
    selectOptimalTask
      (match filter (fits timeAvailable energy) candidates with
       | [] => firstn 1 (sort (fun a b => sub (magnitude a) (magnitude b))
                              candidates)
       | _ => filter (fits timeAvailable energy) candidates
       end) ctx = Some t.
Proof.
  intros H. unfold getNextTask in H.
  bind_inv H. apply requireActiveProject_ok in Hstep. subst.
  bind_inv H. apply load_ok in Hstep. destruct Hstep as [-> ->].
  destruct (config_json (disk w)) as [cfg|] eqn:Hcfg; [|discriminate].
  bind_inv H. apply load_ok in Hstep. destruct Hstep as [-> ->].
  bind_inv H. apply load_ok in Hstep. destruct Hstep as [-> ->].
  fold (tree_read (disk w) (or_str (active_learning_path cfg) "general"))
    in H.
  fold (history_read (disk w) (or_str (active_learning_path cfg) "general"))
    in H.
  destruct (tree_read (disk w) (or_str (active_learning_path cfg) "general"))
    as [h|] eqn:Htree; [|discriminate].
  bind_inv H.
  match type of Hstep with
  | _ = (Ok ?x, ?y) => rename x into found; rename y into wmid
  end.
  destruct found as [candidates|]; [|discriminate].
  pose proof (ready_or_generated_spec _ _ _ _ _ _ _ Hstep) as [Hne Hready].
  exists cfg, h, candidates, wmid.
  split; [reflexivity|]. split; [exact Htree|]. split; [exact Hstep|].
  split; [assumption|]. split; [assumption|].
  change (fun n : node =>
            (parseTimeAvailable (Some (estimated_time n))
               <=? parseTimeAvailable (Some timeAvailable))
            && (energyRequired n <=? energy))
    with (fits timeAvailable energy) in H.
  destruct (selectOptimalTask _ ctx) as [nextTask|] eqn:Hsel; [|discriminate].
  bind_inv H. inversion H; subst. reflexivity.
Qed.

(** X16. [getNextTask] selects from the candidates it computed on the
    tree and the history of the active path (the nodes that pass its
    filter, or the refill): the selected task is one of them and is
    ready, and it respects the time budget and the energy level whenever
    some candidate does; otherwise no candidate fits, and the selected
    task is of the smallest magnitude among the candidates when all
    their magnitudes are numbers. *)
Theorem X16_selected_task_ready_and_fitting
    (contextFromMemory : string) (energyLevel : Z) (timeAvailable : string)
    (w w' : world) (t : node) :
  getNextTask E contextFromMemory energyLevel timeAvailable w
    = (Ok (NextTask t), w') ->
  exists cfg h candidates w1,
    config_json (disk w) = Some cfg /\
    tree_read (disk w) (or_str (active_learning_path cfg) "general")
      = Some h /\
    ready_or_generated E cfg h
      (history_read (disk w) (or_str (active_learning_path cfg) "general"))
      contextFromMemory w = (Ok (Some candidates), w1) /\
    In t candidates /\
    node_status t = Ready /\
    (fits timeAvailable energyLevel t = true \/
     Forall (fun n => fits timeAvailable energyLevel n = false) candidates /\
     (Forall numbered candidates ->
      Forall (fun n => magnitude_key t <= magnitude_key n) candidates)).
Proof.
  intros H. apply getNextTask_selected in H.
  destruct H as (cfg & h & candidates & w1 & Hcfg & Htree & Hrun
                 & Hne & Hready & Hsel).
  exists cfg, h, candidates, w1.
  split; [exact Hcfg|]. split; [exact Htree|]. split; [exact Hrun|].
  rewrite Forall_forall in Hready.
  destruct (filter (fits timeAvailable energyLevel) candidates)
    as [|s0 suitable] eqn:Hfit.
  - set (cmp := fun a b : node => sub (magnitude a) (magnitude b)) in *.
    pose proof (selectOptimalTask_spec (firstn 1 (sort cmp candidates))
                  contextFromMemory) as Hspec.
    rewrite Hsel in Hspec. destruct Hspec as (before & behind & Heq & _).
    assert (Hhead : exists rest, sort cmp candidates = t :: rest).
    { destruct (sort cmp candidates) as [|x rest]; simpl in Heq.
      - destruct before; discriminate.
      - destruct before as [|b0 before]; simpl in Heq.
        + inversion Heq; subst. eauto.
        + inversion Heq as [[Hb Hnil]]. destruct before; discriminate. }
    destruct Hhead as (rest & Hsort).
    assert (Hin : In t candidates).
    { apply (Permutation_in _ (sort_perm cmp candidates)).
      rewrite Hsort. now left. }
    split; [assumption|]. split; [now apply Hready|]. right.
    split; [now apply filter_nil_false|].
    intros Hnum.
    pose proof (sort_sorted cmp magnitude_key numbered magnitude_compare
                  candidates Hnum) as Hsorted.
    rewrite Hsort in Hsorted. apply StronglySorted_inv in Hsorted.
    destruct Hsorted as [_ Hle].
    eapply Permutation_Forall; [apply sort_perm|]. rewrite Hsort.
    constructor; [lia|exact Hle].
  - pose proof (selectOptimalTask_spec (s0 :: suitable) contextFromMemory)
      as Hspec.
    rewrite Hsel in Hspec. destruct Hspec as (before & behind & Heq & _).
    assert (Hin : In t (filter (fits timeAvailable energyLevel) candidates)).
    { rewrite Hfit, Heq. apply in_or_app. right. now left. }
    apply filter_In in Hin. destruct Hin as [Hin Hf].
    split; [assumption|]. split; [now apply Hready|]. now left.
Qed.

(** X17. The "sequence stuck" answer writes no file of the project:
    the disk is as before, except that when a task was generated on the
    way and hta.json could not be written, the failed save is logged in
    error.log (one line, if the log can be written).  With a writable
    hta.json nothing at all is written: tasks that were generated and
    saved are always candidates. *)
Theorem X17_stuck_writes_no_project_file
    (contextFromMemory : string) (energyLevel : Z) (timeAvailable : string)
    (w w' : world) :
  getNextTask E contextFromMemory energyLevel timeAvailable w
    = (Ok SequenceStuck, w') ->
  same_files (disk w) (disk w') /\
  (disk w' = disk w
   \/ (can_write E HtaJson = false /\ disk w' = logged E HtaJson (disk w))).
Proof.
  intros H. unfold getNextTask in H.
  bind_inv H. apply requireActiveProject_ok in Hstep. subst.
  bind_inv H. apply load_ok in Hstep. destruct Hstep as [-> ->].
  destruct (config_json (disk w)) as [cfg|]; [|discriminate].
  bind_inv H. apply load_ok in Hstep. destruct Hstep as [-> ->].
  bind_inv H. apply load_ok in Hstep. destruct Hstep as [-> ->].
  match type of H with
  | context [match ?x with Some _ => _ | None => throw _ end] =>
      destruct x as [h|]; [|discriminate]
  end.
  bind_inv H. apply ready_or_generated_spec in Hstep.
  destruct a0 as [candidates|].
  - destruct (selectOptimalTask _ contextFromMemory); [|discriminate].
    bind_inv H. discriminate.
  - inversion H; subst. split; [|exact Hstep].
    destruct Hstep as [-> | [_ ->]].
    + unfold same_files. repeat split.
    + apply logged_same_files.
Qed.

End SelectionLaws.

(** ** What the operations leave alone *)

Section Preservation.
Variable E : env.
Context {B : Type}.
Variable part : store -> B.
Hypothesis keeps_log : forall e s, part (log_error e s) = part s.

Lemma preserves_ret {A : Type} (a : A) : preserves part (ret a).
Proof. intros w r w' H. now inversion H. Qed.

Lemma preserves_throw {A : Type} (msg : string) : preserves part (@throw A msg).
Proof. intros w r w' H. now inversion H. Qed.

Lemma preserves_load {A : Type} (get : store -> A) : preserves part (load get).
Proof. intros w r w' H. now inversion H. Qed.

Lemma preserves_lift {A : Type} (o : outcome A) : preserves part (lift o).
Proof. intros w r w' H. now inversion H. Qed.

Lemma preserves_generateId : preserves part (generateId E).
Proof. intros w r w' H. now inversion H. Qed.

Lemma preserves_requireActiveProject : preserves part requireActiveProject.
Proof.
  intros w r w' H. unfold requireActiveProject in H.
  destruct (active_project (disk w)) as [[|c p]|]; now inversion H.
Qed.

Lemma preserves_save (f : file) (put : store -> store) :
  (forall s, part (put s) = part s) -> preserves part (save E f put).
Proof.
  intros Hput w r w' H. apply save_cases in H.
  destruct H as [(_ & _ & ->) | (_ & _ & ->)]; simpl; [apply Hput|].
  unfold logged. destruct (can_write E ErrorLog); [apply keeps_log | reflexivity].
Qed.

Lemma preserves_bind {A C : Type} (m : M A) (k : A -> M C) :
  preserves part m -> (forall a, preserves part (k a)) ->
  preserves part (bind m k).
Proof.
  intros Hm Hk w r w' H. unfold bind in H.
  destruct (m w) as [[a|msg] w1] eqn:Hmw.
  - rewrite (Hk a _ _ _ H). exact (Hm _ _ _ Hmw).
  - inversion H; subst. exact (Hm _ _ _ Hmw).
Qed.

Lemma preserves_push_if (c : bool) (mk : string -> node) (l : list node) :
  preserves part (push_if E c mk l).
Proof.
  unfold push_if. destruct c; [|apply preserves_ret].
  apply preserves_bind; [apply preserves_generateId|].
  intros; apply preserves_ret.
Qed.

Lemma preserves_push_each {A : Type} (mk : string -> A -> node) (l : list A) :
  forall acc, preserves part (push_each E mk l acc).
Proof.
  induction l as [|a l IH]; intros acc; simpl; [apply preserves_ret|].
  apply preserves_bind; [apply preserves_generateId | intros; apply IH].
Qed.

Lemma preserves_feedback_loop (t : task_view) (l : list feedback) :
  forall acc, preserves part (feedback_loop E t l acc).
Proof.
  induction l as [|f l IH]; intros acc; simpl; [apply preserves_ret|].
  apply preserves_bind; [apply preserves_lift|]. intros [|]; [|apply IH].
  apply preserves_bind; [apply preserves_generateId | intros; apply IH].
Qed.

(** Go through a computation made of the steps above. *)
Ltac preserved :=
  repeat first
    [ apply preserves_ret | apply preserves_throw | apply preserves_load
    | apply preserves_lift | apply preserves_generateId
    | apply preserves_requireActiveProject
    | apply preserves_push_if | apply preserves_push_each
    | apply preserves_feedback_loop
    | apply preserves_save; solve [auto]
    | apply preserves_bind; [|intro]
    | match goal with
      | |- preserves _ (match ?x with _ => _ end) => destruct x
      | |- preserves _ (let (_, _) := ?x in _) => destruct x
      end ].

Lemma preserves_detect (t : task_view) (ctx : context) :
  preserves part (detectEmergentOpportunities E t ctx).
Proof. unfold detectEmergentOpportunities. preserved. Qed.

Lemma preserves_evolved_hta h b nq ctx :
  preserves part (evolved_hta E h b nq ctx).
Proof.
  unfold evolved_hta. preserved.
Qed.

Hypothesis keeps_hta : forall h s, part (put_hta h s) = part s.
Hypothesis keeps_path_hta : forall p h s, part (put_path_hta p h s) = part s.
Hypothesis keeps_history : forall h s, part (put_history h s) = part s.
Hypothesis keeps_config : forall c s, part (put_config c s) = part s.

Lemma preserves_evolve b learned nq ctx :
  preserves part (evolveHTABasedOnLearning E b learned nq ctx).
Proof.
  unfold evolveHTABasedOnLearning, getActiveHTA. preserved.
  all: try apply preserves_evolved_hta.
  all: apply preserves_bind; [apply preserves_evolved_hta | intro]; preserved.
Qed.

Lemma preserves_generateAdaptiveTasks hist ctx :
  preserves part (generateAdaptiveTasks E hist ctx).
Proof. unfold generateAdaptiveTasks. preserved. Qed.

Lemma preserves_generateSmartNextTasks cfg hist :
  preserves part (generateSmartNextTasks E cfg hist).
Proof. unfold generateSmartNextTasks. preserved. Qed.

Lemma preserves_ready_or_generated cfg h hist ctx :
  preserves part (ready_or_generated E cfg h hist ctx).
Proof.
  unfold ready_or_generated.
  destruct (filter _ (frontier_nodes h)); [|apply preserves_ret].
  apply preserves_bind; [apply preserves_generateAdaptiveTasks | intro].
  apply preserves_bind; [apply preserves_load | intros [updated|]];
    [|apply preserves_throw].
  destruct (filter _ (frontier_nodes updated)); [|apply preserves_ret].
  apply preserves_bind; [apply preserves_generateSmartNextTasks | intros tasks].
  destruct tasks; preserved.
Qed.

(** What [completeBlock] does after it saved the schedule. *)
Lemma preserves_after_schedule_save
    (block : block) (learned nextQuestions : string) (rating : Z)
    (breakthrough : bool) (ctx : context) :
  preserves part
    (after_schedule_save E block learned nextQuestions rating breakthrough ctx).
Proof.
  unfold after_schedule_save.
  apply preserves_bind; [apply preserves_load | intro].
  cbv zeta.
  apply preserves_bind; [apply preserves_save; auto | intro].
  apply preserves_bind; [apply preserves_load | intros [c|]];
    [|apply preserves_throw].
  apply preserves_bind; [apply preserves_save; auto | intro].
  apply preserves_evolve.
Qed.

End Preservation.

(** ** Completing a block *)

Section CompletionLaws.
Variable E : env.
Variables (blockId result learned nextQuestions : string).
Variables (energyLevel rating : Z) (breakthrough : bool).
Variables (engagement : Z) (unexpected revealed : list string).
Variable external : list feedback.

Let done : completion :=
  completion_of E result learned nextQuestions energyLevel rating breakthrough.
Let ctx : context :=
  mkContext engagement unexpected revealed external false rating.
Let complete : M unit :=
  completeBlock E blockId result learned nextQuestions energyLevel rating
    breakthrough engagement unexpected revealed external.

(** Up to the save of the schedule. *)
Lemma completeBlock_saved (w : world) (sched : schedule) (i : nat) :
  (exists c p, active_project (disk w) = Some (String c p)) ->
  day_json (disk w) (today E) = Some sched ->
  find_block (time_blocks sched) blockId = Some i ->
  can_write E (DayJson (today E)) = true ->
  complete w =
  after_schedule_save E
    (nth i (time_blocks (with_completed_block sched i done)) no_block)
    learned nextQuestions rating breakthrough ctx
    (mkWorld (put_day (today E) (with_completed_block sched i done) (disk w))
             (drawn w)).
Proof.
  intros (c & p & Hp) Hday Hfind Hwrite.
  unfold complete, completeBlock, bind at 1, requireActiveProject.
  rewrite Hp. unfold bind at 1, load. rewrite Hday, Hfind.
  cbv zeta. unfold bind at 1, save. rewrite Hwrite. reflexivity.
Qed.

(** X18: when there is no schedule for today, no block for the given id or
    action, or the schedule file cannot be written, [completeBlock] throws
    and has written no file of the project.  In the first two cases
    nothing at all is written; in the third the failed save is logged in
    error.log (one line, if the log can be written) and that is the only
    write. *)
Theorem X18_completeBlock_abort_keeps_project_files (w : world) :
  match day_json (disk w) (today E) with
  | None => True
  | Some sched =>
      find_block (time_blocks sched) blockId = None
      \/ can_write E (DayJson (today E)) = false
  end ->
  exists msg w',
    complete w = (Throw msg, w') /\
    same_files (disk w) (disk w') /\
    (w' = w
     \/ (can_write E (DayJson (today E)) = false
         /\ (exists sched i,
               day_json (disk w) (today E) = Some sched
               /\ find_block (time_blocks sched) blockId = Some i)
         /\ w' = mkWorld (logged E (DayJson (today E)) (disk w)) (drawn w))).
Proof.
  intros H.
  assert (Hsame : same_files (disk w) (disk w)) by (repeat split).
  unfold complete, completeBlock, bind at 1, requireActiveProject.
  destruct (active_project (disk w)) as [[|c p]|];
    try (exists "No active project. Use create_project or switch_project first."%string, w;
         split; [reflexivity | split; [exact Hsame | now left]]).
  unfold bind at 1, load.
  destruct (day_json (disk w) (today E)) as [sched|] eqn:Hday.
  2: { eexists; exists w. split; [reflexivity | split; [exact Hsame | now left]]. }
  destruct (find_block (time_blocks sched) blockId) as [i|] eqn:Hfind.
  2: { eexists; exists w. split; [reflexivity | split; [exact Hsame | now left]]. }
  destruct H as [H|H]; [discriminate|].
  cbv zeta. rewrite (bind_step _ _ _ _ _ (save_failed E _ _ w H)). simpl.
  eexists; eexists. split; [reflexivity|]. split.
  - apply logged_same_files.
  - right. split; [exact H|]. split; [eauto | reflexivity].
Qed.

(** X19: once the schedule file is written, the completion stays on disk
    whatever happens afterwards (a failed later save, a missing
    configuration, a throwing opportunity detector): today's schedule has
    the block marked with the completion record and one more completed
    block, and is otherwise as before. *)
Theorem X19_completion_stays_recorded
    (w w' : world) (r : outcome unit) (sched : schedule) (i : nat) :
  (exists c p, active_project (disk w) = Some (String c p)) ->
  day_json (disk w) (today E) = Some sched ->
  find_block (time_blocks sched) blockId = Some i ->
  can_write E (DayJson (today E)) = true ->
  complete w = (r, w') ->
  day_json (disk w') (today E) = Some (with_completed_block sched i done).
Proof.
  intros Hp Hday Hfind Hwrite H.
  rewrite (completeBlock_saved w sched i Hp Hday Hfind Hwrite) in H.
  apply (preserves_after_schedule_save E day_json) in H; try reflexivity.
  rewrite H. simpl. unfold upd. now rewrite String.eqb_refl.
Qed.

(** The rest of [completeBlock] after the history file. *)
Lemma after_schedule_save_history (block : block) (w w' : world)
    (r : outcome unit) :
  can_write E HistoryJson = true ->
  after_schedule_save E block learned nextQuestions rating breakthrough ctx w
    = (r, w') ->
  let old := match history_json (disk w) with
             | Some l => l
             | None => empty_history
             end in
  history_json (disk w')
  = Some (mkHistory
            (completed_topics old
             ++ [mkTopic (b_action block) (today E) learned rating breakthrough])
            (if nonempty nextQuestions
             then knowledge_gaps old
                  ++ [mkGap nextQuestions (today E) (b_action block)]
             else knowledge_gaps old)).
Proof.
  intros Hwrite H old.
  unfold after_schedule_save, bind at 1, load in H. cbv zeta in H.
  match type of H with
  | bind (save E HistoryJson ?put) ?k _ = _ =>
      assert (Hsave : save E HistoryJson put w
                      = (Ok true, mkWorld (put (disk w)) (drawn w)))
        by (unfold save; now rewrite Hwrite);
      assert (Hrest : preserves history_json (k true))
  end.
  { apply preserves_bind; [apply preserves_load | intros [c|]];
      [|apply preserves_throw].
    apply preserves_bind; [apply preserves_save; reflexivity | intro].
    apply preserves_evolve; reflexivity. }
  rewrite (bind_step _ _ _ _ _ Hsave) in H.
  apply Hrest in H. rewrite H. reflexivity.
Qed.

Lemma after_schedule_save_config (block : block) (w w' : world)
    (r : outcome unit) (c : config) :
  can_write E ConfigJson = true ->
  config_json (disk w) = Some c ->
  after_schedule_save E block learned nextQuestions rating breakthrough ctx w
    = (r, w') ->
  config_json (disk w')
  = Some (with_knowledge c (Z.min 100 (knowledge_level c + 1))
            (if breakthrough then breakthroughs c + 1 else breakthroughs c)).
Proof.
  intros Hwrite Hc H.
  unfold after_schedule_save, bind at 1, load in H. cbv zeta in H.
  match type of H with
  | bind (save E HistoryJson ?put) _ _ = _ =>
      destruct (save E HistoryJson put w) as [saved w1] eqn:Hsave
  end.
  assert (Hc1 : config_json (disk w1) = Some c).
  { rewrite <- Hc.
    apply (preserves_save E config_json) in Hsave; [exact Hsave| |];
      reflexivity. }
  assert (Hok : exists b, saved = Ok b).
  { apply save_cases in Hsave.
    destruct Hsave as [(_ & -> & _) | (_ & -> & _)]; eauto. }
  destruct Hok as [b ->].
  rewrite (bind_step _ _ _ _ _ Hsave) in H.
  unfold bind at 1, load in H. rewrite Hc1 in H.
  match type of H with
  | bind (save E ConfigJson ?put) _ _ = _ =>
      assert (Hput : save E ConfigJson put w1
                     = (Ok true, mkWorld (put (disk w1)) (drawn w1)))
        by (unfold save; now rewrite Hwrite)
  end.
  rewrite (bind_step _ _ _ _ _ Hput) in H.
  apply (preserves_evolve E config_json) in H; try reflexivity.
  rewrite H. reflexivity.
Qed.

Lemma update_at_length {A : Type} (f : A -> A) (l : list A) :
  forall i, List.length (update_at i f l) = List.length l.
Proof.
  induction l as [|x l IH]; intros [|i]; simpl; auto.
Qed.

Lemma update_at_nth {A : Type} (f : A -> A) (d : A) (l : list A) :
  forall i, (i < List.length l)%nat ->
  nth i (update_at i f l) d = f (nth i l d).
Proof.
  induction l as [|x l IH]; intros [|i] Hi; simpl in *; try lia; auto.
  apply IH. lia.
Qed.

Lemma find_index_spec {A : Type} (p : A -> bool) (d : A) (l : list A) :
  forall k i, find_index p l k = Some i ->
  (k <= i)%nat /\ (i - k < List.length l)%nat /\ p (nth (i - k) l d) = true.
Proof.
  induction l as [|x l IH]; intros k i H; simpl in H; [discriminate|].
  destruct (p x) eqn:Hpx.
  - inversion H; subst. rewrite Nat.sub_diag. simpl. repeat split; auto; lia.
  - apply IH in H. destruct H as (Hk & Hlt & Hp).
    replace (i - k)%nat with (S (i - S k)) by lia. simpl.
    repeat split; auto; lia.
Qed.

Lemma find_index_found {A : Type} (p : A -> bool) (l : list A) :
  existsb p l = true -> forall k, exists i, find_index p l k = Some i.
Proof.
  induction l as [|x l IH]; simpl; [discriminate|].
  intros H k. destruct (p x); [eauto|]. apply IH. exact H.
Qed.

Lemma find_block_in_range (blocks : list block) (i : nat) :
  find_block blocks blockId = Some i -> (i < List.length blocks)%nat.
Proof.
  unfold find_block. intros H.
  destruct (find_index _ blocks 0%nat) as [j|] eqn:Hid.
  - inversion H; subst.
    apply (find_index_spec _ no_block) in Hid. lia.
  - apply (find_index_spec _ no_block) in H. lia.
Qed.

(** X20: once the schedule file is written and the history file can be
    written, the learning history on disk has exactly one more topic (the
    action of the completed block, with the day, what was learned, the
    rating and the breakthrough flag) and one more knowledge gap exactly
    when there are next questions, whatever happens afterwards. *)
Theorem X20_completion_extends_history
    (w w' : world) (r : outcome unit) (sched : schedule) (i : nat) :
  (exists c p, active_project (disk w) = Some (String c p)) ->
  day_json (disk w) (today E) = Some sched ->
  find_block (time_blocks sched) blockId = Some i ->
  can_write E (DayJson (today E)) = true ->
  can_write E HistoryJson = true ->
  complete w = (r, w') ->
  let old := match history_json (disk w) with
             | Some l => l
             | None => empty_history
             end in
  let action := b_action (nth i (time_blocks sched) no_block) in
  history_json (disk w')
  = Some (mkHistory
            (completed_topics old
             ++ [mkTopic action (today E) learned rating breakthrough])
            (if nonempty nextQuestions
             then knowledge_gaps old ++ [mkGap nextQuestions (today E) action]
             else knowledge_gaps old)).
Proof.
  intros Hp Hday Hfind Hwrite Hhist H old action.
  rewrite (completeBlock_saved w sched i Hp Hday Hfind Hwrite) in H.
  apply after_schedule_save_history in H; [|exact Hhist].
  cbv zeta in H. simpl in H. rewrite H.
  rewrite update_at_nth by (eapply find_block_in_range; eauto).
  reflexivity.
Qed.

(** X21: once the schedule file is written and the configuration can be
    written, the configuration on disk has the knowledge level raised by
    one but never above 100, one more breakthrough exactly when the
    completion is one, and every other setting as before. *)
Theorem X21_completion_raises_knowledge
    (w w' : world) (r : outcome unit) (sched : schedule) (i : nat)
    (c : config) :
  (exists a p, active_project (disk w) = Some (String a p)) ->
  day_json (disk w) (today E) = Some sched ->
  find_block (time_blocks sched) blockId = Some i ->
  can_write E (DayJson (today E)) = true ->
  can_write E ConfigJson = true ->
  config_json (disk w) = Some c ->
  complete w = (r, w') ->
  exists c',
    config_json (disk w') = Some c' /\
    knowledge_level c' = Z.min 100 (knowledge_level c + 1) /\
    breakthroughs c' = (if breakthrough then breakthroughs c + 1
                        else breakthroughs c) /\
    c' = with_knowledge c (knowledge_level c') (breakthroughs c').
Proof.
  intros Hp Hday Hfind Hwrite Hcfg Hc H.
  rewrite (completeBlock_saved w sched i Hp Hday Hfind Hwrite) in H.
  apply (after_schedule_save_config _ _ _ _ c) in H; auto.
  eexists. split; [exact H|]. simpl. repeat split.
Qed.

End CompletionLaws.

(** ** From a selected task to its completion *)

Section SelectThenComplete.
Variable E : env.

(** After a selection, today's schedule on disk has a block of the task's
    id, when the schedule file can be written. *)
Lemma getNextTask_tracked
    (contextFromMemory : string) (energyLevel : Z) (timeAvailable : string)
    (w w' : world) (t : node) :
  getNextTask E contextFromMemory energyLevel timeAvailable w
    = (Ok (NextTask t), w') ->
  can_write E (DayJson (today E)) = true ->
  (exists c p, active_project (disk w') = Some (String c p)) /\
  exists s,
    day_json (disk w') (today E) = Some s /\
    existsb (fun b => String.eqb (b_id b) (id t)) (time_blocks s) = true.
Proof.
  intros H Hwrite. unfold getNextTask in H.
  bind_inv H.
  assert (Hp : exists c p, active_project (disk w) = Some (String c p)).
  { unfold requireActiveProject in Hstep.
    destruct (active_project (disk w)) as [[|c p]|]; try discriminate; eauto. }
  apply requireActiveProject_ok in Hstep. subst.
  bind_inv H. apply load_ok in Hstep. destruct Hstep as [-> ->].
  destruct (config_json (disk w)) as [cfg|]; [|discriminate].
  bind_inv H. apply load_ok in Hstep. destruct Hstep as [-> ->].
  bind_inv H. apply load_ok in Hstep. destruct Hstep as [-> ->].
  match type of H with
  | context [match ?x with Some _ => _ | None => throw _ end] =>
      destruct x as [h|]; [|discriminate]
  end.
  bind_inv H.
  assert (Hact := preserves_ready_or_generated E active_project
                    (fun _ _ => eq_refl) (fun _ _ => eq_refl)
                    _ _ _ _ _ _ _ Hstep).
  clear Hstep.
  destruct a0 as [readyNodes|]; [|discriminate].
  match type of H with
  | context [selectOptimalTask ?l ?c] =>
      destruct (selectOptimalTask l c) as [nextTask|]; [|discriminate]
  end.
  bind_inv H. inversion H; subst; clear H.
  unfold ensure_in_schedule in Hstep.
  bind_inv Hstep. apply load_ok in Hstep0. destruct Hstep0 as [-> ->].
  cbv zeta in Hstep.
  destruct (existsb _ _) eqn:Hex in Hstep.
  - inversion Hstep; subst; clear Hstep.
    rewrite Hact. split; [exact Hp|].
    destruct (day_json (disk w') (today E)) as [s|] eqn:Hday.
    + exists s. split; [reflexivity | exact Hex].
    + simpl in Hex. discriminate.
  - bind_inv Hstep. inversion Hstep; subst; clear Hstep.
    unfold save in Hstep0. rewrite Hwrite in Hstep0.
    inversion Hstep0; subst; clear Hstep0. simpl.
    rewrite Hact. split; [exact Hp|].
    eexists. split; [unfold upd; now rewrite String.eqb_refl|].
    simpl. rewrite existsb_app. simpl. rewrite String.eqb_refl.
    now rewrite Bool.orb_true_r.
Qed.

(** X22: a task that [getNextTask] selected can be completed by its id:
    with a writable schedule file, [completeBlock] called with the id of
    the task finds a block of that id in today's schedule and leaves it on
    disk with the completion record, whatever the rest of the completion
    does. *)
Theorem X22_selected_task_can_be_completed
    (contextFromMemory : string) (energyLevel : Z) (timeAvailable : string)
    (result learned nextQuestions : string) (energyAfter rating : Z)
    (breakthrough : bool) (engagement : Z) (unexpected revealed : list string)
    (external : list feedback)
    (w w1 w2 : world) (t : node) (r : outcome unit) :
  can_write E (DayJson (today E)) = true ->
  getNextTask E contextFromMemory energyLevel timeAvailable w
    = (Ok (NextTask t), w1) ->
  completeBlock E (id t) result learned nextQuestions energyAfter rating
    breakthrough engagement unexpected revealed external w1 = (r, w2) ->
  exists s b,
    day_json (disk w2) (today E) = Some s /\
    In b (time_blocks s) /\
    b_id b = id t /\
    b_completed b
    = Some (completion_of E result learned nextQuestions energyAfter rating
              breakthrough).
Proof.
  intros Hwrite Hnext Hdone.
  destruct (getNextTask_tracked _ _ _ _ _ _ Hnext Hwrite)
    as (Hp & s & Hday & Hex).
  destruct (find_index_found _ _ Hex 0%nat) as [i Hi].
  assert (Hfind : find_block (time_blocks s) (id t) = Some i).
  { unfold find_block. now rewrite Hi. }
  apply (find_index_spec _ no_block) in Hi.
  destruct Hi as (_ & Hlt & Hid). rewrite Nat.sub_0_r in Hlt, Hid.
  apply String.eqb_eq in Hid.
  rewrite (completeBlock_saved E _ _ _ _ _ _ _ _ _ _ _ w1 s i
             Hp Hday Hfind Hwrite) in Hdone.
  apply (preserves_after_schedule_save E day_json) in Hdone;
    try reflexivity.
  eexists. exists (nth i (time_blocks (with_completed_block s i
    (completion_of E result learned nextQuestions energyAfter rating
       breakthrough))) no_block).
  split; [rewrite Hdone; simpl; unfold upd; now rewrite String.eqb_refl|].
  simpl. split; [apply nth_In; now rewrite update_at_length|].
  rewrite update_at_nth by exact Hlt. simpl. split; [exact Hid | reflexivity].
Qed.

End SelectThenComplete.

(** ** Focusing on a learning path *)

Section FocusLaws.
Variable E : env.
Variables pathName duration : string.

Let mark (n : node) : node :=
  if isTaskRelevantToPath n pathName
  then with_path n true (Some pathName)
  else with_path n false (path_focus n).

Lemma mark_relevance (n : node) :
  isTaskRelevantToPath (mark n) pathName = isTaskRelevantToPath n pathName.
Proof.
  unfold mark. destruct (isTaskRelevantToPath n pathName) eqn:Hrel.
  - unfold isTaskRelevantToPath. simpl. now rewrite String.eqb_refl.
  - exact Hrel.
Qed.

Lemma mark_twice (n : node) : mark (mark n) = mark n.
Proof.
  unfold mark at 1. rewrite mark_relevance. unfold mark.
  destruct (isTaskRelevantToPath n pathName); reflexivity.
Qed.

Lemma Forall2_map_right {A C : Type} (R : A -> C -> Prop) (f : A -> C)
    (l : list A) :
  (forall x, R x (f x)) -> Forall2 R l (map f l).
Proof. intros H. induction l; simpl; constructor; auto. Qed.

(** What a call does to the disk when the configuration is there and can
    be written. *)
Lemma focusLearningPath_run (w : world) (c : config) :
  (exists a p, active_project (disk w) = Some (String a p)) ->
  config_json (disk w) = Some c ->
  can_write E ConfigJson = true ->
  exists paths,
    let c' := with_focus E c paths pathName duration in
    focusLearningPath E pathName duration w
    = (Ok tt,
       mkWorld
         (match hta_json (disk w) with
          | Some h =>
              if can_write E HtaJson
              then put_hta (with_frontier h (map mark (frontier_nodes h))
                              (last_evolution h))
                           (put_config c' (disk w))
              else logged E HtaJson (put_config c' (disk w))
          | None => put_config c' (disk w)
          end)
         (drawn w)).
Proof.
  intros (a & p & Hp) Hc Hwrite.
  exists (if negb (existsb (fun q => String.eqb (toLowerCase (path_name q))
                                             (toLowerCase pathName))
                           (learning_paths c))
             && negb (Nat.eqb (List.length (learning_paths c)) 0)
          then learning_paths c ++ [mkPath pathName true]
          else learning_paths c).
  cbv zeta. unfold focusLearningPath.
  assert (Hreq : requireActiveProject w = (Ok (String a p), w))
    by (unfold requireActiveProject; now rewrite Hp).
  rewrite (bind_step _ _ _ _ _ Hreq).
  rewrite (bind_step _ _ _ _ _
             (eq_refl : load config_json w = (Ok (config_json (disk w)), w))).
  rewrite Hc. cbv zeta.
  rewrite (bind_step _ _ _ _ _ (save_written E _ _ w Hwrite)).
  cbn [negb]. cbv iota.
  match goal with
  | |- bind (load hta_json) _ ?w1 = _ =>
      rewrite (bind_step _ _ _ _ _
                 (eq_refl : load hta_json w1 = (Ok (hta_json (disk w1)), w1)))
  end.
  cbn [hta_json disk put_config].
  destruct (hta_json (disk w)) as [h|]; [|reflexivity].
  destruct (can_write E HtaJson) eqn:Hhta.
  - rewrite (bind_step _ _ _ _ _ (save_written E _ _ _ Hhta)). reflexivity.
  - rewrite (bind_step _ _ _ _ _ (save_failed E _ _ _ Hhta)). reflexivity.
Qed.

(** X23: focusing on a path (configuration and tree writable) makes it the
    active path and leaves in hta.json the same nodes in the same order,
    each with its priority flag set exactly when the node is relevant to
    the path; the marking changes nothing else of a node and does not
    change which nodes are relevant to the path. *)
Theorem X23_focus_marks_relevant_tasks (w : world) (c : config) (h : hta) :
  (exists a p, active_project (disk w) = Some (String a p)) ->
  config_json (disk w) = Some c ->
  hta_json (disk w) = Some h ->
  can_write E ConfigJson = true ->
  can_write E HtaJson = true ->
  exists w' c' h',
    focusLearningPath E pathName duration w = (Ok tt, w') /\
    config_json (disk w') = Some c' /\
    active_learning_path c' = Some pathName /\
    hta_json (disk w') = Some h' /\
    Forall2
      (fun n n' =>
         path_priority n' = isTaskRelevantToPath n pathName /\
         isTaskRelevantToPath n' pathName = isTaskRelevantToPath n pathName /\
         with_path n' (path_priority n) (path_focus n) = n)
      (frontier_nodes h) (frontier_nodes h').
Proof.
  intros Hp Hc Hh Hcfg Hhta.
  destruct (focusLearningPath_run w c Hp Hc Hcfg) as [paths Hrun].
  cbv zeta in Hrun. rewrite Hh, Hhta in Hrun.
  do 3 eexists. split; [exact Hrun|]. simpl.
  split; [reflexivity|]. split; [reflexivity|]. split; [reflexivity|].
  apply Forall2_map_right. intros n.
  split; [|split; [apply mark_relevance|]].
  - unfold mark. now destruct (isTaskRelevantToPath n pathName).
  - unfold mark. destruct (isTaskRelevantToPath n pathName); now destruct n.
Qed.

(** X24: focusing a second time on the same path leaves hta.json as the
    first call left it. *)
Theorem X24_focus_twice_same_tree (w w1 w2 : world) :
  focusLearningPath E pathName duration w = (Ok tt, w1) ->
  focusLearningPath E pathName duration w1 = (Ok tt, w2) ->
  hta_json (disk w2) = hta_json (disk w1).
Proof.
  intros H1 H2.
  assert (Hfirst :
    (exists a p, active_project (disk w) = Some (String a p)) /\
    (exists c, config_json (disk w) = Some c) /\
    can_write E ConfigJson = true).
  { unfold focusLearningPath in H1.
    bind_inv H1. split.
    - unfold requireActiveProject in Hstep.
      destruct (active_project (disk w)) as [[|ch p]|]; try discriminate; eauto.
    - apply requireActiveProject_ok in Hstep. subst.
      bind_inv H1. apply load_ok in Hstep. destruct Hstep as [-> ->].
      destruct (config_json (disk w)) as [c|]; [|discriminate].
      split; [eauto|]. cbv zeta in H1. bind_inv H1.
      apply save_cases in Hstep.
      destruct Hstep as [(Hw & _ & _) | (_ & Hr & _)]; [exact Hw|].
      inversion Hr; subst. discriminate. }
  destruct Hfirst as (Hp & [c Hc] & Hcfg).
  destruct (focusLearningPath_run w c Hp Hc Hcfg) as [paths Hrun].
  cbv zeta in Hrun. rewrite Hrun in H1. inversion H1; subst w1; clear H1.
  match type of H2 with
  | focusLearningPath _ _ _ ?w1 = _ =>
      assert (Hp1 : exists a p, active_project (disk w1) = Some (String a p))
        by (simpl; destruct (hta_json (disk w));
            [destruct (can_write E HtaJson)|];
            rewrite ?logged_active_project; exact Hp);
      assert (Hc1 : exists c1, config_json (disk w1) = Some c1)
        by (simpl; destruct (hta_json (disk w));
            [destruct (can_write E HtaJson)|];
            rewrite ?logged_config_json; simpl; eauto)
  end.
  destruct Hc1 as [c1 Hc1].
  destruct (focusLearningPath_run _ c1 Hp1 Hc1 Hcfg) as [paths1 Hrun1].
  cbv zeta in Hrun1. rewrite Hrun1 in H2. inversion H2; subst w2; clear H2.
  simpl.
  destruct (hta_json (disk w)) as [h|] eqn:Hh.
  - destruct (can_write E HtaJson) eqn:Hhta; simpl;
      rewrite ?logged_hta_json; simpl; rewrite ?Hh, ?Hhta; simpl.
    + rewrite map_map. f_equal. unfold with_frontier. simpl. f_equal.
      apply map_ext. intros n. apply mark_twice.
    + repeat (rewrite logged_hta_json; simpl). exact Hh.
  - simpl. rewrite ?Hh. try reflexivity; try exact Hh.
Qed.

End FocusLaws.

(** ** Rebuilding and repairing the sequence *)

Section RepairLaws.
Variable E : env.

Lemma generateSequencedFrontierNodes_same_disk (cfg : config) (w : world) :
  exists nodes w1,
    generateSequencedFrontierNodes E cfg w = (Ok nodes, w1) /\
    disk w1 = disk w.
Proof.
  unfold generateSequencedFrontierNodes, bind, generateId, ret. cbv zeta.
  destruct (specific_interests cfg); simpl; eauto.
Qed.


(** X25: a rebuilt frontier ([generateSequencedFrontierNodes]) always comes
    back, with two or three nodes that are all ready, each under an
    identifier of its own drawn in order; its first node has no
    prerequisite and every prerequisite in it names a node of the same
    frontier; nothing is written. *)
Theorem X25_rebuilt_frontier_is_startable (cfg : config) (w : world) :
  exists nodes,
    generateSequencedFrontierNodes E cfg w
      = (Ok nodes, mkWorld (disk w) (drawn w + List.length nodes)) /\
    (2 <= List.length nodes <= 3)%nat /\
    ids_of nodes = map (ids E) (seq (drawn w) (List.length nodes)) /\
    Forall is_Ready nodes /\
    (exists first rest, nodes = first :: rest /\ prerequisites first = []) /\
    Forall (fun n => Forall (fun p => In p (ids_of nodes)) (prerequisites n))
           nodes.
Proof.
  unfold generateSequencedFrontierNodes. cbv zeta.
  set (est := getEstimatedTime (or_str (focus_duration cfg) "flexible") Simple).
  destruct (specific_interests cfg) as [|firstInterest others].
  - exists [exploration (ids E (drawn w)) (goal cfg) est;
            sampling (ids E (S (drawn w))) (ids E (drawn w)) (goal cfg) est;
            core_concepts (ids E (S (S (drawn w)))) (goal cfg) est []].
    split.
    + unfold bind, generateId, ret. simpl. do 2 f_equal. lia.
    + simpl. split; [lia|]. split; [reflexivity|].
      split; [repeat constructor|].
      split; [eauto|].
      repeat constructor.
  - exists [quick_start (ids E (drawn w)) firstInterest est;
            core_concepts (ids E (S (drawn w))) (goal cfg) est
                          (firstInterest :: others)].
    split.
    + unfold bind, generateId, ret. simpl. do 2 f_equal. lia.
    + simpl. split; [lia|]. split; [reflexivity|].
      split; [repeat constructor|].
      split; [eauto|].
      repeat constructor.
Qed.

Lemma filter_all {A : Type} (f : A -> bool) (l : list A) :
  Forall (fun x => f x = true) l -> filter f l = l.
Proof.
  induction 1 as [|x t Hx _ IH]; simpl; [reflexivity|].
  now rewrite Hx, IH.
Qed.

Lemma with_prerequisites_same (n : node) :
  with_prerequisites n (prerequisites n) = n.
Proof. now destruct n. Qed.

(** One node in the repair: the prerequisites that name a completed node or
    a frontier node stay, the others go. *)
Lemma repair_node_spec (h : hta) (n : node) :
  repair_node (map (fun c => id (c_node c)) (completed_nodes h))
              (frontier_nodes h) n
  = with_prerequisites n (filter (known h) (prerequisites n)).
Proof.
  unfold repair_node.
  destruct (prerequisites n) as [|p0 ps] eqn:Hpre.
  - simpl. rewrite <- Hpre. symmetry. apply with_prerequisites_same.
  - rewrite <- Hpre. unfold invalid_prerequisites.
    set (bad := fun prereq =>
           negb (existsb (String.eqb prereq)
                         (map (fun c => id (c_node c)) (completed_nodes h)))
           && negb (existsb (fun fn => String.eqb (id fn) prereq)
                            (frontier_nodes h))).
    assert (Hbad : forall p, bad p = negb (known h p)).
    { intros p. unfold bad, known. now rewrite Bool.negb_orb. }
    destruct (filter bad (prerequisites n)) as [|i0 others] eqn:Hinv.
    + apply filter_nil_false in Hinv.
      rewrite filter_all; [symmetry; apply with_prerequisites_same|].
      eapply Forall_impl; [|exact Hinv]. simpl. intros p Hp.
      rewrite Hbad in Hp. now destruct (known h p).
    + rewrite <- Hinv. f_equal. apply filter_ext_in. intros p Hin.
      destruct (known h p) eqn:Hk.
      * destruct (existsb (String.eqb p) (filter bad (prerequisites n)))
          eqn:Hex; [|reflexivity].
        apply existsb_eqb_In, filter_In in Hex.
        destruct Hex as [_ Hex]. rewrite Hbad, Hk in Hex. discriminate.
      * assert (Hex : existsb (String.eqb p) (filter bad (prerequisites n))
                      = true).
        { apply existsb_eqb_In, filter_In. split; [exact Hin|].
          now rewrite Hbad, Hk. }
        now rewrite Hex.
Qed.

Lemma filter_ready_repaired (f : node -> list string) (l : list node) :
  filter (fun n => status_eqb (node_status n) Ready)
         (map (fun n => with_prerequisites n (f n)) l)
  = map (fun n => with_prerequisites n (f n))
        (filter (fun n => status_eqb (node_status n) Ready) l).
Proof.
  induction l as [|n l IH]; simpl; [reflexivity|].
  destruct (status_eqb (node_status n) Ready); simpl; now rewrite IH.
Qed.

Lemma known_same_ids (h : hta) (frontier : list node) (p : string) :
  known h p = true ->
  ids_of frontier = ids_of (frontier_nodes h) ->
  In p (ids_of (map c_node (completed_nodes h))) \/ In p (ids_of frontier).
Proof.
  unfold known, ids_of. intros H Hids. apply Bool.orb_true_iff in H.
  destruct H as [H|H].
  - left. apply existsb_eqb_In in H. now rewrite map_map.
  - right. rewrite Hids. apply existsb_exists in H.
    destruct H as (fn & Hin & Heq). apply String.eqb_eq in Heq. subst.
    now apply in_map.
Qed.

(** X26: a repair without rebuild of a frontier that is not empty keeps
    every frontier node in its place and changes only prerequisites: a
    prerequisite stays exactly when it is the id of a completed node or of
    a frontier node.  The tasks it adds (at most three, none when two
    nodes are ready) are ready and have no prerequisite.  The repaired
    frontier is what hta.json then holds, beside the same completed nodes,
    and no prerequisite in it is left dangling. *)
Theorem X26_repair_leaves_no_dangling_prerequisite
    (w w' : world) (h : hta) (frontier : list node) :
  hta_json (disk w) = Some h ->
  frontier_nodes h <> [] ->
  repairSequence E false w = (Ok (Repaired frontier), w') ->
  exists added,
    frontier
    = map (fun n => with_prerequisites n (filter (known h) (prerequisites n)))
          (frontier_nodes h) ++ added /\
    Forall (fun n => is_Ready n /\ prerequisites n = []) added /\
    (List.length added <= 3)%nat /\
    ((2 <= List.length (filter (fun n => status_eqb (node_status n) Ready)
                               (frontier_nodes h)))%nat -> added = []) /\
    Forall (fun n =>
              Forall (fun p =>
                        In p (ids_of (map c_node (completed_nodes h)))
                        \/ In p (ids_of frontier))
                     (prerequisites n)) frontier /\
    exists h',
      hta_json (disk w') = Some h' /\
      frontier_nodes h' = frontier /\
      completed_nodes h' = completed_nodes h.
Proof.
  intros Hh Hne H. unfold repairSequence in H.
  bind_inv H. apply requireActiveProject_ok in Hstep. subst.
  bind_inv H. apply load_ok in Hstep. destruct Hstep as [-> ->].
  bind_inv H. apply load_ok in Hstep. destruct Hstep as [-> ->].
  bind_inv H. apply load_ok in Hstep. destruct Hstep as [-> ->].
  cbv zeta in H. rewrite Hh in H.
  destruct (config_json (disk w)) as [c|]; [|discriminate].
  bind_inv H. bind_inv H.
  match type of Hstep0 with
  | save _ _ (put_hta (with_frontier _ ?x _)) ?y = _ =>
      rename x into newFrontierNodes; rename y into wmid
  end.
  assert (Hmap :
            map (repair_node (map (fun n => id (c_node n)) (completed_nodes h))
                             (frontier_nodes h)) (frontier_nodes h)
            = map (fun n => with_prerequisites n
                              (filter (known h) (prerequisites n)))
                  (frontier_nodes h)).
  { apply map_ext. intros n. apply repair_node_spec. }
  rewrite Hmap in Hstep.
  set (repaired := map (fun n => with_prerequisites n
                                   (filter (known h) (prerequisites n)))
                       (frontier_nodes h)) in *.
  assert (Hready :
            filter (fun n => status_eqb (node_status n) Ready) repaired
            = map (fun n => with_prerequisites n
                              (filter (known h) (prerequisites n)))
                  (filter (fun n => status_eqb (node_status n) Ready)
                          (frontier_nodes h))).
  { apply filter_ready_repaired. }
  assert (Hfrontier : exists added,
            newFrontierNodes = repaired ++ added /\ disk wmid = disk w /\
            Forall (fun n => is_Ready n /\ prerequisites n = []) added /\
            (List.length added <= 3)%nat /\
            ((2 <= List.length (filter (fun n => status_eqb (node_status n) Ready)
                                       (frontier_nodes h)))%nat -> added = [])).
  { destruct repaired as [|r0 rs] eqn:Hrep.
    - unfold repaired in Hrep. destruct (frontier_nodes h); [congruence|].
      discriminate.
    - rewrite <- Hrep in *. rewrite Hready, length_map in Hstep.
      destruct (_ <? 2)%nat eqn:Hlow in Hstep.
      + destruct (generateSmartNextTasks_ready E c
                    match history_json (disk w) with
                    | Some l => l
                    | None => empty_history
                    end w)
          as (tasks & wgen & Hgen & Hdisk & Hr & Hp & Hlen).
        rewrite (bind_step _ _ _ _ _ Hgen) in Hstep.
        inversion Hstep; subst. exists tasks.
        split; [reflexivity|]. split; [exact Hdisk|].
        split.
        { apply Forall_forall. intros n Hin. split.
          - eapply Forall_forall in Hr; eauto.
          - eapply Forall_forall in Hp; eauto. }
        split; [exact Hlen|].
        apply Nat.ltb_lt in Hlow. intros. lia.
      + inversion Hstep; subst. exists [].
        rewrite app_nil_r. repeat split; auto. }
  destruct Hfrontier as (added & -> & Hdisk & Hadded & Hlen & Hnone).
  exists added.
  assert (Hsaved : frontier = repaired ++ added /\
                   hta_json (disk w')
                   = Some (with_frontier h (repaired ++ added)
                                         (Some (now_iso E)))).
  { apply save_cases in Hstep0.
    destruct Hstep0 as [(_ & Hr & ->) | (_ & Hr & ->)];
      inversion Hr; subst; simpl in H; inversion H; subst.
    split; reflexivity. }
  destruct Hsaved as [-> Hsaved].
  split; [reflexivity|]. split; [exact Hadded|]. split; [exact Hlen|].
  split; [exact Hnone|]. split.
  - apply Forall_app. split.
    + unfold repaired. apply Forall_forall. intros n' Hin.
      apply in_map_iff in Hin. destruct Hin as (n & <- & Hin). simpl.
      apply Forall_forall. intros p Hp. apply filter_In in Hp.
      destruct Hp as [_ Hk].
      destruct (known_same_ids h (frontier_nodes h) p Hk eq_refl) as [Hc|Hf];
        [now left | right].
      unfold ids_of in *. rewrite map_app. apply in_or_app. left.
      unfold repaired. rewrite map_map. simpl. exact Hf.
    + eapply Forall_impl; [|exact Hadded]. simpl. intros n [_ ->].
      constructor.
  - eexists. split; [exact Hsaved|]. split; reflexivity.
Qed.

(** X27: whatever it answers, [repairSequence] writes no file of the
    project but hta.json: the disk is as before, or as before with a new
    hta.json, or, when hta.json could not be written, as before with the
    failed save logged in error.log (one line, if the log can be
    written). *)
Theorem X27_repair_writes_only_tree_or_log
    (forceRebuild : bool) (w w' : world) (r : outcome repair_result) :
  repairSequence E forceRebuild w = (r, w') ->
  disk w' = disk w
  \/ (can_write E HtaJson = true /\ exists h', disk w' = put_hta h' (disk w))
  \/ (can_write E HtaJson = false /\ r = Ok RepairNotSaved
      /\ disk w' = logged E HtaJson (disk w)).
Proof.
  intros H. unfold repairSequence in H. unfold bind at 1 in H.
  destruct (requireActiveProject w) as [[p|msg] w0] eqn:Hreq.
  2: { unfold requireActiveProject in Hreq.
       destruct (active_project (disk w)) as [[|ch q]|];
         inversion Hreq; subst; inversion H; subst; now left. }
  apply requireActiveProject_ok in Hreq. subst w0.
  unfold bind at 1, load at 1 in H. unfold bind at 1, load at 1 in H.
  unfold bind at 1, load at 1 in H. cbv zeta in H.
  destruct (hta_json (disk w)) as [h|]; [|inversion H; now left].
  destruct (config_json (disk w)) as [c|]; [|inversion H; now left].
  unfold bind at 1 in H.
  match type of H with
  | context [match ?m w with _ => _ end] =>
      assert (Hnew : exists nodes w1, m w = (Ok nodes, w1) /\ disk w1 = disk w)
  end.
  { assert (Hgen : exists nodes w1,
              generateSequencedFrontierNodes E c w = (Ok nodes, w1)
              /\ disk w1 = disk w).
    { apply generateSequencedFrontierNodes_same_disk. }
    destruct forceRebuild; [exact Hgen|].
    destruct (map _ (frontier_nodes h)) as [|v vs]; [exact Hgen|].
    destruct (_ <? 2)%nat.
    - destruct (generateSmartNextTasks_ready E c
                  match history_json (disk w) with
                  | Some l => l
                  | None => empty_history
                  end w)
        as (tasks & w1 & Hg & Hdisk & _).
      rewrite (bind_step _ _ _ _ _ Hg). unfold ret. eauto.
    - unfold ret. eauto. }
  destruct Hnew as (nodes & w1 & Hnew & Hdisk). rewrite Hnew in H.
  destruct (can_write E HtaJson) eqn:Hhta.
  - rewrite (bind_step _ _ _ _ _ (save_written E _ _ w1 Hhta)) in H.
    inversion H; subst; simpl. right. left. split; [reflexivity|].
    rewrite Hdisk. eauto.
  - rewrite (bind_step _ _ _ _ _ (save_failed E _ _ w1 Hhta)) in H.
    inversion H; subst; simpl. right. right.
    split; [reflexivity|]. split; [reflexivity|]. now rewrite Hdisk.
Qed.

End RepairLaws.

(** ** The sequence report *)

Section ReportLaws.

Lemma debug_ready_is_ready (cfg : config) (h : hta) (hist : history)
    (n : node) :
  let activePath := or_str (active_learning_path cfg) "general" in
  debug_ready activePath h hist n
  = is_ready cfg h hist n && isTaskRelevantToPath n activePath.
Proof.
  unfold debug_ready, is_ready. cbv zeta.
  destruct (status_eqb (node_status n) Ready); [|reflexivity].
  destruct (forallb _ (prerequisites n)); [|reflexivity].
  destruct (active_learning_path cfg) as [[|c p]|]; simpl;
    try reflexivity.
  now destruct (isTaskRelevantToPath n (String c p)).
Qed.

(** X28: the tasks [debugTaskSequence] reports as what get_next_task would
    return are the nodes that pass the readiness filter of [getNextTask]
    on the same tree and history and are relevant to the active path,
    with [general] standing for a missing path: with an active path the
    two lists agree, without one the report also leaves out every node
    that is not relevant to [general].  The report writes nothing. *)
Theorem X28_report_lists_filtered_ready_nodes
    (w : world) (cfg : config) (h : hta) :
  (exists a p, active_project (disk w) = Some (String a p)) ->
  config_json (disk w) = Some cfg ->
  let activePath := or_str (active_learning_path cfg) "general" in
  tree_read (disk w) activePath = Some h ->
  let hist := history_read (disk w) activePath in
  let readyNodes := filter (is_ready cfg h hist) (frontier_nodes h) in
  debugTaskSequence w
  = (Ok (Some (filter (fun n => isTaskRelevantToPath n activePath) readyNodes)),
     w) /\
  (truthy (active_learning_path cfg) <> None ->
   filter (fun n => isTaskRelevantToPath n activePath) readyNodes = readyNodes).
Proof.
  intros (a & p & Hp) Hc activePath Hh hist readyNodes.
  subst readyNodes hist activePath. unfold tree_read, history_read in *.
  split.
  - unfold debugTaskSequence, bind, requireActiveProject, load, ret.
    rewrite Hp, Hc, Hh. do 3 f_equal.
    induction (frontier_nodes h) as [|n l IH]; [reflexivity|].
    simpl. rewrite debug_ready_is_ready.
    destruct (is_ready cfg h _ n); simpl.
    + destruct (isTaskRelevantToPath n _); now rewrite IH.
    + exact IH.
  - intros Hpath. apply filter_all.
    apply Forall_forall. intros n Hin. apply filter_In in Hin.
    destruct Hin as [_ Hr]. unfold is_ready in Hr. cbv zeta in Hr.
    destruct (status_eqb (node_status n) Ready); [|discriminate].
    destruct (forallb _ (prerequisites n)); [|discriminate].
    simpl in Hr.
    destruct (active_learning_path cfg) as [[|c q]|];
      simpl in *; try congruence.
Qed.

End ReportLaws.

(** ** Estimates for short focus sessions *)

Lemma minutes_text_read_back (n : Z) :
  0 <= n <= 1440 ->
  parseTimeAvailable (Some (show_Z n ++ " minutes")%string) = n.
Proof.
  intros Hn.
  pose proof (forallb_below _ 1441 minutes_read_back n ltac:(lia)) as H.
  unfold reads_minutes in H. apply andb_true_iff in H.
  destruct H as [Ha _]. now apply Z.eqb_eq in Ha.
Qed.

(** X29: for a focus duration of at most ten minutes the estimates are
    minute texts that read back as durations: the focus duration itself
    for a simple task, and twice that but never more than 15 minutes for
    an involved one. *)
Theorem X29_short_focus_estimates (focusStyle : string) :
  let focus := parseTimeAvailable (Some focusStyle) in
  0 <= focus <= 10 ->
  parseTimeAvailable (Some (getEstimatedTime focusStyle Simple)) = focus /\
  parseTimeAvailable (Some (getEstimatedTime focusStyle Involved))
  = Z.min (focus * 2) 15.
Proof.
  intros focus Hf. unfold getEstimatedTime. fold focus.
  assert (Hle : (focus <=? 10) = true) by (apply Z.leb_le; lia).
  rewrite Hle. split; apply minutes_text_read_back; lia.
Qed.

(** ** Generating the day *)

Section DayLaws.
Variable E : env.

Lemma fixed_loop_same_disk meals :
  forall index startTime endTime acc w r w',
    fixed_loop E meals index startTime endTime acc w = (r, w') ->
    disk w' = disk w.
Proof.
  induction meals as [|m rest IH]; intros index startTime endTime acc w r w' H;
    simpl in H.
  - now inversion H.
  - destruct (_ && _).
    + rewrite (bind_step _ _ _ _ _ (generateId_step E w)) in H.
      apply IH in H. exact H.
    + apply IH in H. exact H.
Qed.

Lemma breaks_loop_same_disk refs :
  forall index st w r w',
    breaks_loop E refs index st w = (r, w') -> disk w' = disk w.
Proof.
  induction refs as [|x rest IH]; intros index st w r w' H.
  - now inversion H.
  - rewrite breaks_loop_cons in H. destruct rest as [|y rest'].
    + apply IH in H. exact H.
    + destruct (index mod 3 =? 0)%nat.
      * rewrite (bind_step _ _ _ _ _ (generateId_step E w)) in H.
        apply IH in H. exact H.
      * apply IH in H. exact H.
Qed.

Lemma transitions_loop_same_disk slots :
  forall m acc w r w',
    transitions_loop E slots m acc w = (r, w') -> disk w' = disk w.
Proof.
  induction slots as [|x rest IH]; intros m acc w r w' H; simpl in H.
  - now inversion H.
  - rewrite (bind_step _ _ _ _ _ (generateId_step E w)) in H.
    apply IH in H. exact H.
Qed.

Lemma generateComprehensiveSchedule_same_disk cfg h energy focus w s w' :
  generateComprehensiveSchedule E cfg h energy focus w = (Ok s, w') ->
  disk w' = disk w.
Proof.
  intros H.
  destruct (generateComprehensiveSchedule_parts E _ _ _ _ _ _ _ H)
    as (fixedBlocks & w1 & structure & Hfix & Hstruct & _).
  cbv zeta in Hstruct.
  unfold scheduleFixedLifeStructure in Hfix.
  apply fixed_loop_same_disk in Hfix.
  unfold scheduleLifeStructure in Hstruct. bind_inv Hstruct.
  apply breaks_loop_same_disk in Hstep.
  apply transitions_loop_same_disk in Hstruct. congruence.
Qed.

Lemma generateComprehensiveSchedule_open cfg h energy focus w s w' :
  generateComprehensiveSchedule E cfg h energy focus w = (Ok s, w') ->
  completed_count s = 0 /\ Forall open_block (time_blocks s).
Proof.
  intros Hs. split.
  { unfold generateComprehensiveSchedule in Hs. bind_inv Hs.
    repeat match type of Hs with
           | context [let (_, _) := ?x in _] => destruct x
           end.
    bind_inv Hs. inversion Hs; subst. reflexivity. }
  destruct (generateComprehensiveSchedule_parts E _ _ _ _ _ _ _ Hs)
    as (fixedBlocks & w1 & structure & Hfix & Hstruct & Hblocks).
  cbv zeta in Hstruct, Hblocks.
  set (PS := fun _ : slot => True).
  assert (Hslots : forall l : list slot, Forall PS l).
  { intros l. apply Forall_forall. intros; exact I. }
  destruct (scheduleLearningBlocks_inv PS open_block I (fun _ _ => I)
              (fun n s0 fd _ => eq_refl)
              (ready_learning h)
              (createTimeSlots (wake_minutes cfg) (window_end cfg) fixedBlocks)
              (identifyHighEnergyPeriods cfg)
              (focus_minutes cfg) (Hslots _)) as [HL1 _].
  destruct (scheduleHabitBlocks_inv PS open_block I (fun _ _ => I)
              (fun hb s0 _ => eq_refl) (ready_habits h)
              (snd (scheduleLearningBlocks (ready_learning h)
                      (createTimeSlots (wake_minutes cfg) (window_end cfg)
                                       fixedBlocks)
                      (identifyHighEnergyPeriods cfg) (focus_minutes cfg)))
              cfg (Hslots _)) as [HH1 _].
  pose proof (scheduleLifeStructure_inv E PS open_block I (fun _ _ => I)
                (fun i s0 _ => eq_refl) (fun i s0 m _ => eq_refl)
                _ _ _ _ _ Hstruct (Hslots _)) as HS.
  assert (HF : Forall open_block fixedBlocks).
  { unfold scheduleFixedLifeStructure in Hfix.
    apply fixed_loop_meals in Hfix. destruct Hfix as (added & -> & Hall & _).
    simpl. eapply Forall_impl; [|exact Hall].
    intros b (i & m & index & -> & _). reflexivity. }
  rewrite Hblocks. eapply Permutation_Forall; [symmetry; apply sort_perm|].
  repeat (apply Forall_app; split); assumption.
Qed.

(** X30: a schedule that [generateDailySchedule] returns is what the day's
    file then holds, and no other file has changed.  It carries the date
    it was asked for (today when none is given) and starts with nothing
    completed: whatever the day's file held before, completions
    included, is replaced. *)
Theorem X30_generated_day_replaces_the_file
    (date : option string) (energyLevel : Z) (focusType : string)
    (w w' : world) (s : schedule) :
  generateDailySchedule E date energyLevel focusType w = (Ok s, w') ->
  let targetDate := or_str date (today E) in
  disk w' = put_day targetDate s (disk w) /\
  day_json (disk w') targetDate = Some s /\
  s_date s = targetDate /\
  completed_count s = 0 /\
  Forall open_block (time_blocks s).
Proof.
  intros H targetDate. unfold generateDailySchedule in H.
  bind_inv H. apply requireActiveProject_ok in Hstep. subst.
  bind_inv H. apply load_ok in Hstep. destruct Hstep as [-> ->].
  bind_inv H.
  match type of Hstep with
  | getActiveHTA _ = (Ok ?x, ?y) => rename x into loaded; rename y into wh
  end.
  assert (Hw : disk wh = disk w).
  { unfold getActiveHTA in Hstep.
    apply (preserves_bind (fun st => st)) in Hstep; [exact Hstep| |].
    - apply preserves_load.
    - intros [c|]; [apply preserves_load | apply preserves_ret]. }
  destruct (config_json (disk w)) as [c|]; [|discriminate].
  destruct loaded as [h|]; [|discriminate].
  bind_inv H.
  pose proof (generateComprehensiveSchedule_same_disk _ _ _ _ _ _ _ Hstep0)
    as Hw2.
  apply generateComprehensiveSchedule_open in Hstep0.
  destruct Hstep0 as [Hcount Hopen].
  bind_inv H. fold targetDate in Hstep0, H.
  apply save_cases in Hstep0.
  destruct Hstep0 as [(_ & Hr & ->) | (_ & Hr & ->)];
    inversion Hr; subst; simpl in H; [|discriminate].
  inversion H; subst; clear H. simpl.
  rewrite Hw2, Hw. split; [reflexivity|].
  split; [unfold upd; now rewrite String.eqb_refl|].
  split; [reflexivity|]. split; [exact Hcount | exact Hopen].
Qed.

End DayLaws.

(** ** The properties at work on the sample project *)

Lemma X11_emission_witness :
  exists opportunities,
    fst (detectEmergentOpportunities E0 (view_of_node scales)
           (rich_context None None false 3) W_fresh) = Ok opportunities /\
    List.length opportunities = 5%nat.
Proof.
  assert (Hacc : Forall accepted
                   (externalFeedback (rich_context None None false 3))).
  { repeat constructor. exists true. reflexivity. }
  destruct (X11_detector_emission_count E0 (view_of_node scales)
              (rich_context None None false 3) W_fresh Hacc)
    as (opportunities & Hrun & Hlen & _).
  exists opportunities. rewrite Hrun. split; [reflexivity | exact Hlen].
Defined.

Lemma X12_plain_completion_witness :
  exists h' w',
    evolved_hta E0 hta_one scales_block "" (plain_context 3) W_day
      = (Ok h', w') /\
    disk w' = disk W_day.
Proof.
  assert (Hplain : plain (plain_context 3)).
  { unfold plain. simpl. repeat split. }
  destruct (X12_plain_completion E0 hta_one scales_block "" (plain_context 3)
              W_day Hplain)
    as (w' & Hrun & Hdisk).
  eexists. exists w'. split; [exact Hrun | exact Hdisk].
Defined.

Lemma X14_unlock_witness :
  exists h' c,
    fst (evolved_hta E0 hta_one scales_block "" (plain_context 3) W_day)
      = Ok h' /\
    In c (frontier_nodes h') /\
    is_ready cfg_day h' empty_history c = true.
Proof.
  destruct (X14_completion_unlocks_continuation E0 cfg_day empty_history
              hta_one scales_block "" (plain_context 3) W_day
              (Forall_nil _) eq_refl eq_refl)
    as (h' & w' & c & Hrun & Hin & _ & _ & Hready).
  exists h', c. rewrite Hrun. repeat split; assumption.
Defined.

Lemma X16_selection_witness :
  exists candidates,
    fst (ready_or_generated E0 cfg_day hta_one empty_history "" W_fresh)
      = Ok (Some candidates) /\
    In scales candidates /\
    node_status scales = Ready.
Proof.
  destruct (X16_selected_task_ready_and_fitting E0 "" 3 "30 minutes"
              W_fresh (snd (getNextTask E0 "" 3 "30 minutes" W_fresh))
              scales eq_refl)
    as (cfg & h & candidates & w1 & Hcfg & Htree & Hrun & Hin & Hready & _).
  inversion Hcfg; subst cfg. inversion Htree; subst h.
  exists candidates.
  change (history_read (disk W_fresh)
            (or_str (active_learning_path cfg_day) "general"))
    with empty_history in Hrun.
  rewrite Hrun. repeat split; assumption.
Defined.

Lemma X17_stuck_witness :
  let run := getNextTask E_hta_locked "" 3 "30 minutes"
               (mkWorld disk_short 0) in
  fst run = Ok SequenceStuck /\
  error_log (disk (snd run))
    = [mkLogEntry (now_iso E0) "saveProjectData" HtaJson] /\
  same_files disk_short (disk (snd run)).
Proof.
  intros run. split; [reflexivity|]. split; [reflexivity|].
  exact (proj1 (X17_stuck_writes_no_project_file E_hta_locked "" 3
                  "30 minutes" (mkWorld disk_short 0) (snd run) eq_refl)).
Defined.

Lemma X18_abort_witness :
  exists msg w',
    completeBlock E_day_locked "n1" "done" "the scales" "" 3 3 false 5
      [] [] [] W_day = (Throw msg, w') /\
    same_files (disk W_day) (disk w') /\
    error_log (disk w')
      = [mkLogEntry (now_iso E0) "saveProjectData" (DayJson (today E0))].
Proof.
  destruct (X18_completeBlock_abort_keeps_project_files E_day_locked "n1"
              "done" "the scales" "" 3 3 false 5 [] [] [] W_day
              (or_intror eq_refl))
    as (msg & w' & Hrun & Hsame & _).
  exists msg, w'. split; [exact Hrun|]. split; [exact Hsame|].
  vm_compute in Hrun. inversion Hrun. reflexivity.
Defined.

Lemma X19_recorded_witness :
  day_json
    (disk (snd (completeBlock E0 "n1" "done" "the scales" "" 3 3 false 5
                  [] [] [] W_day)))
    (today E0)
  = Some (with_completed_block day_one 0
            (completion_of E0 "done" "the scales" "" 3 3 false)).
Proof.
  exact (X19_completion_stays_recorded E0 "n1" "done" "the scales" "" 3 3
           false 5 [] [] [] W_day
           (snd (completeBlock E0 "n1" "done" "the scales" "" 3 3 false 5
                   [] [] [] W_day))
           (fst (completeBlock E0 "n1" "done" "the scales" "" 3 3 false 5
                   [] [] [] W_day))
           day_one 0%nat
           (ex_intro _ "p"%char (ex_intro _ "iano" eq_refl))
           eq_refl eq_refl eq_refl eq_refl).
Defined.

Lemma X20_history_witness :
  history_json
    (disk (snd (completeBlock E0 "n1" "done" "the scales" "" 3 3 false 5
                  [] [] [] W_day)))
  = Some (mkHistory
            [mkTopic "Practice scales" (today E0) "the scales" 3 false] []).
Proof.
  exact (X20_completion_extends_history E0 "n1" "done" "the scales" "" 3 3
           false 5 [] [] [] W_day
           (snd (completeBlock E0 "n1" "done" "the scales" "" 3 3 false 5
                   [] [] [] W_day))
           (fst (completeBlock E0 "n1" "done" "the scales" "" 3 3 false 5
                   [] [] [] W_day))
           day_one 0%nat
           (ex_intro _ "p"%char (ex_intro _ "iano" eq_refl))
           eq_refl eq_refl eq_refl eq_refl eq_refl).
Defined.

Lemma X21_knowledge_witness :
  exists c',
    config_json
      (disk (snd (completeBlock E0 "n1" "done" "the scales" "" 3 3 true 5
                    [] [] [] W_day))) = Some c' /\
    knowledge_level c' = 1 /\ breakthroughs c' = 1.
Proof.
  destruct (X21_completion_raises_knowledge E0 "n1" "done" "the scales" "" 3
              3 true 5 [] [] [] W_day
              (snd (completeBlock E0 "n1" "done" "the scales" "" 3 3 true 5
                      [] [] [] W_day))
              (fst (completeBlock E0 "n1" "done" "the scales" "" 3 3 true 5
                      [] [] [] W_day))
              day_one 0%nat cfg_day
              (ex_intro _ "p"%char (ex_intro _ "iano" eq_refl))
              eq_refl eq_refl eq_refl eq_refl eq_refl eq_refl)
    as (c' & Hc & Hk & Hb & _).
  exists c'. split; [exact Hc|]. split; [exact Hk | exact Hb].
Defined.

Lemma X22_select_then_complete_witness :
  let w1 := snd (getNextTask E0 "" 3 "30 minutes" W_fresh) in
  let w2 := snd (completeBlock E0 "n1" "done" "the scales" "" 3 3 false 5
                   [] [] [] w1) in
  exists s b,
    day_json (disk w2) (today E0) = Some s /\
    In b (time_blocks s) /\
    b_id b = "n1" /\
    b_completed b
    = Some (completion_of E0 "done" "the scales" "" 3 3 false).
Proof.
  intros w1 w2.
  exact (X22_selected_task_can_be_completed E0 "" 3 "30 minutes"
           "done" "the scales" "" 3 3 false 5 [] [] []
           W_fresh w1 w2 scales
           (fst (completeBlock E0 "n1" "done" "the scales" "" 3 3 false 5
                   [] [] [] w1))
           eq_refl eq_refl eq_refl).
Defined.

Lemma X23_focus_witness :
  exists w' c' h',
    focusLearningPath E0 "scales" "one week" W_fresh = (Ok tt, w') /\
    config_json (disk w') = Some c' /\
    active_learning_path c' = Some "scales" /\
    hta_json (disk w') = Some h' /\
    List.length (frontier_nodes h') = 1%nat.
Proof.
  destruct (X23_focus_marks_relevant_tasks E0 "scales" "one week" W_fresh
              cfg_day hta_one
              (ex_intro _ "p"%char (ex_intro _ "iano" eq_refl))
              eq_refl eq_refl eq_refl eq_refl)
    as (w' & c' & h' & Hrun & Hc & Hpath & Hh & Hmarks).
  exists w', c', h'. repeat (split; [assumption|]).
  apply Forall2_length in Hmarks. now rewrite <- Hmarks.
Defined.

Lemma X24_focus_twice_witness :
  let w1 := snd (focusLearningPath E0 "scales" "one week" W_fresh) in
  let w2 := snd (focusLearningPath E0 "scales" "one week" w1) in
  hta_json (disk w2) = hta_json (disk w1).
Proof.
  intros w1 w2.
  exact (X24_focus_twice_same_tree E0 "scales" "one week" W_fresh w1 w2
           eq_refl eq_refl).
Defined.

Lemma X26_repair_witness :
  exists added,
    [with_prerequisites after_foo []]
    = map (fun n => with_prerequisites n
                      (filter (known hta_waiting) (prerequisites n)))
          (frontier_nodes hta_waiting) ++ added.
Proof.
  assert (Hne : frontier_nodes hta_waiting <> []) by discriminate.
  destruct (X26_repair_leaves_no_dangling_prerequisite E0
              (mkWorld disk_waiting 0)
              (snd (repairSequence E0 false (mkWorld disk_waiting 0)))
              hta_waiting [with_prerequisites after_foo []]
              eq_refl Hne eq_refl)
    as (added & Hfrontier & _).
  exists added. exact Hfrontier.
Defined.

Lemma X27_repair_writes_witness :
  let run := repairSequence E_hta_locked true W_fresh in
  fst run = Ok RepairNotSaved /\
  disk (snd run) = logged E_hta_locked HtaJson (disk W_fresh).
Proof.
  intros run.
  destruct (X27_repair_writes_only_tree_or_log E_hta_locked true W_fresh
              (snd run) (fst run) eq_refl)
    as [Hsame | [[Hwrite _] | (_ & Hr & Hlog)]].
  - vm_compute in Hsame. inversion Hsame.
  - vm_compute in Hwrite. discriminate.
  - split; [exact Hr | exact Hlog].
Defined.

Lemma X28_report_witness :
  debugTaskSequence W_fresh = (Ok (Some []), W_fresh).
Proof.
  exact (proj1 (X28_report_lists_filtered_ready_nodes W_fresh cfg_day hta_one
                  (ex_intro _ "p"%char (ex_intro _ "iano" eq_refl))
                  eq_refl eq_refl)).
Defined.

Lemma X29_short_focus_witness :
  parseTimeAvailable (Some (getEstimatedTime "5 minutes" Simple)) = 5 /\
  parseTimeAvailable (Some (getEstimatedTime "5 minutes" Involved)) = 10.
Proof.
  apply (X29_short_focus_estimates "5 minutes").
  vm_compute. split; discriminate.
Defined.

Lemma X30_generated_day_witness :
  let run := generateDailySchedule E0 None 3 "mixed" W_day in
  let s := result_of day_one (fst run) in
  day_json (disk (snd run)) (today E0) = Some s /\
  completed_count s = 0.
Proof.
  intros run s.
  assert (Hrun : generateDailySchedule E0 None 3 "mixed" W_day
                 = (Ok s, snd run)).
  { vm_compute. reflexivity. }
  destruct (X30_generated_day_replaces_the_file E0 None 3 "mixed" W_day
              (snd run) s Hrun)
    as (_ & Hday & _ & Hcount & _).
  split; [exact Hday | exact Hcount].
Defined.
